(** * Shadow-view layout: a shallow embedding of RCTShadowView

    The development follows the implementation file of the shadow view
    (the Objective-C class [ABI46_0_0RCTShadowView]; the version prefix is
    dropped from every name below).  It is organised as the class is:

    - [Numeric]    the numbers of frames and of style values;
    - [MetaProps]  the margin / padding / border meta-property resolution
                   ([RCTProcessMetaPropsPadding] and its two siblings);
    - [Measure]    the intrinsic-content-size measure callback, on
                   IEEE 754 doubles and floats;
    - [Layout]     the layout pass over the tree of shadow views and the
                   hit test;
    - [Topology]   insertion and removal of subviews, on a store of
                   objects with identity;
    - [Standalone] the measurement of a view on a scratch copy of its
                   solver node;
    - [Traversal]  what the layout pass reaches and writes;
    - [Props]      the style property setters and [didSetProps:];
    - [Intrinsic]  [setIntrinsicContentSize:];
    - [Ancestry]   [viewIsDescendantOf:] and
                   [measureLayoutRelativeToAncestor:].

    The definitions come first; the properties follow, one module of
    facts for each module of definitions.
*)

From Stdlib Require Import ZArith Bool List Lia.
From Stdlib Require SpecFloat.
From stdpp Require Import base decidable option list.

Local Open Scope Z_scope.

(** ** Numbers *)

Module Numeric.

(** [CGFloat] geometry (points).  Frames handed back by the solver are
    finite, and the class only adds, subtracts and compares them, so the
    values are taken in [Z]. *)
Definition CGFloat := Z.

(** Yoga's [float].  The one non-finite value the class ever tests for is
    [YGUndefined], which is NaN. *)
Inductive float : Type :=
| YGUndefined
| Fl (v : Z).

#[global] Instance float_eq_dec : EqDecision float.
Proof. solve_decision. Defined.

(** [YGFloatIsUndefined] is [isnan]. *)
Definition YGFloatIsUndefined (f : float) : bool :=
  match f with YGUndefined => true | Fl _ => false end.

End Numeric.
Export Numeric.

(** ** Geometry records *)

Record CGPoint : Type := { pt_x : CGFloat; pt_y : CGFloat }.
Record CGSize : Type := { sz_width : CGFloat; sz_height : CGFloat }.
Record CGRect : Type := { rect_origin : CGPoint; rect_size : CGSize }.

#[global] Instance CGPoint_eq_dec : EqDecision CGPoint.
Proof. unfold CGFloat. solve_decision. Defined.
#[global] Instance CGSize_eq_dec : EqDecision CGSize.
Proof. unfold CGFloat. solve_decision. Defined.
#[global] Instance CGRect_eq_dec : EqDecision CGRect.
Proof. solve_decision. Defined.

Definition CGPointZero : CGPoint := {| pt_x := 0; pt_y := 0 |}.

(** [CGSizeEqualToSize]: exact comparison of both dimensions. *)
Definition CGSizeEqualToSize (a b : CGSize) : bool := bool_decide (a = b).

(** ** Meta-property resolution *)

Module MetaProps.

Inductive meta_prop_t : Type :=
| META_PROP_LEFT
| META_PROP_TOP
| META_PROP_RIGHT
| META_PROP_BOTTOM
| META_PROP_START
| META_PROP_END
| META_PROP_HORIZONTAL
| META_PROP_VERTICAL
| META_PROP_ALL.

Inductive YGUnit : Type :=
| YGUnitUndefined
| YGUnitPoint
| YGUnitPercent
| YGUnitAuto.

Inductive YGEdge : Type :=
| YGEdgeLeft
| YGEdgeTop
| YGEdgeRight
| YGEdgeBottom
| YGEdgeStart
| YGEdgeEnd
| YGEdgeHorizontal
| YGEdgeVertical
| YGEdgeAll.

#[global] Instance meta_prop_t_eq_dec : EqDecision meta_prop_t.
Proof. solve_decision. Defined.
#[global] Instance YGUnit_eq_dec : EqDecision YGUnit.
Proof. solve_decision. Defined.
#[global] Instance YGEdge_eq_dec : EqDecision YGEdge.
Proof. solve_decision. Defined.

Record YGValue : Type := { value : float; unit : YGUnit }.

#[global] Instance YGValue_eq_dec : EqDecision YGValue.
Proof. solve_decision. Defined.

Definition YGValueUndefined : YGValue :=
  {| value := YGUndefined; unit := YGUnitUndefined |}.
Definition YGValueAuto : YGValue :=
  {| value := YGUndefined; unit := YGUnitAuto |}.

(** The array [YGValue metaProps[META_PROP_COUNT]], indexed by the enum. *)
Definition MetaPropArray := meta_prop_t -> YGValue.

(** *** The style slots of a solver node

    The solver is a library; what the class does to it is to call style
    setters.  A node records, per edge group and edge, the last setter
    invoked on that edge together with its argument ([None]: no setter
    was invoked). *)
Inductive Setting : Type :=
| Points (v : float)      (* setter(node, edge, v) *)
| Percent (v : float)     (* setter##Percent(node, edge, v) *)
| Auto.                   (* setter##Auto(node, edge) *)

#[global] Instance Setting_eq_dec : EqDecision Setting.
Proof. solve_decision. Defined.

Record YGNodeStyle : Type := {
  padding : YGEdge -> option Setting;
  margin : YGEdge -> option Setting;
  border : YGEdge -> option Setting
}.

Definition YGNodeNew : YGNodeStyle :=
  {| padding := fun _ => None; margin := fun _ => None; border := fun _ => None |}.

Definition set_edge (slots : YGEdge -> option Setting) (edge : YGEdge) (s : Setting)
  : YGEdge -> option Setting :=
  fun e => if decide (e = edge) then Some s else slots e.

Definition YGNodeStyleSetPadding (node : YGNodeStyle) (edge : YGEdge) (v : float) :=
  {| padding := set_edge (padding node) edge (Points v);
     margin := margin node; border := border node |}.
Definition YGNodeStyleSetPaddingPercent (node : YGNodeStyle) (edge : YGEdge) (v : float) :=
  {| padding := set_edge (padding node) edge (Percent v);
     margin := margin node; border := border node |}.
Definition YGNodeStyleSetMargin (node : YGNodeStyle) (edge : YGEdge) (v : float) :=
  {| padding := padding node;
     margin := set_edge (margin node) edge (Points v); border := border node |}.
Definition YGNodeStyleSetMarginPercent (node : YGNodeStyle) (edge : YGEdge) (v : float) :=
  {| padding := padding node;
     margin := set_edge (margin node) edge (Percent v); border := border node |}.
Definition YGNodeStyleSetMarginAuto (node : YGNodeStyle) (edge : YGEdge) :=
  {| padding := padding node;
     margin := set_edge (margin node) edge Auto; border := border node |}.
Definition YGNodeStyleSetBorder (node : YGNodeStyle) (edge : YGEdge) (v : float) :=
  {| padding := padding node; margin := margin node;
     border := set_edge (border node) edge (Points v) |}.

(** The macro [RCT_SET_YGVALUE(ygvalue, setter, ...)]; the two setters it
    names by token pasting are passed explicitly. *)
Definition RCT_SET_YGVALUE {N : Type} (ygvalue : YGValue)
    (setter setterPercent : N -> YGEdge -> float -> N)
    (node : N) (edge : YGEdge) : N :=
  match unit ygvalue with
  | YGUnitAuto | YGUnitUndefined => setter node edge YGUndefined
  | YGUnitPoint => setter node edge (value ygvalue)
  | YGUnitPercent => setterPercent node edge (value ygvalue)
  end.

(** The macro [RCT_SET_YGVALUE_AUTO(ygvalue, setter, ...)]. *)
Definition RCT_SET_YGVALUE_AUTO {N : Type} (ygvalue : YGValue)
    (setter setterPercent : N -> YGEdge -> float -> N)
    (setterAuto : N -> YGEdge -> N)
    (node : N) (edge : YGEdge) : N :=
  match unit ygvalue with
  | YGUnitAuto => setterAuto node edge
  | YGUnitUndefined => setter node edge YGUndefined
  | YGUnitPoint => setter node edge (value ygvalue)
  | YGUnitPercent => setterPercent node edge (value ygvalue)
  end.

Definition unit_is_undefined (v : YGValue) : bool :=
  bool_decide (unit v = YGUnitUndefined).

Section Process.
(** [[RCTI18nUtil sharedInstance] doLeftAndRightSwapInRTL] *)
Variable doLeftAndRightSwapInRTL : bool.

Definition setPadding (v : YGValue) (edge : YGEdge) (node : YGNodeStyle) :=
  RCT_SET_YGVALUE v YGNodeStyleSetPadding YGNodeStyleSetPaddingPercent node edge.

Definition setMargin (v : YGValue) (edge : YGEdge) (node : YGNodeStyle) :=
  RCT_SET_YGVALUE_AUTO v YGNodeStyleSetMargin YGNodeStyleSetMarginPercent
    YGNodeStyleSetMarginAuto node edge.

Definition RCTProcessMetaPropsPadding (metaProps : MetaPropArray) (node : YGNodeStyle)
  : YGNodeStyle :=
  let node :=
    if negb doLeftAndRightSwapInRTL then
      let node := setPadding (metaProps META_PROP_START) YGEdgeStart node in
      let node := setPadding (metaProps META_PROP_END) YGEdgeEnd node in
      let node := setPadding (metaProps META_PROP_LEFT) YGEdgeLeft node in
      setPadding (metaProps META_PROP_RIGHT) YGEdgeRight node
    else
      let start :=
        if unit_is_undefined (metaProps META_PROP_START)
        then metaProps META_PROP_LEFT else metaProps META_PROP_START in
      let end_ :=
        if unit_is_undefined (metaProps META_PROP_END)
        then metaProps META_PROP_RIGHT else metaProps META_PROP_END in
      let node := setPadding start YGEdgeStart node in
      setPadding end_ YGEdgeEnd node in
  let node := setPadding (metaProps META_PROP_TOP) YGEdgeTop node in
  let node := setPadding (metaProps META_PROP_BOTTOM) YGEdgeBottom node in
  let node := setPadding (metaProps META_PROP_HORIZONTAL) YGEdgeHorizontal node in
  let node := setPadding (metaProps META_PROP_VERTICAL) YGEdgeVertical node in
  setPadding (metaProps META_PROP_ALL) YGEdgeAll node.

Definition RCTProcessMetaPropsMargin (metaProps : MetaPropArray) (node : YGNodeStyle)
  : YGNodeStyle :=
  let node :=
    if negb doLeftAndRightSwapInRTL then
      let node := setMargin (metaProps META_PROP_START) YGEdgeStart node in
      let node := setMargin (metaProps META_PROP_END) YGEdgeEnd node in
      let node := setMargin (metaProps META_PROP_LEFT) YGEdgeLeft node in
      setMargin (metaProps META_PROP_RIGHT) YGEdgeRight node
    else
      let start :=
        if unit_is_undefined (metaProps META_PROP_START)
        then metaProps META_PROP_LEFT else metaProps META_PROP_START in
      let end_ :=
        if unit_is_undefined (metaProps META_PROP_END)
        then metaProps META_PROP_RIGHT else metaProps META_PROP_END in
      let node := setMargin start YGEdgeStart node in
      setMargin end_ YGEdgeEnd node in
  let node := setMargin (metaProps META_PROP_TOP) YGEdgeTop node in
  let node := setMargin (metaProps META_PROP_BOTTOM) YGEdgeBottom node in
  let node := setMargin (metaProps META_PROP_HORIZONTAL) YGEdgeHorizontal node in
  let node := setMargin (metaProps META_PROP_VERTICAL) YGEdgeVertical node in
  setMargin (metaProps META_PROP_ALL) YGEdgeAll node.

Definition RCTProcessMetaPropsBorder (metaProps : MetaPropArray) (node : YGNodeStyle)
  : YGNodeStyle :=
  let node :=
    if negb doLeftAndRightSwapInRTL then
      let node := YGNodeStyleSetBorder node YGEdgeStart (value (metaProps META_PROP_START)) in
      let node := YGNodeStyleSetBorder node YGEdgeEnd (value (metaProps META_PROP_END)) in
      let node := YGNodeStyleSetBorder node YGEdgeLeft (value (metaProps META_PROP_LEFT)) in
      YGNodeStyleSetBorder node YGEdgeRight (value (metaProps META_PROP_RIGHT))
    else
      let start :=
        if YGFloatIsUndefined (value (metaProps META_PROP_START))
        then value (metaProps META_PROP_LEFT) else value (metaProps META_PROP_START) in
      let end_ :=
        if YGFloatIsUndefined (value (metaProps META_PROP_END))
        then value (metaProps META_PROP_RIGHT) else value (metaProps META_PROP_END) in
      let node := YGNodeStyleSetBorder node YGEdgeStart start in
      YGNodeStyleSetBorder node YGEdgeEnd end_ in
  let node := YGNodeStyleSetBorder node YGEdgeTop (value (metaProps META_PROP_TOP)) in
  let node := YGNodeStyleSetBorder node YGEdgeBottom (value (metaProps META_PROP_BOTTOM)) in
  let node :=
    YGNodeStyleSetBorder node YGEdgeHorizontal (value (metaProps META_PROP_HORIZONTAL)) in
  let node :=
    YGNodeStyleSetBorder node YGEdgeVertical (value (metaProps META_PROP_VERTICAL)) in
  YGNodeStyleSetBorder node YGEdgeAll (value (metaProps META_PROP_ALL)).
End Process.

(** What a value handed to [RCT_SET_YGVALUE] leaves in a padding slot, and
    what [RCT_SET_YGVALUE_AUTO] leaves in a margin slot. *)
Definition paddingSetting (v : YGValue) : Setting :=
  match unit v with
  | YGUnitAuto | YGUnitUndefined => Points YGUndefined
  | YGUnitPoint => Points (value v)
  | YGUnitPercent => Percent (value v)
  end.

Definition marginSetting (v : YGValue) : Setting :=
  match unit v with
  | YGUnitAuto => Auto
  | YGUnitUndefined => Points YGUndefined
  | YGUnitPoint => Points (value v)
  | YGUnitPercent => Percent (value v)
  end.

(** The entry the margin and padding code picks for a logical edge when
    mirroring is on: the logical entry unless its unit is undefined. *)
Definition logicalOrPhysical (logical physical : YGValue) : YGValue :=
  if unit_is_undefined logical then physical else logical.

(** A meta-property array built from an association list, for examples. *)
Definition metaPropsOf (l : list (meta_prop_t * YGValue)) : MetaPropArray :=
  fun p =>
    match List.find (fun e => bool_decide (fst e = p)) l with
    | Some e => snd e
    | None => YGValueUndefined
    end.

Definition points (v : Z) : YGValue := {| value := Fl v; unit := YGUnitPoint |}.

(** [RCT_BORDER_PROPERTY]: a border setter writes the [value] member
    only; the unit of a border entry is never written. *)
Definition setBorderWidth (metaProp : meta_prop_t) (v : float) (metaProps : MetaPropArray)
  : MetaPropArray :=
  fun p =>
    if bool_decide (p = metaProp)
    then {| value := v; unit := unit (metaProps p) |}
    else metaProps p.

(** Two states on which the unit of the start entry and its float value
    tell different stories.  In the first the start entry has the value 5
    under an undefined unit; in the second it has the unit of points and
    an undefined value.  The left entry is 2 points in both. *)
Definition startValueOnly : MetaPropArray :=
  metaPropsOf [(META_PROP_START, {| value := Fl 5; unit := YGUnitUndefined |});
               (META_PROP_LEFT, points 2)].

Definition startUnitOnly : MetaPropArray :=
  metaPropsOf [(META_PROP_START, {| value := YGUndefined; unit := YGUnitPoint |});
               (META_PROP_LEFT, points 2)].

(** The statement that on every state the margin code and the border code
    select the same entry, for the start edge between the start and the
    left entry and for the end edge between the end and the right entry. *)
Definition sameSelection : Prop :=
  forall (metaProps : MetaPropArray) (node : YGNodeStyle),
    (exists selected : YGValue,
        (selected = metaProps META_PROP_START \/ selected = metaProps META_PROP_LEFT) /\
        margin (RCTProcessMetaPropsMargin true metaProps node) YGEdgeStart
          = Some (marginSetting selected) /\
        border (RCTProcessMetaPropsBorder true metaProps node) YGEdgeStart
          = Some (Points (value selected))) /\
    (exists selected : YGValue,
        (selected = metaProps META_PROP_END \/ selected = metaProps META_PROP_RIGHT) /\
        margin (RCTProcessMetaPropsMargin true metaProps node) YGEdgeEnd
          = Some (marginSetting selected) /\
        border (RCTProcessMetaPropsBorder true metaProps node) YGEdgeEnd
          = Some (Points (value selected))).

End MetaProps.

(** ** The measure callback *)

Module Measure.
Import SpecFloat.

(** The callback works on two number types: [CGFloat], a double, for the
    intrinsic size, and the solver's [float] for the offered and the
    returned size.  Both are taken as IEEE 754 values, binary64 with 53
    bits of precision and binary32 with 24, so that the conversions
    between them round as the machine does. *)
Definition binary64 : Type := spec_float.
Definition binary32 : Type := spec_float.

Definition convert (prec emax : Z) (x : spec_float) : spec_float :=
  match x with
  | S754_finite s m e => binary_round prec emax s m e
  | _ => x
  end.

(** The conversion of a double that is assigned to a float: to nearest,
    ties to even. *)
Definition float_of_double (x : binary64) : binary32 := convert 24 128 x.

(** The promotion of a float operand that meets a double. *)
Definition double_of_float (x : binary32) : binary64 := convert 53 1024 x.

(** Integer literals. *)
Definition double_of_int (z : Z) : binary64 := binary_normalize 53 1024 z 0 false.
Definition float_of_int (z : Z) : binary32 := binary_normalize 24 128 z 0 false.

Inductive YGMeasureMode : Type :=
| YGMeasureModeUndefined
| YGMeasureModeExactly
| YGMeasureModeAtMost.

Record CGSize : Type := { cg_width : binary64; cg_height : binary64 }.
Record YGSize : Type := { yg_width : binary32; yg_height : binary32 }.

(** [UIViewNoIntrinsicMetric] *)
Definition UIViewNoIntrinsicMetric : binary64 := double_of_int (-1).

(** [MAX(0, b)] with [b] a double: [__a < __b ? __b : __a], the integer
    [__a] promoted to double. *)
Definition MAX (a : Z) (b : binary64) : binary64 :=
  if SFltb (double_of_int a) b then b else double_of_int a.

(** [MIN(a, b)] with [a] a float and [b] a double: [__a < __b ? __a :
    __b], a double, [__a] promoted. *)
Definition MIN (a : binary32) (b : binary64) : binary64 :=
  if SFltb (double_of_float a) b then double_of_float a else b.

(** [RCTShadowViewMeasure].  The node argument is only used to reach the
    shadow view's [_intrinsicContentSize], which is passed directly.  The
    members of the result are floats: what is assigned to them is
    converted. *)
Definition RCTShadowViewMeasure (_intrinsicContentSize : CGSize)
    (width : binary32) (widthMode : YGMeasureMode)
    (height : binary32) (heightMode : YGMeasureMode) : YGSize :=
  let intrinsicContentSize :=
    {| cg_width := MAX 0 (cg_width _intrinsicContentSize);
       cg_height := MAX 0 (cg_height _intrinsicContentSize) |} in
  {| yg_width :=
       match widthMode with
       | YGMeasureModeUndefined => float_of_double (cg_width intrinsicContentSize)
       | YGMeasureModeExactly => width
       | YGMeasureModeAtMost => float_of_double (MIN width (cg_width intrinsicContentSize))
       end;
     yg_height :=
       match heightMode with
       | YGMeasureModeUndefined => float_of_double (cg_height intrinsicContentSize)
       | YGMeasureModeExactly => height
       | YGMeasureModeAtMost => float_of_double (MIN height (cg_height intrinsicContentSize))
       end |}.

(** The intrinsic dimension the callback computes with: the dimension
    itself if it is above zero, zero otherwise. *)
Definition raised (x : binary64) : binary64 :=
  if SFltb (S754_zero false) x then x else S754_zero false.

(** The statement that in mode Undefined the callback answers the
    intrinsic width itself whenever that is above zero. *)
Definition answersTheIntrinsicSize : Prop :=
  forall (intrinsic : CGSize) (width height : binary32) (heightMode : YGMeasureMode),
    SFltb (S754_zero false) (cg_width intrinsic) = true ->
    double_of_float
      (yg_width (RCTShadowViewMeasure intrinsic width YGMeasureModeUndefined height heightMode))
    = cg_width intrinsic.

End Measure.

(** ** The layout pass *)

Module Layout.
Import MetaProps.

Inductive RCTDisplayType : Type :=
| RCTDisplayTypeNone
| RCTDisplayTypeFlex
| RCTDisplayTypeInline.

Inductive UIUserInterfaceLayoutDirection : Type :=
| UIUserInterfaceLayoutDirectionLeftToRight
| UIUserInterfaceLayoutDirectionRightToLeft.

Inductive YGDirection : Type :=
| YGDirectionInherit
| YGDirectionLTR
| YGDirectionRTL.

#[global] Instance RCTDisplayType_eq_dec : EqDecision RCTDisplayType.
Proof. solve_decision. Defined.
#[global] Instance UIUserInterfaceLayoutDirection_eq_dec :
  EqDecision UIUserInterfaceLayoutDirection.
Proof. solve_decision. Defined.

(** Modelled from the spec: the struct [RCTLayoutMetrics] and its
    comparison [RCTLayoutMetricsEqualToLayoutMetrics] are declared in a
    header that is not among the sources.  The data model lists the
    fields (frame, layout direction, display type) and says that metrics
    are compared field by field, exactly. *)
Record RCTLayoutMetrics : Type := {
  frame : CGRect;
  layoutDirection : UIUserInterfaceLayoutDirection;
  displayType : RCTDisplayType
}.

#[global] Instance RCTLayoutMetrics_eq_dec : EqDecision RCTLayoutMetrics.
Proof. solve_decision. Defined.

Definition RCTLayoutMetricsEqualToLayoutMetrics (a b : RCTLayoutMetrics) : bool :=
  bool_decide (a = b).

(** *** The solver node of a view

    What the class reads from and writes to its [_yogaNode]: the dirty
    flag, the has-new-layout marker, the geometry the solver computed
    (as [RCTLayoutMetricsFromYogaNode] reads it back) and the minimum
    size style. *)
Record YGNode : Type := {
  isDirty : bool;
  hasNewLayout : bool;
  layout : RCTLayoutMetrics;
  minWidth : YGValue;
  minHeight : YGValue
}.

Definition YGNodeIsDirty (node : YGNode) : bool := isDirty node.
Definition YGNodeGetHasNewLayout (node : YGNode) : bool := hasNewLayout node.
Definition YGNodeSetHasNewLayout (node : YGNode) (b : bool) : YGNode :=
  {| isDirty := isDirty node; hasNewLayout := b; layout := layout node;
     minWidth := minWidth node; minHeight := minHeight node |}.
Definition RCTLayoutMetricsFromYogaNode (node : YGNode) : RCTLayoutMetrics := layout node.
Definition YGNodeStyleGetMinWidth (node : YGNode) : YGValue := minWidth node.
Definition YGNodeStyleGetMinHeight (node : YGNode) : YGValue := minHeight node.

(** The value a float style setter stores: points, or undefined for NaN. *)
Definition pointsOrUndefined (v : float) : YGValue :=
  match v with
  | YGUndefined => YGValueUndefined
  | Fl _ => {| value := v; unit := YGUnitPoint |}
  end.

(** Modelled from the spec: the solver's style setters are library code
    that is not among the sources.  A setter writes to the solver binding
    and marks the node dirty for re-solving; as in the solver library, a
    setter that finds the value it is given already stored does nothing. *)
Definition YGNodeStyleSetMinWidth (node : YGNode) (v : float) : YGNode :=
  if decide (minWidth node = pointsOrUndefined v) then node
  else {| isDirty := true; hasNewLayout := hasNewLayout node; layout := layout node;
          minWidth := pointsOrUndefined v; minHeight := minHeight node |}.
Definition YGNodeStyleSetMinHeight (node : YGNode) (v : float) : YGNode :=
  if decide (minHeight node = pointsOrUndefined v) then node
  else {| isDirty := true; hasNewLayout := hasNewLayout node; layout := layout node;
          minWidth := minWidth node; minHeight := pointsOrUndefined v |}.

(** *** The tree of shadow views

    A view owns the ordered list of its subviews.  [reactTag] stands for
    the identity of the view object. *)
#[local] Unset Elimination Schemes.
Inductive RCTShadowView : Type :=
  ShadowView {
    reactTag : Z;
    layoutMetrics : RCTLayoutMetrics;
    yogaNode : YGNode;
    reactSubviews : list RCTShadowView
  }.
#[local] Set Elimination Schemes.

Definition withYogaNode (self : RCTShadowView) (node : YGNode) : RCTShadowView :=
  ShadowView (reactTag self) (layoutMetrics self) node (reactSubviews self).
Definition withLayoutMetrics (self : RCTShadowView) (m : RCTLayoutMetrics) : RCTShadowView :=
  ShadowView (reactTag self) m (yogaNode self) (reactSubviews self).
Definition withReactSubviews (self : RCTShadowView) (l : list RCTShadowView) : RCTShadowView :=
  ShadowView (reactTag self) (layoutMetrics self) (yogaNode self) l.

(** *** Effects of a pass

    [RCTLayoutContext] is passed by value; its [affectedShadowViews]
    member points to one hash table shared by every copy.  The table is
    therefore threaded as state, next to a journal of the
    [layoutWithMetrics:layoutContext:] messages sent (receiver, metrics,
    and the context's [absolutePosition] at that moment), which is how a
    context value is observed. *)
Record RCTLayoutContext : Type := { absolutePosition : CGPoint }.

Record LayoutMessage : Type := {
  receiver : Z;
  metrics : RCTLayoutMetrics;
  contextPosition : CGPoint
}.

Record PassState : Type := {
  affectedShadowViews : list Z;
  journal : list LayoutMessage
}.

(** [-[NSHashTable addObject:]] *)
Definition addObject (table : list Z) (object : Z) : list Z :=
  if bool_decide (object ∈ table) then table else table ++ [object].

(** An [RCTAssert] that fails aborts the pass. *)
Inductive Result (A : Type) : Type :=
| Done (a : A)
| DirtyYogaNode.    (* "Attempt to get layout metrics from dirtied Yoga node." *)
Arguments Done {A} a.
Arguments DirtyYogaNode {A}.

Definition advance (layoutContext : RCTLayoutContext) (origin : CGPoint) : RCTLayoutContext :=
  {| absolutePosition :=
       {| pt_x := pt_x (absolutePosition layoutContext) + pt_x origin;
          pt_y := pt_y (absolutePosition layoutContext) + pt_y origin |} |}.

(** [layoutWithMetrics:layoutContext:] *)
Definition layoutWithMetrics (self : RCTShadowView) (layoutMetrics' : RCTLayoutMetrics)
    (layoutContext : RCTLayoutContext) (st : PassState) : RCTShadowView * PassState :=
  let message :=
    {| receiver := reactTag self; metrics := layoutMetrics';
       contextPosition := absolutePosition layoutContext |} in
  if negb (RCTLayoutMetricsEqualToLayoutMetrics (layoutMetrics self) layoutMetrics') then
    (withLayoutMetrics self layoutMetrics',
     {| affectedShadowViews := addObject (affectedShadowViews st) (reactTag self);
        journal := journal st ++ [message] |})
  else
    (self,
     {| affectedShadowViews := affectedShadowViews st;
        journal := journal st ++ [message] |}).

(** The [for (... in _reactSubviews)] loop: the body is run on each
    subview in list order; the loop's local [layoutContext] is carried
    from one iteration to the next. *)
Definition forEachSubview
    (body : RCTShadowView -> RCTLayoutContext -> PassState ->
            Result (RCTShadowView * RCTLayoutContext * PassState))
  : list RCTShadowView -> RCTLayoutContext -> PassState ->
    Result (list RCTShadowView * PassState) :=
  fix loop subviews layoutContext st :=
    match subviews with
    | [] => Done ([], st)
    | childShadowView :: rest =>
        match body childShadowView layoutContext st with
        | DirtyYogaNode => DirtyYogaNode
        | Done (childShadowView', layoutContext', st') =>
            match loop rest layoutContext' st' with
            | DirtyYogaNode => DirtyYogaNode
            | Done (rest', st'') => Done (childShadowView' :: rest', st'')
            end
        end
    end.

(** One iteration of the loop of [layoutSubviewsWithContext:], with the
    recursive message to the child unfolded in place (see
    [layoutSubview_eq] for the form the source has). *)
Fixpoint layoutSubview (childShadowView : RCTShadowView)
    (layoutContext : RCTLayoutContext) (st : PassState) {struct childShadowView}
  : Result (RCTShadowView * RCTLayoutContext * PassState) :=
  match childShadowView with
  | ShadowView tag storedMetrics childYogaNode subviews =>
      if YGNodeIsDirty childYogaNode then DirtyYogaNode
      else if negb (YGNodeGetHasNewLayout childYogaNode) then
        Done (childShadowView, layoutContext, st)                       (* continue *)
      else
        let childYogaNode' := YGNodeSetHasNewLayout childYogaNode false in
        let childLayoutMetrics := RCTLayoutMetricsFromYogaNode childYogaNode' in
        let layoutContext :=
          advance layoutContext (rect_origin (frame childLayoutMetrics)) in
        let '(child, st) :=
          layoutWithMetrics (ShadowView tag storedMetrics childYogaNode' subviews)
            childLayoutMetrics layoutContext st in
        (* Recursive call. *)
        match displayType (layoutMetrics child) with
        | RCTDisplayTypeNone => Done (child, layoutContext, st)
        | _ =>
            match forEachSubview layoutSubview subviews layoutContext st with
            | DirtyYogaNode => DirtyYogaNode
            | Done (subviews', st') =>
                Done (withReactSubviews child subviews', layoutContext, st')
            end
        end
  end.

(** [layoutSubviewsWithContext:] *)
Definition layoutSubviewsWithContext (self : RCTShadowView)
    (layoutContext : RCTLayoutContext) (st : PassState)
  : Result (RCTShadowView * PassState) :=
  let layoutMetrics := layoutMetrics self in
  match displayType layoutMetrics with
  | RCTDisplayTypeNone => Done (self, st)
  | _ =>
      match forEachSubview layoutSubview (reactSubviews self) layoutContext st with
      | DirtyYogaNode => DirtyYogaNode
      | Done (subviews', st') => Done (withReactSubviews self subviews', st')
      end
  end.

(** The loop body as the source writes it: assert, skip or consume the
    marker, advance the context, apply the metrics, recurse. *)
Definition loopBody (childShadowView : RCTShadowView)
    (layoutContext : RCTLayoutContext) (st : PassState)
  : Result (RCTShadowView * RCTLayoutContext * PassState) :=
  let childYogaNode := yogaNode childShadowView in
  if YGNodeIsDirty childYogaNode then DirtyYogaNode
  else if negb (YGNodeGetHasNewLayout childYogaNode) then
    Done (childShadowView, layoutContext, st)
  else
    let childShadowView :=
      withYogaNode childShadowView (YGNodeSetHasNewLayout childYogaNode false) in
    let childLayoutMetrics := RCTLayoutMetricsFromYogaNode (yogaNode childShadowView) in
    let layoutContext :=
      advance layoutContext (rect_origin (frame childLayoutMetrics)) in
    let '(childShadowView, st) :=
      layoutWithMetrics childShadowView childLayoutMetrics layoutContext st in
    match layoutSubviewsWithContext childShadowView layoutContext st with
    | DirtyYogaNode => DirtyYogaNode
    | Done (childShadowView, st) => Done (childShadowView, layoutContext, st)
    end.

Section Root.
(** The solver and the conversions of [RCTLayout.h] are not part of the
    class.  The solver is handed the root's node, which is the root of
    the solver tree mirroring the views, and rewrites solver nodes. *)
Variable YGNodeCalculateLayout :
  RCTShadowView -> float -> float -> YGDirection -> RCTShadowView.
Variable RCTYogaFloatFromCoreGraphicsFloat : CGFloat -> float.
Variable RCTCoreGraphicsFloatFromYogaValue : YGValue -> CGFloat -> CGFloat.
Variable RCTYogaLayoutDirectionFromUIKitLayoutDirection :
  UIUserInterfaceLayoutDirection -> YGDirection.

(** [layoutWithMinimumSize:maximumSize:layoutDirection:layoutContext:] *)
Definition layoutWithMinimumSize (self : RCTShadowView)
    (minimumSize maximumSize : CGSize)
    (layoutDirection : UIUserInterfaceLayoutDirection)
    (layoutContext : RCTLayoutContext) (st : PassState)
  : Result (RCTShadowView * PassState) :=
  let oldMinimumSize :=
    {| sz_width :=
         RCTCoreGraphicsFloatFromYogaValue (YGNodeStyleGetMinWidth (yogaNode self)) 0;
       sz_height :=
         RCTCoreGraphicsFloatFromYogaValue (YGNodeStyleGetMinHeight (yogaNode self)) 0 |} in
  let self :=
    if negb (CGSizeEqualToSize oldMinimumSize minimumSize) then
      let self :=
        withYogaNode self
          (YGNodeStyleSetMinWidth (yogaNode self)
             (RCTYogaFloatFromCoreGraphicsFloat (sz_width minimumSize))) in
      withYogaNode self
        (YGNodeStyleSetMinHeight (yogaNode self)
           (RCTYogaFloatFromCoreGraphicsFloat (sz_height minimumSize)))
    else self in
  let self :=
    YGNodeCalculateLayout self
      (RCTYogaFloatFromCoreGraphicsFloat (sz_width maximumSize))
      (RCTYogaFloatFromCoreGraphicsFloat (sz_height maximumSize))
      (RCTYogaLayoutDirectionFromUIKitLayoutDirection layoutDirection) in
  if YGNodeIsDirty (yogaNode self) then DirtyYogaNode
  else if negb (YGNodeGetHasNewLayout (yogaNode self)) then Done (self, st)
  else
    let self := withYogaNode self (YGNodeSetHasNewLayout (yogaNode self) false) in
    let layoutMetrics := RCTLayoutMetricsFromYogaNode (yogaNode self) in
    let layoutContext := advance layoutContext (rect_origin (frame layoutMetrics)) in
    let '(self, st) := layoutWithMetrics self layoutMetrics layoutContext st in
    layoutSubviewsWithContext self layoutContext st.

(** The two halves of the method around the solver call, named for the
    proofs (see [layoutWithMinimumSize_eq]). *)
Definition pushMinimumSize (self : RCTShadowView) (minimumSize : CGSize) : RCTShadowView :=
  let oldMinimumSize :=
    {| sz_width :=
         RCTCoreGraphicsFloatFromYogaValue (YGNodeStyleGetMinWidth (yogaNode self)) 0;
       sz_height :=
         RCTCoreGraphicsFloatFromYogaValue (YGNodeStyleGetMinHeight (yogaNode self)) 0 |} in
  if negb (CGSizeEqualToSize oldMinimumSize minimumSize) then
    let self :=
      withYogaNode self
        (YGNodeStyleSetMinWidth (yogaNode self)
           (RCTYogaFloatFromCoreGraphicsFloat (sz_width minimumSize))) in
    withYogaNode self
      (YGNodeStyleSetMinHeight (yogaNode self)
         (RCTYogaFloatFromCoreGraphicsFloat (sz_height minimumSize)))
  else self.

Definition applyRootLayout (self : RCTShadowView)
    (layoutContext : RCTLayoutContext) (st : PassState)
  : Result (RCTShadowView * PassState) :=
  if YGNodeIsDirty (yogaNode self) then DirtyYogaNode
  else if negb (YGNodeGetHasNewLayout (yogaNode self)) then Done (self, st)
  else
    let self := withYogaNode self (YGNodeSetHasNewLayout (yogaNode self) false) in
    let layoutMetrics := RCTLayoutMetricsFromYogaNode (yogaNode self) in
    let layoutContext := advance layoutContext (rect_origin (frame layoutMetrics)) in
    let '(self, st) := layoutWithMetrics self layoutMetrics layoutContext st in
    layoutSubviewsWithContext self layoutContext st.
End Root.

Section HitTest.
(** [CGRectContainsPoint] belongs to the platform. *)
Variable CGRectContainsPoint : CGRect -> CGPoint -> bool.

(** [ReactTagAtPoint:] *)
Fixpoint reactTagAtPoint (self : RCTShadowView) (point : CGPoint) {struct self} : Z :=
  match self with
  | ShadowView tag _ _ subviews =>
      (fix loop (subviews : list RCTShadowView) : Z :=
         match subviews with
         | [] => tag
         | shadowView :: rest =>
             if CGRectContainsPoint (frame (layoutMetrics shadowView)) point then
               let origin := rect_origin (frame (layoutMetrics shadowView)) in
               let relativePoint :=
                 {| pt_x := pt_x point - pt_x origin; pt_y := pt_y point - pt_y origin |} in
               reactTagAtPoint shadowView relativePoint
             else loop rest
         end) subviews
  end.
End HitTest.

(** The usual rectangle test: the minimum edges belong to the rectangle,
    the maximum edges do not. *)
Definition containsPoint (r : CGRect) (p : CGPoint) : bool :=
  (pt_x (rect_origin r) <=? pt_x p) && (pt_x p <? pt_x (rect_origin r) + sz_width (rect_size r))
  && (pt_y (rect_origin r) <=? pt_y p)
  && (pt_y p <? pt_y (rect_origin r) + sz_height (rect_size r)).

(** *** Example trees *)

Definition rect (x y w h : Z) : CGRect :=
  {| rect_origin := {| pt_x := x; pt_y := y |};
     rect_size := {| sz_width := w; sz_height := h |} |}.

Definition flexMetrics (r : CGRect) : RCTLayoutMetrics :=
  {| frame := r; layoutDirection := UIUserInterfaceLayoutDirectionLeftToRight;
     displayType := RCTDisplayTypeFlex |}.

(** A view fresh from [-init] for which the solver has just computed the
    frame [r]: the marker is set, the node is clean, no metrics stored. *)
Definition solved (tag : Z) (r : CGRect) (subviews : list RCTShadowView) : RCTShadowView :=
  ShadowView tag (flexMetrics (rect 0 0 0 0))
    {| isDirty := false; hasNewLayout := true; layout := flexMetrics r;
       minWidth := YGValueUndefined; minHeight := YGValueUndefined |}
    subviews.

(** A root whose own frame has been applied already. *)
Definition laidOutRoot (tag : Z) (r : CGRect) (subviews : list RCTShadowView) : RCTShadowView :=
  ShadowView tag (flexMetrics r)
    {| isDirty := false; hasNewLayout := false; layout := flexMetrics r;
       minWidth := YGValueUndefined; minHeight := YGValueUndefined |}
    subviews.

(** Grandchild B at local (5,5) inside child A at local (10,10). *)
Definition viewB : RCTShadowView := solved 4 (rect 5 5 20 20) [].
Definition viewA : RCTShadowView := solved 3 (rect 10 10 50 50) [viewB].
(** A sibling S at local (7,3). *)
Definition viewS : RCTShadowView := solved 2 (rect 7 3 30 30) [].

(** The root at (0,0) with S listed before A. *)
Definition rootSiblingFirst : RCTShadowView := laidOutRoot 1 (rect 0 0 320 480) [viewS; viewA].
(** The root at (0,0) with A listed first, followed by any siblings. *)
Definition rootAFirst (later : list RCTShadowView) : RCTShadowView :=
  laidOutRoot 1 (rect 0 0 320 480) (viewA :: later).

Definition emptyPass : PassState := {| affectedShadowViews := []; journal := [] |}.
Definition atOrigin : RCTLayoutContext := {| absolutePosition := CGPointZero |}.

(** Who was told which absolute position. *)
Definition positionsTold (st : PassState) : list (Z * (Z * Z)) :=
  map (fun m => (receiver m, (pt_x (contextPosition m), pt_y (contextPosition m))))
      (journal st).

(** A hidden container whose two subviews the solver has laid out. *)
Definition hiddenContainer : RCTShadowView :=
  ShadowView 1
    {| frame := rect 0 0 0 0; layoutDirection := UIUserInterfaceLayoutDirectionLeftToRight;
       displayType := RCTDisplayTypeNone |}
    {| isDirty := false; hasNewLayout := false;
       layout := {| frame := rect 0 0 0 0;
                    layoutDirection := UIUserInterfaceLayoutDirectionLeftToRight;
                    displayType := RCTDisplayTypeNone |};
       minWidth := YGValueUndefined; minHeight := YGValueUndefined |}
    [viewS; viewA].

(** Two overlapping siblings: both frames contain the point (12,12). *)
Definition overlapping : RCTShadowView :=
  laidOutRoot 1 (rect 0 0 100 100)
    [laidOutRoot 2 (rect 0 0 50 50) []; laidOutRoot 3 (rect 10 10 50 50) []].

(** *** The solver seen by the pass

    [solverState] forgets what the pass itself writes: the
    has-new-layout markers it consumes and the metrics it stores. *)
Fixpoint solverState (v : RCTShadowView) : RCTShadowView :=
  match v with
  | ShadowView tag _ node subviews =>
      ShadowView tag (flexMetrics (rect 0 0 0 0)) (YGNodeSetHasNewLayout node false)
        (map solverState subviews)
  end.

Definition clearRootMarker (v : RCTShadowView) : RCTShadowView :=
  withYogaNode v (YGNodeSetHasNewLayout (yogaNode v) false).

(** Modelled from the spec: the solver is a library that is not among the
    sources.  The layout is a deterministic function of style, topology
    and constraint box, and a node carries a pending update only when the
    solver produced new output for it.  For a solver that works
    incrementally this gives: the solver leaves the style it is given
    alone; and when it is run again under the same constraints on a tree
    whose solver state is the one it left, it changes nothing except,
    possibly, raising the root's marker again, which it does only if the
    first run raised it. *)
Record IncrementalSolver
    (calculate : RCTShadowView -> float -> float -> YGDirection -> RCTShadowView) : Prop := {
  solver_keeps_minimum : forall t w h d,
    minWidth (yogaNode (calculate t w h d)) = minWidth (yogaNode t) /\
    minHeight (yogaNode (calculate t w h d)) = minHeight (yogaNode t);
  solver_rerun : forall t w h d t',
    solverState t' = solverState (calculate t w h d) ->
    clearRootMarker (calculate t' w h d) = clearRootMarker t' /\
    (hasNewLayout (yogaNode (calculate t' w h d)) = true ->
     hasNewLayout (yogaNode t') = true \/
     hasNewLayout (yogaNode (calculate t w h d)) = true)
}.

(** A solver for examples: the geometry is already in the nodes; a run
    cleans the root and raises its marker. *)
Definition markRoot (t : RCTShadowView) (_ _ : float) (_ : YGDirection) : RCTShadowView :=
  withYogaNode t
    {| isDirty := false; hasNewLayout := true; layout := layout (yogaNode t);
       minWidth := minWidth (yogaNode t); minHeight := minHeight (yogaNode t) |}.

Definition floatOfCG (v : CGFloat) : float := Fl v.
Definition cgOfYogaValue (v : YGValue) (base : CGFloat) : CGFloat :=
  match unit v, value v with
  | YGUnitPoint, Fl z => z
  | _, _ => base
  end.
Definition yogaDirection (d : UIUserInterfaceLayoutDirection) : YGDirection :=
  match d with
  | UIUserInterfaceLayoutDirectionLeftToRight => YGDirectionLTR
  | UIUserInterfaceLayoutDirectionRightToLeft => YGDirectionRTL
  end.

End Layout.

(** ** Insertion and removal of subviews *)

Module Topology.

(** Views are objects with identity; a reference names the view and,
    equally, the solver node that the view owns ([_yogaNode]). *)
Definition ref := nat.

Record Object : Type := {
  _superview : option ref;
  _reactSubviews : list ref;
  (** [canHaveSubviews] and [isYogaLeafNode] are methods a subclass may
      override; the base class answers YES and NO. *)
  canHaveSubviews : bool;
  isYogaLeafNode : bool;
  (** the solver side of [_yogaNode] *)
  yogaChildren : list ref;
  yogaOwner : option ref;
  hasMeasureFunc : bool
}.

Definition Store := ref -> Object.

Definition update (s : Store) (r : ref) (f : Object -> Object) : Store :=
  fun k => if decide (k = r) then f (s r) else s k.

Definition set_superview (v : option ref) (o : Object) : Object :=
  {| _superview := v; _reactSubviews := _reactSubviews o;
     canHaveSubviews := canHaveSubviews o; isYogaLeafNode := isYogaLeafNode o;
     yogaChildren := yogaChildren o; yogaOwner := yogaOwner o;
     hasMeasureFunc := hasMeasureFunc o |}.
Definition set_reactSubviews (l : list ref) (o : Object) : Object :=
  {| _superview := _superview o; _reactSubviews := l;
     canHaveSubviews := canHaveSubviews o; isYogaLeafNode := isYogaLeafNode o;
     yogaChildren := yogaChildren o; yogaOwner := yogaOwner o;
     hasMeasureFunc := hasMeasureFunc o |}.
Definition set_yogaChildren (l : list ref) (o : Object) : Object :=
  {| _superview := _superview o; _reactSubviews := _reactSubviews o;
     canHaveSubviews := canHaveSubviews o; isYogaLeafNode := isYogaLeafNode o;
     yogaChildren := l; yogaOwner := yogaOwner o;
     hasMeasureFunc := hasMeasureFunc o |}.
Definition set_yogaOwner (v : option ref) (o : Object) : Object :=
  {| _superview := _superview o; _reactSubviews := _reactSubviews o;
     canHaveSubviews := canHaveSubviews o; isYogaLeafNode := isYogaLeafNode o;
     yogaChildren := yogaChildren o; yogaOwner := v;
     hasMeasureFunc := hasMeasureFunc o |}.

Inductive Failure : Type :=
| InsertInsideLeafView     (* RCTAssert "Attempt to insert subview inside leaf view." *)
| NSRangeException         (* -[NSMutableArray insertObject:atIndex:], index beyond bounds *)
| YGChildAlreadyOwned      (* "Child already has a owner, it must be removed first." *)
| YGMeasuredNodeHasNoChildren (* "Nodes with measure functions cannot have children." *)
| YGIndexBeyondChildren.   (* insertion past the end of the solver's child vector *)

Inductive Outcome : Type :=
| Ok (s : Store)
| Raised (f : Failure).

Definition insertAt (l : list ref) (i : nat) (x : ref) : list ref :=
  take i l ++ x :: drop i l.

(** [-[NSMutableArray insertObject:atIndex:]]: the index, read as an
    unsigned integer, must not exceed the count. *)
Definition insertObject (l : list ref) (object : ref) (atIndex : Z) : option (list ref) :=
  if (0 <=? atIndex) && (atIndex <=? Z.of_nat (length l))
  then Some (insertAt l (Z.to_nat atIndex) object)
  else None.

(** [-[NSMutableArray removeObject:]]: every occurrence goes. *)
Definition removeObject (l : list ref) (object : ref) : list ref :=
  List.filter (fun x => negb (bool_decide (x = object))) l.

(** Erasing the first occurrence, as [std::vector::erase] on the result
    of [std::find]. *)
Fixpoint eraseFirst (l : list ref) (x : ref) : list ref :=
  match l with
  | [] => []
  | y :: l' => if decide (y = x) then l' else y :: eraseFirst l' x
  end.

(** The cast [(uint32_t)atIndex]. *)
Definition uint32_of (i : Z) : Z := i mod 2 ^ 32.

(** Modelled from the spec: the solver's child list ([YGNodeInsertChild],
    [YGNodeRemoveChild]) is library code that is not among the sources.
    Inserting attaches the child's solver node at the given index and
    removing detaches the link (component design of the shadow node); no
    node is shared between two parents (data model), which the solver
    enforces by refusing a child that already has an owner, as it refuses
    children under a node with a measure function. *)
Definition YGNodeInsertChild (s : Store) (owner child : ref) (index : Z) : Outcome :=
  match yogaOwner (s child) with
  | Some _ => Raised YGChildAlreadyOwned
  | None =>
      if hasMeasureFunc (s owner) then Raised YGMeasuredNodeHasNoChildren
      else if Z.of_nat (length (yogaChildren (s owner))) <? index
      then Raised YGIndexBeyondChildren
      else
        let s := update s owner
                   (fun o => set_yogaChildren (insertAt (yogaChildren o) (Z.to_nat index) child) o) in
        Ok (update s child (set_yogaOwner (Some owner)))
  end.

Definition YGNodeRemoveChild (s : Store) (owner excludedChild : ref) : Store :=
  match yogaChildren (s owner) with
  | [] => s
  | first :: _ =>
      let childOwner := yogaOwner (s first) in
      if bool_decide (excludedChild ∈ yogaChildren (s owner)) then
        let s := update s owner
                   (fun o => set_yogaChildren (eraseFirst (yogaChildren o) excludedChild) o) in
        if bool_decide (childOwner = Some owner)
        then update s excludedChild (set_yogaOwner None)
        else s
      else s
  end.

(** [insertReactSubview:atIndex:] *)
Definition insertReactSubview (self subview : ref) (atIndex : Z) (s : Store) : Outcome :=
  if negb (canHaveSubviews (s self)) then Raised InsertInsideLeafView
  else
    match insertObject (_reactSubviews (s self)) subview atIndex with
    | None => Raised NSRangeException
    | Some l =>
        let s := update s self (set_reactSubviews l) in
        let r :=
          if negb (isYogaLeafNode (s self))
          then YGNodeInsertChild s self subview (uint32_of atIndex)
          else Ok s in
        match r with
        | Raised f => Raised f
        | Ok s => Ok (update s subview (set_superview (Some self)))
        end
    end.

(** [removeReactSubview:] *)
Definition removeReactSubview (self subview : ref) (s : Store) : Outcome :=
  let s := update s subview (set_superview None) in
  let s := update s self (fun o => set_reactSubviews (removeObject (_reactSubviews o) subview) o) in
  if negb (isYogaLeafNode (s self))
  then Ok (YGNodeRemoveChild s self subview)
  else Ok s.

(** Sequences of tree mutations. *)
Inductive Mutation : Type :=
| Insert (self subview : ref) (atIndex : Z)
| Remove (self subview : ref).

Definition apply (m : Mutation) (s : Store) : Outcome :=
  match m with
  | Insert self subview atIndex => insertReactSubview self subview atIndex s
  | Remove self subview => removeReactSubview self subview s
  end.

Fixpoint run (ms : list Mutation) (s : Store) : Outcome :=
  match ms with
  | [] => Ok s
  | m :: ms' =>
      match apply m s with
      | Raised f => Raised f
      | Ok s' => run ms' s'
      end
  end.

(** The view a mutation is sent to. *)
Definition receiver (m : Mutation) : ref :=
  match m with
  | Insert self _ _ => self
  | Remove self _ => self
  end.

Definition indexFits (m : Mutation) : Prop :=
  match m with
  | Insert _ _ atIndex => atIndex < 2 ^ 32
  | Remove _ _ => True
  end.

(** A store of freshly initialised views ([-init]): no subviews, no
    superview, a new solver node.  [yogaLeaf] tells which views are of a
    class that overrides [isYogaLeafNode]. *)
Definition fresh (yogaLeaf : ref -> bool) : Store :=
  fun r =>
    {| _superview := None; _reactSubviews := [];
       canHaveSubviews := true; isYogaLeafNode := yogaLeaf r;
       yogaChildren := []; yogaOwner := None; hasMeasureFunc := false |}.

(** The solver side of a store is consistent when every solver child
    records its owner and occurs once. *)
Definition solverConsistent (s : Store) : Prop :=
  forall n : ref,
    NoDup (yogaChildren (s n)) /\
    (forall x : ref, x ∈ yogaChildren (s n) -> yogaOwner (s x) = Some n).

(** The mirroring property, for the views whose class takes part in it. *)
Definition mirrors (s : Store) : Prop :=
  forall n : ref, isYogaLeafNode (s n) = false -> yogaChildren (s n) = _reactSubviews (s n).

(** Mirroring demanded of every view, solver leaves included. *)
Definition mirrorsEverywhere (s : Store) : Prop :=
  forall n : ref, yogaChildren (s n) = _reactSubviews (s n).

(** The same store with view 0 of a class whose [isYogaLeafNode] answers YES. *)
Definition freshWithLeaf0 : Store := fresh (fun r => bool_decide (r = 0%nat)).
Definition freshBase : Store := fresh (fun _ => false).

(** A short history: 1 and 2 go under 0, 3 under 1, then 1 moves under 2. *)
Definition history : list Mutation :=
  [Insert 0%nat 1%nat 0; Insert 0%nat 2%nat 0; Insert 1%nat 3%nat 0;
   Remove 0%nat 1%nat; Insert 2%nat 1%nat 0].

End Topology.

(** ** Measuring a view on the side *)

Module Standalone.
Import MetaProps Layout.

(** Solver nodes are handles into the solver's own heap. *)
Definition YGNodeRef := nat.

(** What can be observed of a live solver node. *)
Record YGNodeState : Type := {
  nodeIsDirty : bool;
  nodeHasNewLayout : bool;
  nodeLayout : CGRect
}.

Inductive YGDimensionStyle : Type :=
| MinWidth
| MinHeight
| MaxWidth
| MaxHeight.

(** The solver library, as the method uses it: a heap of nodes, two
    observations ([look]: the state of a live node, [YGNodeGetOwner]) and
    the calls the method makes. *)
Record Yoga : Type := {
  heap : Type;
  look : heap -> YGNodeRef -> option YGNodeState;
  YGNodeGetOwner : heap -> YGNodeRef -> option YGNodeRef;
  YGNodeClone : YGNodeRef -> heap -> YGNodeRef * heap;
  YGNodeNewWithConfig : heap -> YGNodeRef * heap;
  YGNodeInsertChild : YGNodeRef -> YGNodeRef -> Z -> heap -> heap;
  YGNodeRemoveChild : YGNodeRef -> YGNodeRef -> heap -> heap;
  YGNodeStyleSet : YGDimensionStyle -> YGNodeRef -> float -> heap -> heap;
  YGNodeCalculateLayout : YGNodeRef -> float -> float -> YGDirection -> heap -> heap;
  YGNodeLayoutGetWidth : YGNodeRef -> heap -> float;
  YGNodeLayoutGetHeight : YGNodeRef -> heap -> float;
  YGNodeFree : YGNodeRef -> heap -> heap
}.

(** [reaches Y h k r]: following owners from [k] one arrives at [r]. *)
Inductive reaches (Y : Yoga) (h : heap Y) : YGNodeRef -> YGNodeRef -> Prop :=
| reaches_here : forall k, reaches Y h k k
| reaches_up : forall k p r,
    YGNodeGetOwner Y h k = Some p -> reaches Y h p r -> reaches Y h k r.

Definition live (Y : Yoga) (h : heap Y) (k : YGNodeRef) : Prop := look Y h k <> None.

(** Modelled from the spec: the solver library is not among the sources.
    The standalone measurement works by cloning the node's solver state
    into a scratch parent, solving, reading the result and discarding the
    scratch state, without mutating the live binding.  For the library
    calls this says where each call writes: creating or cloning a node
    yields a new node and writes to no other; attaching, detaching and
    styling write to the nodes they are given and, to dirty them, to the
    owners above; solving writes to the root it is given and to the nodes
    that root owns, directly or not, cloning instead of writing wherever
    it meets a node owned by someone else; freeing ends the node it is
    given. *)
Record YogaContract (Y : Yoga) : Prop := {
  clone_writes : forall x h k,
    look Y h (fst (YGNodeClone Y x h)) = None /\
    live Y (snd (YGNodeClone Y x h)) (fst (YGNodeClone Y x h)) /\
    (live Y h k ->
     look Y (snd (YGNodeClone Y x h)) k = look Y h k /\
     YGNodeGetOwner Y (snd (YGNodeClone Y x h)) k = YGNodeGetOwner Y h k);
  new_writes : forall h k,
    look Y h (fst (YGNodeNewWithConfig Y h)) = None /\
    YGNodeGetOwner Y (snd (YGNodeNewWithConfig Y h)) (fst (YGNodeNewWithConfig Y h)) = None /\
    (live Y h k ->
     look Y (snd (YGNodeNewWithConfig Y h)) k = look Y h k /\
     YGNodeGetOwner Y (snd (YGNodeNewWithConfig Y h)) k = YGNodeGetOwner Y h k);
  insert_writes : forall owner child index h k,
    k <> child ->
    YGNodeGetOwner Y (YGNodeInsertChild Y owner child index h) k = YGNodeGetOwner Y h k /\
    (~ reaches Y h owner k -> look Y (YGNodeInsertChild Y owner child index h) k = look Y h k);
  remove_writes : forall owner child h k,
    k <> child ->
    YGNodeGetOwner Y (YGNodeRemoveChild Y owner child h) k = YGNodeGetOwner Y h k /\
    (~ reaches Y h owner k -> look Y (YGNodeRemoveChild Y owner child h) k = look Y h k);
  style_writes : forall which node v h k,
    YGNodeGetOwner Y (YGNodeStyleSet Y which node v h) k = YGNodeGetOwner Y h k /\
    (~ reaches Y h node k -> look Y (YGNodeStyleSet Y which node v h) k = look Y h k);
  calculate_writes : forall root w hh d h k,
    YGNodeGetOwner Y (YGNodeCalculateLayout Y root w hh d h) root = YGNodeGetOwner Y h root /\
    (live Y h k -> ~ reaches Y h k root ->
     look Y (YGNodeCalculateLayout Y root w hh d h) k = look Y h k /\
     YGNodeGetOwner Y (YGNodeCalculateLayout Y root w hh d h) k = YGNodeGetOwner Y h k);
  free_writes : forall node h k,
    k <> node -> look Y (YGNodeFree Y node h) k = look Y h k
}.

(** The part of a shadow view the method reads, and the world the method
    could write to: the views with the metrics they store, the affected
    set of the pass in progress, and the solver's heap. *)
Record ShadowViewState : Type := {
  yogaNode : YGNodeRef;
  layoutMetrics : RCTLayoutMetrics
}.

Record World (Y : Yoga) : Type := {
  views : nat -> ShadowViewState;
  affectedShadowViews : list nat;
  solver : heap Y
}.
Arguments views {Y} w.
Arguments affectedShadowViews {Y} w.
Arguments solver {Y} w.

Section SizeThatFits.
Variable Y : Yoga.
Variable RCTYogaFloatFromCoreGraphicsFloat : CGFloat -> float.
Variable RCTCoreGraphicsFloatFromYogaFloat : float -> CGFloat.
Variable RCTYogaLayoutDirectionFromUIKitLayoutDirection :
  UIUserInterfaceLayoutDirection -> YGDirection.

(** [sizeThatFitsMinimumSize:maximumSize:] *)
Definition sizeThatFitsMinimumSize (self : nat) (minimumSize maximumSize : CGSize)
    (w : World Y) : CGSize * World Y :=
  let h := solver w in
  let '(clonedYogaNode, h) := YGNodeClone Y (yogaNode (views w self)) h in
  let '(constraintYogaNode, h) := YGNodeNewWithConfig Y h in
  let h := YGNodeInsertChild Y constraintYogaNode clonedYogaNode 0 h in
  let h := YGNodeStyleSet Y MinWidth constraintYogaNode
             (RCTYogaFloatFromCoreGraphicsFloat (sz_width minimumSize)) h in
  let h := YGNodeStyleSet Y MinHeight constraintYogaNode
             (RCTYogaFloatFromCoreGraphicsFloat (sz_height minimumSize)) h in
  let h := YGNodeStyleSet Y MaxWidth constraintYogaNode
             (RCTYogaFloatFromCoreGraphicsFloat (sz_width maximumSize)) h in
  let h := YGNodeStyleSet Y MaxHeight constraintYogaNode
             (RCTYogaFloatFromCoreGraphicsFloat (sz_height maximumSize)) h in
  let h := YGNodeCalculateLayout Y constraintYogaNode YGUndefined YGUndefined
             (RCTYogaLayoutDirectionFromUIKitLayoutDirection
                (layoutDirection (layoutMetrics (views w self)))) h in
  let measuredSize :=
    {| sz_width := RCTCoreGraphicsFloatFromYogaFloat (YGNodeLayoutGetWidth Y constraintYogaNode h);
       sz_height :=
         RCTCoreGraphicsFloatFromYogaFloat (YGNodeLayoutGetHeight Y constraintYogaNode h) |} in
  let h := YGNodeRemoveChild Y constraintYogaNode clonedYogaNode h in
  let h := YGNodeFree Y constraintYogaNode h in
  let h := YGNodeFree Y clonedYogaNode h in
  (measuredSize,
   {| views := views w; affectedShadowViews := affectedShadowViews w; solver := h |}).
End SizeThatFits.

(** No live node has an owner that is gone. *)
Definition ownersLive (Y : Yoga) (h : heap Y) : Prop :=
  forall k p, live Y h k -> YGNodeGetOwner Y h k = Some p -> live Y h p.

(** What the committed tree needs of a later heap [h], given the heap
    [h0] at the time of the call. *)
Definition untouched (Y : Yoga) (h0 h : heap Y) : Prop :=
  forall k, live Y h0 k ->
            look Y h k = look Y h0 k /\ YGNodeGetOwner Y h k = YGNodeGetOwner Y h0 k.

(** *** A small solver heap for examples

    Cells are numbered in order of creation; a freed cell stays empty. *)
Record Cell : Type := {
  cellState : YGNodeState;
  cellOwner : option YGNodeRef
}.

Definition newCell : Cell :=
  {| cellState := {| nodeIsDirty := true; nodeHasNewLayout := true; nodeLayout := rect 0 0 0 0 |};
     cellOwner := None |}.

Definition cellAt (h : list (option Cell)) (k : nat) : option Cell :=
  match h !! k with
  | Some c => c
  | None => None
  end.

Definition writeCell (f : Cell -> Cell) (k : nat) (h : list (option Cell))
  : list (option Cell) :=
  alter (fun c => f <$> c) k h.

Definition setDirty (b : bool) (c : Cell) : Cell :=
  {| cellState := {| nodeIsDirty := b; nodeHasNewLayout := nodeHasNewLayout (cellState c);
                     nodeLayout := nodeLayout (cellState c) |};
     cellOwner := cellOwner c |}.
Definition setOwner (o : option YGNodeRef) (c : Cell) : Cell :=
  {| cellState := cellState c; cellOwner := o |}.
Definition setSolved (c : Cell) : Cell :=
  {| cellState := {| nodeIsDirty := false; nodeHasNewLayout := true;
                     nodeLayout := nodeLayout (cellState c) |};
     cellOwner := cellOwner c |}.

Definition cells : Yoga := {|
  heap := list (option Cell);
  look := fun h k => cellState <$> cellAt h k;
  YGNodeGetOwner := fun h k => cellAt h k ≫= cellOwner;
  YGNodeClone := fun x h =>
    (length h, h ++ [Some (setOwner None (default newCell (cellAt h x)))]);
  YGNodeNewWithConfig := fun h => (length h, h ++ [Some newCell]);
  YGNodeInsertChild := fun owner child _ h =>
    writeCell (setOwner (Some owner)) child (writeCell (setDirty true) owner h);
  YGNodeRemoveChild := fun owner child h =>
    writeCell (setOwner None) child (writeCell (setDirty true) owner h);
  YGNodeStyleSet := fun _ node _ h => writeCell (setDirty true) node h;
  YGNodeCalculateLayout := fun root _ _ _ h => writeCell setSolved root h;
  YGNodeLayoutGetWidth := fun node h =>
    match cellAt h node with
    | Some c => Fl (sz_width (rect_size (nodeLayout (cellState c))))
    | None => YGUndefined
    end;
  YGNodeLayoutGetHeight := fun node h =>
    match cellAt h node with
    | Some c => Fl (sz_height (rect_size (nodeLayout (cellState c))))
    | None => YGUndefined
    end;
  YGNodeFree := fun node h => <[node := None]> h
|}.

Definition cgOfFloat (f : float) : CGFloat :=
  match f with
  | Fl z => z
  | YGUndefined => 0
  end.

(** A committed tree of two views: view 0 owns solver node 0, which owns
    solver node 1 of view 1; both are clean and carry no marker. *)
Definition committedCell (r : CGRect) (o : option YGNodeRef) : Cell :=
  {| cellState := {| nodeIsDirty := false; nodeHasNewLayout := false; nodeLayout := r |};
     cellOwner := o |}.

Definition committed : World cells :=
  Build_World cells
    (fun v => {| yogaNode := v; layoutMetrics := flexMetrics (rect 0 0 100 50) |})
    []
    [Some (committedCell (rect 0 0 100 50) None);
     Some (committedCell (rect 10 10 50 20) (Some 0%nat))].

End Standalone.

(** ** More about the traversal *)

Module Traversal.
Import MetaProps Layout.

(** The tags of a view and of everything below it, in pre-order. *)
Fixpoint descendantTags (v : RCTShadowView) : list Z :=
  match v with
  | ShadowView tag _ _ subviews => tag :: flat_map descendantTags subviews
  end.

(** The view and everything below it store the metrics the solver holds. *)
Fixpoint metricsCurrent (v : RCTShadowView) : bool :=
  match v with
  | ShadowView _ m node subviews =>
      bool_decide (m = RCTLayoutMetricsFromYogaNode node) && forallb metricsCurrent subviews
  end.

(** The tree with every has-new-layout marker taken down. *)
Fixpoint clearMarkers (v : RCTShadowView) : RCTShadowView :=
  match v with
  | ShadowView tag m node subviews =>
      ShadowView tag m (YGNodeSetHasNewLayout node false) (map clearMarkers subviews)
  end.

(** The value of the loop's local [layoutContext] after the loop has gone
    over [subviews]: the origin of every subview that carries new layout
    has been added. *)
Definition carried (layoutContext : RCTLayoutContext) (subviews : list RCTShadowView)
  : RCTLayoutContext :=
  fold_left
    (fun ctx c =>
       if YGNodeGetHasNewLayout (yogaNode c)
       then advance ctx (rect_origin (frame (RCTLayoutMetricsFromYogaNode (yogaNode c))))
       else ctx)
    subviews layoutContext.

(** What the loop makes of one subview, when it comes back. *)
Definition consumed (c c' : RCTShadowView) : Prop :=
  if YGNodeGetHasNewLayout (yogaNode c)
  then reactTag c' = reactTag c /\
       layoutMetrics c' = RCTLayoutMetricsFromYogaNode (yogaNode c) /\
       yogaNode c' = YGNodeSetHasNewLayout (yogaNode c) false
  else c' = c.

(** The affected set of [st'] extends that of [st] by members of [tags]. *)
Definition growsWithin (tags : list Z) (st st' : PassState) : Prop :=
  (forall t, t ∈ affectedShadowViews st -> t ∈ affectedShadowViews st') /\
  (forall t, t ∈ affectedShadowViews st' -> t ∈ affectedShadowViews st \/ t ∈ tags).

(** A tree the solver has laid out before, every view storing the
    solver's metrics, with fresh markers on all of them. *)
Definition remarked (tag : Z) (r : CGRect) (subviews : list RCTShadowView) : RCTShadowView :=
  ShadowView tag (flexMetrics r)
    {| isDirty := false; hasNewLayout := true; layout := flexMetrics r;
       minWidth := YGValueUndefined; minHeight := YGValueUndefined |}
    subviews.

Definition remarkedTree : RCTShadowView :=
  laidOutRoot 1 (rect 0 0 320 480)
    [remarked 2 (rect 7 3 30 30) []; remarked 3 (rect 10 10 50 50) [remarked 4 (rect 5 5 20 20) []]].

End Traversal.

(** ** Style properties and their commit *)

Module Props.
Import MetaProps.

(** The solver node as the property setters see it: the three edge
    groups of [YGNodeStyle] and the position edges, each slot holding the
    last setter invoked on it. *)
Record YogaNode : Type := {
  style : YGNodeStyle;
  position : YGEdge -> option Setting
}.

Definition YGNodeStyleSetPosition (node : YogaNode) (edge : YGEdge) (v : float) : YogaNode :=
  {| style := style node; position := set_edge (position node) edge (Points v) |}.
Definition YGNodeStyleSetPositionPercent (node : YogaNode) (edge : YGEdge) (v : float)
  : YogaNode :=
  {| style := style node; position := set_edge (position node) edge (Percent v) |}.

(** The instance variables the setters and [didSetProps:] work on. *)
Record RCTShadowView : Type := {
  _recomputePadding : bool;
  _recomputeMargin : bool;
  _recomputeBorder : bool;
  _paddingMetaProps : MetaPropArray;
  _marginMetaProps : MetaPropArray;
  _borderMetaProps : MetaPropArray;
  _yogaNode : YogaNode
}.

(** [-init]: every entry of the three arrays is [YGValueUndefined], the
    node is new; the flags of a new object are NO. *)
Definition init : RCTShadowView :=
  {| _recomputePadding := false; _recomputeMargin := false; _recomputeBorder := false;
     _paddingMetaProps := fun _ => YGValueUndefined;
     _marginMetaProps := fun _ => YGValueUndefined;
     _borderMetaProps := fun _ => YGValueUndefined;
     _yogaNode := {| style := YGNodeNew; position := fun _ => None |} |}.

(** [metaProps[metaProp] = value] *)
Definition assign (metaProps : MetaPropArray) (metaProp : meta_prop_t) (value : YGValue)
  : MetaPropArray :=
  fun p => if bool_decide (p = metaProp) then value else metaProps p.

(** The setter of [RCT_MARGIN_PROPERTY(prop, metaProp)]. *)
Definition RCT_MARGIN_PROPERTY (metaProp : meta_prop_t) (value : YGValue)
    (self : RCTShadowView) : RCTShadowView :=
  {| _recomputePadding := _recomputePadding self;
     _recomputeMargin := true;
     _recomputeBorder := _recomputeBorder self;
     _paddingMetaProps := _paddingMetaProps self;
     _marginMetaProps := assign (_marginMetaProps self) metaProp value;
     _borderMetaProps := _borderMetaProps self;
     _yogaNode := _yogaNode self |}.

(** The setter of [RCT_PADDING_PROPERTY(prop, metaProp)]. *)
Definition RCT_PADDING_PROPERTY (metaProp : meta_prop_t) (value : YGValue)
    (self : RCTShadowView) : RCTShadowView :=
  {| _recomputePadding := true;
     _recomputeMargin := _recomputeMargin self;
     _recomputeBorder := _recomputeBorder self;
     _paddingMetaProps := assign (_paddingMetaProps self) metaProp value;
     _marginMetaProps := _marginMetaProps self;
     _borderMetaProps := _borderMetaProps self;
     _yogaNode := _yogaNode self |}.

(** The border widths the class declares: [RCT_BORDER_PROPERTY] is
    instantiated for these seven entries, not for HORIZONTAL and VERTICAL. *)
Inductive BorderProperty : Type :=
| BorderWidth
| BorderTopWidth
| BorderLeftWidth
| BorderBottomWidth
| BorderRightWidth
| BorderStartWidth
| BorderEndWidth.

Definition borderMetaProp (prop : BorderProperty) : meta_prop_t :=
  match prop with
  | BorderWidth => META_PROP_ALL
  | BorderTopWidth => META_PROP_TOP
  | BorderLeftWidth => META_PROP_LEFT
  | BorderBottomWidth => META_PROP_BOTTOM
  | BorderRightWidth => META_PROP_RIGHT
  | BorderStartWidth => META_PROP_START
  | BorderEndWidth => META_PROP_END
  end.

(** The setter of [RCT_BORDER_PROPERTY(prop, metaProp)]: the [value]
    member of the entry is assigned. *)
Definition RCT_BORDER_PROPERTY (prop : BorderProperty) (v : float)
    (self : RCTShadowView) : RCTShadowView :=
  {| _recomputePadding := _recomputePadding self;
     _recomputeMargin := _recomputeMargin self;
     _recomputeBorder := true;
     _paddingMetaProps := _paddingMetaProps self;
     _marginMetaProps := _marginMetaProps self;
     _borderMetaProps := setBorderWidth (borderMetaProp prop) v (_borderMetaProps self);
     _yogaNode := _yogaNode self |}.

(** The six position properties: four from [RCT_POSITION_PROPERTY], and
    [setLeft:] and [setRight:], which choose their edge when called. *)
Inductive PositionProperty : Type :=
| PositionTop
| PositionBottom
| PositionStart
| PositionEnd
| PositionLeft
| PositionRight.

Definition withYogaNode (self : RCTShadowView) (node : YogaNode) : RCTShadowView :=
  {| _recomputePadding := _recomputePadding self;
     _recomputeMargin := _recomputeMargin self;
     _recomputeBorder := _recomputeBorder self;
     _paddingMetaProps := _paddingMetaProps self;
     _marginMetaProps := _marginMetaProps self;
     _borderMetaProps := _borderMetaProps self;
     _yogaNode := node |}.

Definition onStyle (f : YGNodeStyle -> YGNodeStyle) (node : YogaNode) : YogaNode :=
  {| style := f (style node); position := position node |}.

Section Commit.
(** [[RCTI18nUtil sharedInstance] doLeftAndRightSwapInRTL] *)
Variable doLeftAndRightSwapInRTL : bool.

Definition positionEdge (prop : PositionProperty) : YGEdge :=
  match prop with
  | PositionTop => YGEdgeTop
  | PositionBottom => YGEdgeBottom
  | PositionStart => YGEdgeStart
  | PositionEnd => YGEdgeEnd
  | PositionLeft => if doLeftAndRightSwapInRTL then YGEdgeStart else YGEdgeLeft
  | PositionRight => if doLeftAndRightSwapInRTL then YGEdgeEnd else YGEdgeRight
  end.

(** The position setters: [RCT_SET_YGVALUE(value, YGNodeStyleSetPosition,
    _yogaNode, edge)]. *)
Definition setPosition (prop : PositionProperty) (value : YGValue)
    (self : RCTShadowView) : RCTShadowView :=
  withYogaNode self
    (RCT_SET_YGVALUE value YGNodeStyleSetPosition YGNodeStyleSetPositionPercent
       (_yogaNode self) (positionEdge prop)).

(** [didSetProps:] *)
Definition didSetProps (self : RCTShadowView) : RCTShadowView :=
  let node := _yogaNode self in
  let node :=
    if _recomputePadding self
    then onStyle (RCTProcessMetaPropsPadding doLeftAndRightSwapInRTL (_paddingMetaProps self)) node
    else node in
  let node :=
    if _recomputeMargin self
    then onStyle (RCTProcessMetaPropsMargin doLeftAndRightSwapInRTL (_marginMetaProps self)) node
    else node in
  let node :=
    if _recomputeBorder self
    then onStyle (RCTProcessMetaPropsBorder doLeftAndRightSwapInRTL (_borderMetaProps self)) node
    else node in
  {| _recomputePadding := false;
     _recomputeMargin := false;
     _recomputeBorder := false;
     _paddingMetaProps := _paddingMetaProps self;
     _marginMetaProps := _marginMetaProps self;
     _borderMetaProps := _borderMetaProps self;
     _yogaNode := node |}.

(** The messages a client sends while it updates a view's props. *)
Inductive Message : Type :=
| SetMargin (metaProp : meta_prop_t) (value : YGValue)
| SetPadding (metaProp : meta_prop_t) (value : YGValue)
| SetBorderWidth (prop : BorderProperty) (v : float)
| SetPosition (prop : PositionProperty) (value : YGValue)
| DidSetProps.

Definition send (self : RCTShadowView) (m : Message) : RCTShadowView :=
  match m with
  | SetMargin metaProp value => RCT_MARGIN_PROPERTY metaProp value self
  | SetPadding metaProp value => RCT_PADDING_PROPERTY metaProp value self
  | SetBorderWidth prop v => RCT_BORDER_PROPERTY prop v self
  | SetPosition prop value => setPosition prop value self
  | DidSetProps => didSetProps self
  end.

Definition sendAll (ms : list Message) (self : RCTShadowView) : RCTShadowView :=
  fold_left send ms self.
End Commit.

Definition isDidSetProps (m : Message) : bool :=
  match m with DidSetProps => true | _ => false end.

(** The same messages with every [didSetProps:] left out. *)
Definition writesOnly (ms : list Message) : list Message :=
  List.filter (fun m => negb (isDidSetProps m)) ms.

(** The three edge groups that are resolved from meta-properties. *)
Inductive Group : Type :=
| Padding
| Margin
| Border.

#[global] Instance Group_eq_dec : EqDecision Group.
Proof. solve_decision. Defined.

Definition recompute (g : Group) (self : RCTShadowView) : bool :=
  match g with
  | Padding => _recomputePadding self
  | Margin => _recomputeMargin self
  | Border => _recomputeBorder self
  end.

Definition metaProps (g : Group) (self : RCTShadowView) : MetaPropArray :=
  match g with
  | Padding => _paddingMetaProps self
  | Margin => _marginMetaProps self
  | Border => _borderMetaProps self
  end.

Definition slots (g : Group) (node : YGNodeStyle) : YGEdge -> option Setting :=
  match g with
  | Padding => padding node
  | Margin => margin node
  | Border => border node
  end.

Definition process (g : Group) (doLeftAndRightSwapInRTL : bool)
  : MetaPropArray -> YGNodeStyle -> YGNodeStyle :=
  match g with
  | Padding => RCTProcessMetaPropsPadding doLeftAndRightSwapInRTL
  | Margin => RCTProcessMetaPropsMargin doLeftAndRightSwapInRTL
  | Border => RCTProcessMetaPropsBorder doLeftAndRightSwapInRTL
  end.

(** Two views that no getter and no solver slot tells apart. *)
Definition sameState (s t : RCTShadowView) : Prop :=
  (forall g : Group, recompute g s = recompute g t) /\
  (forall (g : Group) (p : meta_prop_t), metaProps g s p = metaProps g t p) /\
  (forall (g : Group) (e : YGEdge),
      slots g (style (_yogaNode s)) e = slots g (style (_yogaNode t)) e) /\
  (forall e : YGEdge, position (_yogaNode s) e = position (_yogaNode t) e).

(** The entry an edge has its name from. *)
Definition entryFor (edge : YGEdge) : meta_prop_t :=
  match edge with
  | YGEdgeLeft => META_PROP_LEFT
  | YGEdgeTop => META_PROP_TOP
  | YGEdgeRight => META_PROP_RIGHT
  | YGEdgeBottom => META_PROP_BOTTOM
  | YGEdgeStart => META_PROP_START
  | YGEdgeEnd => META_PROP_END
  | YGEdgeHorizontal => META_PROP_HORIZONTAL
  | YGEdgeVertical => META_PROP_VERTICAL
  | YGEdgeAll => META_PROP_ALL
  end.

(** The physical edges. *)
Definition physical (edge : YGEdge) : bool :=
  match edge with
  | YGEdgeLeft | YGEdgeRight => true
  | _ => false
  end.

(** What resolution hands to an edge, [None] where it leaves the edge
    alone: [pick] chooses between the logical and the physical entry. *)
Definition resolved {A : Type} (pick : YGValue -> YGValue -> A) (here : YGValue -> A)
    (doLeftAndRightSwapInRTL : bool) (metaProps : MetaPropArray) (edge : YGEdge) : option A :=
  match edge with
  | YGEdgeStart =>
      Some (if doLeftAndRightSwapInRTL
            then pick (metaProps META_PROP_START) (metaProps META_PROP_LEFT)
            else here (metaProps META_PROP_START))
  | YGEdgeEnd =>
      Some (if doLeftAndRightSwapInRTL
            then pick (metaProps META_PROP_END) (metaProps META_PROP_RIGHT)
            else here (metaProps META_PROP_END))
  | YGEdgeLeft | YGEdgeRight =>
      if doLeftAndRightSwapInRTL then None else Some (here (metaProps (entryFor edge)))
  | _ => Some (here (metaProps (entryFor edge)))
  end.

Definition byUnit (logical physical : YGValue) : YGValue := logicalOrPhysical logical physical.
Definition byValue (logical physical : YGValue) : float :=
  if YGFloatIsUndefined (value logical) then value physical else value logical.

Definition written (g : Group) (doLeftAndRightSwapInRTL : bool) (metaProps : MetaPropArray)
    (edge : YGEdge) : option Setting :=
  match g with
  | Padding =>
      option_map paddingSetting
        (resolved byUnit (fun v => v) doLeftAndRightSwapInRTL metaProps edge)
  | Margin =>
      option_map marginSetting
        (resolved byUnit (fun v => v) doLeftAndRightSwapInRTL metaProps edge)
  | Border =>
      option_map Points (resolved byValue value doLeftAndRightSwapInRTL metaProps edge)
  end.

Definition orKeep (w : option Setting) (kept : option Setting) : option Setting :=
  match w with
  | Some s => Some s
  | None => kept
  end.

(** The group a message writes an entry of. *)
Definition touches (m : Message) (g : Group) : bool :=
  match m, g with
  | SetPadding _ _, Padding | SetMargin _ _, Margin | SetBorderWidth _ _, Border => true
  | _, _ => false
  end.

(** Group [g] of the solver node shows what the current entries of the
    group resolve to. *)
Definition inSync (doLeftAndRightSwapInRTL : bool) (g : Group) (s : RCTShadowView) : Prop :=
  forall e : YGEdge,
    slots g (style (_yogaNode s)) e =
      slots g (process g doLeftAndRightSwapInRTL (metaProps g s) YGNodeNew) e.

(** Group [g] was never written: no entry set, no slot handed over. *)
Definition neverSet (g : Group) (s : RCTShadowView) : Prop :=
  (forall e : YGEdge, slots g (style (_yogaNode s)) e = None) /\
  (forall p : meta_prop_t, metaProps g s p = YGValueUndefined).

(** A client's update: left padding 4, start margin auto, left border 2,
    left position 10, committed, then start padding 6 without a commit. *)
Definition update : list Message :=
  [SetPadding META_PROP_LEFT (points 4); SetMargin META_PROP_START YGValueAuto;
   SetBorderWidth BorderLeftWidth (Fl 2); SetPosition PositionLeft (points 10);
   DidSetProps; SetPadding META_PROP_START (points 6)].

End Props.

(** ** The intrinsic content size *)

Module Intrinsic.
Import SpecFloat Measure.

(** [CGSizeEqualToSize]: both dimensions compare equal as doubles do, so
    a dimension that is not a number equals nothing, itself included. *)
Definition CGSizeEqualToSize (a b : CGSize) : bool :=
  SFeqb (cg_width a) (cg_width b) && SFeqb (cg_height a) (cg_height b).

(** What [setIntrinsicContentSize:] asks of the solver node, in the order
    of the calls. *)
Inductive YogaCall : Type :=
| YGNodeSetMeasureFunc (measureFunc : bool)   (* [RCTShadowViewMeasure] (true) or [NULL] *)
| YGNodeMarkDirty.

Record RCTShadowView : Type := {
  _intrinsicContentSize : CGSize;
  yogaCalls : list YogaCall
}.

(** [CGSizeMake(UIViewNoIntrinsicMetric, UIViewNoIntrinsicMetric)] *)
Definition noIntrinsicSize : CGSize :=
  {| cg_width := UIViewNoIntrinsicMetric; cg_height := UIViewNoIntrinsicMetric |}.

(** [-init] gives the view no intrinsic size and its node no measure
    function. *)
Definition init : RCTShadowView :=
  {| _intrinsicContentSize := noIntrinsicSize; yogaCalls := [] |}.

(** [setIntrinsicContentSize:] *)
Definition setIntrinsicContentSize (intrinsicContentSize : CGSize) (self : RCTShadowView)
  : RCTShadowView :=
  if CGSizeEqualToSize (_intrinsicContentSize self) intrinsicContentSize then self
  else
    let calls :=
      if CGSizeEqualToSize intrinsicContentSize noIntrinsicSize
      then yogaCalls self ++ [YGNodeSetMeasureFunc false]
      else yogaCalls self ++ [YGNodeSetMeasureFunc true] in
    {| _intrinsicContentSize := intrinsicContentSize;
       yogaCalls := calls ++ [YGNodeMarkDirty] |}.

(** The measure function a node has after the given calls, none to
    begin with. *)
Definition measureFunc (calls : list YogaCall) : bool :=
  fold_left (fun f c => match c with YGNodeSetMeasureFunc b => b | YGNodeMarkDirty => f end)
    calls false.

Definition setAll (sizes : list CGSize) (self : RCTShadowView) : RCTShadowView :=
  fold_left (fun s size => setIntrinsicContentSize size s) sizes self.

(** The pair of calls that one change of the size makes. *)
Definition change (installed : bool) : list YogaCall :=
  [YGNodeSetMeasureFunc installed; YGNodeMarkDirty].

(** The sizes of a sequence that do not compare equal to the size the
    view holds when they arrive, [current] being held at the start. *)
Fixpoint taken (current : CGSize) (sizes : list CGSize) : list CGSize :=
  match sizes with
  | [] => []
  | size :: sizes' =>
      if CGSizeEqualToSize current size then taken current sizes'
      else size :: taken size sizes'
  end.

End Intrinsic.

(** ** Ancestors *)

Module Ancestry.
Import Topology.

(** [offset.x += origin.x; offset.y += origin.y] *)
Definition moved (offset origin : CGPoint) : CGPoint :=
  {| pt_x := pt_x offset + pt_x origin; pt_y := pt_y offset + pt_y origin |}.

Section Chain.
(** [shadowView->_superview] and [shadowView.layoutMetrics.frame] *)
Variable superviewOf : ref -> option ref.
Variable frameOf : ref -> CGRect.

(** The loop of [viewIsDescendantOf:], [while (shadowView && shadowView !=
    ancestor)], run for at most [fuel] iterations; the answer is the view
    at which it stops, [None] being [nil]. *)
Fixpoint climb (fuel : nat) (shadowView ancestor : option ref) : option (option ref) :=
  match shadowView with
  | None => Some None
  | Some v =>
      if bool_decide (shadowView = ancestor) then Some shadowView
      else
        match fuel with
        | O => None
        | S fuel' => climb fuel' (superviewOf v) ancestor
        end
  end.

(** [viewIsDescendantOf:] *)
Definition viewIsDescendantOf (fuel : nat) (self : ref) (ancestor : option ref)
  : option bool :=
  match climb fuel (Some self) ancestor with
  | Some shadowView => Some (bool_decide (ancestor = shadowView))
  | None => None
  end.

(** The loop of [measureLayoutRelativeToAncestor:], which also sums the
    origins of the views it leaves. *)
Fixpoint climbWithOffset (fuel : nat) (shadowView ancestor : option ref) (offset : CGPoint)
  : option (option ref * CGPoint) :=
  match shadowView with
  | None => Some (None, offset)
  | Some v =>
      if bool_decide (shadowView = ancestor) then Some (shadowView, offset)
      else
        match fuel with
        | O => None
        | S fuel' =>
            climbWithOffset fuel' (superviewOf v) ancestor
              (moved offset (rect_origin (frameOf v)))
        end
  end.

(** [measureLayoutRelativeToAncestor:]; the inner [None] is [CGRectNull]. *)
Definition measureLayoutRelativeToAncestor (fuel : nat) (self : ref) (ancestor : option ref)
  : option (option CGRect) :=
  match climbWithOffset fuel (Some self) ancestor CGPointZero with
  | Some (shadowView, offset) =>
      if negb (bool_decide (ancestor = shadowView)) then Some None
      else Some (Some {| rect_origin := offset; rect_size := rect_size (frameOf self) |})
  | None => None
  end.

(** The view [n] superview links above, [None] past the top. *)
Fixpoint up (n : nat) (shadowView : option ref) : option ref :=
  match n, shadowView with
  | O, _ => shadowView
  | S _, None => None
  | S n', Some v => up n' (superviewOf v)
  end.

(** [ancestor] is none of the first [n] views of the chain. *)
Definition absentFrom (n : nat) (shadowView ancestor : option ref) : bool :=
  forallb (fun k => negb (bool_decide (up k shadowView = ancestor))) (seq 0 n).
End Chain.

(** The superview links of a store. *)
Definition superviews (s : Store) : ref -> option ref := fun r => _superview (s r).

(** Three views in a row with their frames: 3 inside 2 inside 1. *)
Definition nested : ref -> option ref :=
  fun r => match r with 3%nat => Some 2%nat | 2%nat => Some 1%nat | _ => None end.
Definition frames : ref -> CGRect :=
  fun r =>
    match r with
    | 3%nat => Layout.rect 5 6 20 10
    | 2%nat => Layout.rect 10 20 50 40
    | _ => Layout.rect 100 200 300 400
    end.

End Ancestry.

(** * Properties *)

(** ** Meta-property resolution *)

Module MetaPropsFacts.
Import MetaProps.

Lemma padding_setPadding v e n e' :
  padding (setPadding v e n) e' =
    if decide (e' = e) then Some (paddingSetting v) else padding n e'.
Proof.
  unfold setPadding, RCT_SET_YGVALUE, paddingSetting.
  destruct (unit v); reflexivity.
Qed.

Lemma margin_setMargin v e n e' :
  margin (setMargin v e n) e' =
    if decide (e' = e) then Some (marginSetting v) else margin n e'.
Proof.
  unfold setMargin, RCT_SET_YGVALUE_AUTO, marginSetting.
  destruct (unit v); reflexivity.
Qed.

Lemma border_setBorder v e n e' :
  border (YGNodeStyleSetBorder n e v) e' =
    if decide (e' = e) then Some (Points v) else border n e'.
Proof. reflexivity. Qed.

(** Each group is written by its own function only. *)
Lemma setPadding_others v e n :
  margin (setPadding v e n) = margin n /\ border (setPadding v e n) = border n.
Proof. unfold setPadding, RCT_SET_YGVALUE. destruct (unit v); split; reflexivity. Qed.

Lemma setMargin_others v e n :
  padding (setMargin v e n) = padding n /\ border (setMargin v e n) = border n.
Proof. unfold setMargin, RCT_SET_YGVALUE_AUTO. destruct (unit v); split; reflexivity. Qed.

Lemma padding_leaves_others m mp n :
  margin (RCTProcessMetaPropsPadding m mp n) = margin n /\
  border (RCTProcessMetaPropsPadding m mp n) = border n.
Proof.
  unfold RCTProcessMetaPropsPadding.
  destruct m; cbn [negb]; cbv zeta;
    repeat (rewrite (proj1 (setPadding_others _ _ _)));
    repeat (rewrite (proj2 (setPadding_others _ _ _))); split; reflexivity.
Qed.

Lemma margin_leaves_others m mp n :
  padding (RCTProcessMetaPropsMargin m mp n) = padding n /\
  border (RCTProcessMetaPropsMargin m mp n) = border n.
Proof.
  unfold RCTProcessMetaPropsMargin.
  destruct m; cbn [negb]; cbv zeta;
    repeat (rewrite (proj1 (setMargin_others _ _ _)));
    repeat (rewrite (proj2 (setMargin_others _ _ _))); split; reflexivity.
Qed.

Lemma border_leaves_others m mp n :
  padding (RCTProcessMetaPropsBorder m mp n) = padding n /\
  margin (RCTProcessMetaPropsBorder m mp n) = margin n.
Proof. destruct m; split; reflexivity. Qed.

(** What border resolution does under mirroring: same precedence, with
    the test on the float value. *)
Lemma border_mirrored mp n :
  border (RCTProcessMetaPropsBorder true mp n) YGEdgeStart =
    Some (Points (if YGFloatIsUndefined (value (mp META_PROP_START))
                  then value (mp META_PROP_LEFT) else value (mp META_PROP_START))) /\
  border (RCTProcessMetaPropsBorder true mp n) YGEdgeEnd =
    Some (Points (if YGFloatIsUndefined (value (mp META_PROP_END))
                  then value (mp META_PROP_RIGHT) else value (mp META_PROP_END))).
Proof. split; reflexivity. Qed.

Lemma margin_padding_mirrored mp n :
  padding (RCTProcessMetaPropsPadding true mp n) YGEdgeStart
    = Some (paddingSetting (logicalOrPhysical (mp META_PROP_START) (mp META_PROP_LEFT))) /\
  padding (RCTProcessMetaPropsPadding true mp n) YGEdgeEnd
    = Some (paddingSetting (logicalOrPhysical (mp META_PROP_END) (mp META_PROP_RIGHT))) /\
  margin (RCTProcessMetaPropsMargin true mp n) YGEdgeStart
    = Some (marginSetting (logicalOrPhysical (mp META_PROP_START) (mp META_PROP_LEFT))) /\
  margin (RCTProcessMetaPropsMargin true mp n) YGEdgeEnd
    = Some (marginSetting (logicalOrPhysical (mp META_PROP_END) (mp META_PROP_RIGHT))).
Proof.
  unfold RCTProcessMetaPropsPadding, RCTProcessMetaPropsMargin, logicalOrPhysical.
  cbn [negb]. cbv zeta.
  rewrite !padding_setPadding, !margin_setMargin.
  repeat split; reflexivity.
Qed.

Lemma logicalOrPhysical_unset logical physical :
  unit logical = YGUnitUndefined -> logicalOrPhysical logical physical = physical.
Proof.
  intros H. unfold logicalOrPhysical, unit_is_undefined.
  rewrite bool_decide_eq_true_2 by exact H. reflexivity.
Qed.

Lemma logicalOrPhysical_set logical physical :
  unit logical <> YGUnitUndefined -> logicalOrPhysical logical physical = logical.
Proof.
  intros H. unfold logicalOrPhysical, unit_is_undefined.
  rewrite bool_decide_eq_false_2 by exact H. reflexivity.
Qed.

(** C2.  Margin and padding: with mirroring disabled the start and end
    entries go straight to the solver's start and end edges (and left and
    right to the left and right edges), whatever the other entries are;
    with mirroring enabled the start edge receives the left entry when
    the unit of the start entry is [YGUnitUndefined] and the start entry
    when its unit is anything else, and the end edge receives the right
    entry when the unit of the end entry is [YGUnitUndefined] and the end
    entry otherwise. *)
Theorem C2_start_end_resolution (metaProps : MetaPropArray) (node : YGNodeStyle) :
  (padding (RCTProcessMetaPropsPadding false metaProps node) YGEdgeStart
     = Some (paddingSetting (metaProps META_PROP_START)) /\
   padding (RCTProcessMetaPropsPadding false metaProps node) YGEdgeEnd
     = Some (paddingSetting (metaProps META_PROP_END)) /\
   padding (RCTProcessMetaPropsPadding false metaProps node) YGEdgeLeft
     = Some (paddingSetting (metaProps META_PROP_LEFT)) /\
   padding (RCTProcessMetaPropsPadding false metaProps node) YGEdgeRight
     = Some (paddingSetting (metaProps META_PROP_RIGHT)) /\
   margin (RCTProcessMetaPropsMargin false metaProps node) YGEdgeStart
     = Some (marginSetting (metaProps META_PROP_START)) /\
   margin (RCTProcessMetaPropsMargin false metaProps node) YGEdgeEnd
     = Some (marginSetting (metaProps META_PROP_END)) /\
   margin (RCTProcessMetaPropsMargin false metaProps node) YGEdgeLeft
     = Some (marginSetting (metaProps META_PROP_LEFT)) /\
   margin (RCTProcessMetaPropsMargin false metaProps node) YGEdgeRight
     = Some (marginSetting (metaProps META_PROP_RIGHT)))
  /\
  ((unit (metaProps META_PROP_START) = YGUnitUndefined ->
    padding (RCTProcessMetaPropsPadding true metaProps node) YGEdgeStart
      = Some (paddingSetting (metaProps META_PROP_LEFT)) /\
    margin (RCTProcessMetaPropsMargin true metaProps node) YGEdgeStart
      = Some (marginSetting (metaProps META_PROP_LEFT))) /\
   (unit (metaProps META_PROP_START) <> YGUnitUndefined ->
    padding (RCTProcessMetaPropsPadding true metaProps node) YGEdgeStart
      = Some (paddingSetting (metaProps META_PROP_START)) /\
    margin (RCTProcessMetaPropsMargin true metaProps node) YGEdgeStart
      = Some (marginSetting (metaProps META_PROP_START))) /\
   (unit (metaProps META_PROP_END) = YGUnitUndefined ->
    padding (RCTProcessMetaPropsPadding true metaProps node) YGEdgeEnd
      = Some (paddingSetting (metaProps META_PROP_RIGHT)) /\
    margin (RCTProcessMetaPropsMargin true metaProps node) YGEdgeEnd
      = Some (marginSetting (metaProps META_PROP_RIGHT))) /\
   (unit (metaProps META_PROP_END) <> YGUnitUndefined ->
    padding (RCTProcessMetaPropsPadding true metaProps node) YGEdgeEnd
      = Some (paddingSetting (metaProps META_PROP_END)) /\
    margin (RCTProcessMetaPropsMargin true metaProps node) YGEdgeEnd
      = Some (marginSetting (metaProps META_PROP_END)))).
Proof.
  split.
  - unfold RCTProcessMetaPropsPadding, RCTProcessMetaPropsMargin.
    cbn [negb]. cbv zeta.
    rewrite !padding_setPadding, !margin_setMargin.
    repeat split; reflexivity.
  - destruct (margin_padding_mirrored metaProps node) as (Hp1 & Hp2 & Hm1 & Hm2).
    rewrite Hp1, Hp2, Hm1, Hm2.
    split; [| split; [| split]]; intros H;
      rewrite ?(logicalOrPhysical_unset _ _ H), ?(logicalOrPhysical_set _ _ H);
      split; reflexivity.
Qed.

(** On one and the same state the margin code and the border code
    select different entries.  Where the start entry has a value under an
    undefined unit, the margin code falls back to the left entry and the
    border code applies the start value; where the start entry has a unit
    and an undefined value, the margin code passes the start entry on and
    the border code falls back to the left value. *)
Lemma C3_tests_disagree :
  (margin (RCTProcessMetaPropsMargin true startValueOnly YGNodeNew) YGEdgeStart
     = Some (Points (Fl 2)) /\
   border (RCTProcessMetaPropsBorder true startValueOnly YGNodeNew) YGEdgeStart
     = Some (Points (Fl 5))) /\
  (margin (RCTProcessMetaPropsMargin true startUnitOnly YGNodeNew) YGEdgeStart
     = Some (Points YGUndefined) /\
   border (RCTProcessMetaPropsBorder true startUnitOnly YGNodeNew) YGEdgeStart
     = Some (Points (Fl 2))) /\
  ~ sameSelection.
Proof.
  split; [split; reflexivity | split; [split; reflexivity |]].
  intros H. destruct (H startValueOnly YGNodeNew) as [(selected & Hsel & Hm & Hb) _].
  destruct Hsel as [-> | ->]; vm_compute in Hm, Hb; discriminate.
Qed.

(** C3 (as amended).  Under mirroring the three groups apply the same
    precedence, the logical entry first and the physical entry as the
    fallback, each group writing its own edges only; the test for an
    unset logical entry is not the same.  Margin and padding fall back to
    the left (right) entry exactly when the unit of the start (end) entry
    is undefined, whatever its value; border falls back to the left
    (right) value exactly when the float value of the start (end) entry
    is undefined, whatever its unit. *)
Theorem C3_same_precedence (metaProps : MetaPropArray) (node : YGNodeStyle) :
  ((unit (metaProps META_PROP_START) = YGUnitUndefined ->
    margin (RCTProcessMetaPropsMargin true metaProps node) YGEdgeStart
      = Some (marginSetting (metaProps META_PROP_LEFT)) /\
    padding (RCTProcessMetaPropsPadding true metaProps node) YGEdgeStart
      = Some (paddingSetting (metaProps META_PROP_LEFT))) /\
   (unit (metaProps META_PROP_START) <> YGUnitUndefined ->
    margin (RCTProcessMetaPropsMargin true metaProps node) YGEdgeStart
      = Some (marginSetting (metaProps META_PROP_START)) /\
    padding (RCTProcessMetaPropsPadding true metaProps node) YGEdgeStart
      = Some (paddingSetting (metaProps META_PROP_START))) /\
   (unit (metaProps META_PROP_END) = YGUnitUndefined ->
    margin (RCTProcessMetaPropsMargin true metaProps node) YGEdgeEnd
      = Some (marginSetting (metaProps META_PROP_RIGHT)) /\
    padding (RCTProcessMetaPropsPadding true metaProps node) YGEdgeEnd
      = Some (paddingSetting (metaProps META_PROP_RIGHT))) /\
   (unit (metaProps META_PROP_END) <> YGUnitUndefined ->
    margin (RCTProcessMetaPropsMargin true metaProps node) YGEdgeEnd
      = Some (marginSetting (metaProps META_PROP_END)) /\
    padding (RCTProcessMetaPropsPadding true metaProps node) YGEdgeEnd
      = Some (paddingSetting (metaProps META_PROP_END)))) /\
  ((value (metaProps META_PROP_START) = YGUndefined ->
    border (RCTProcessMetaPropsBorder true metaProps node) YGEdgeStart
      = Some (Points (value (metaProps META_PROP_LEFT)))) /\
   (value (metaProps META_PROP_START) <> YGUndefined ->
    border (RCTProcessMetaPropsBorder true metaProps node) YGEdgeStart
      = Some (Points (value (metaProps META_PROP_START)))) /\
   (value (metaProps META_PROP_END) = YGUndefined ->
    border (RCTProcessMetaPropsBorder true metaProps node) YGEdgeEnd
      = Some (Points (value (metaProps META_PROP_RIGHT)))) /\
   (value (metaProps META_PROP_END) <> YGUndefined ->
    border (RCTProcessMetaPropsBorder true metaProps node) YGEdgeEnd
      = Some (Points (value (metaProps META_PROP_END))))) /\
  (padding (RCTProcessMetaPropsMargin true metaProps node) = padding node /\
   border (RCTProcessMetaPropsMargin true metaProps node) = border node /\
   margin (RCTProcessMetaPropsPadding true metaProps node) = margin node /\
   border (RCTProcessMetaPropsPadding true metaProps node) = border node /\
   padding (RCTProcessMetaPropsBorder true metaProps node) = padding node /\
   margin (RCTProcessMetaPropsBorder true metaProps node) = margin node).
Proof.
  destruct (margin_padding_mirrored metaProps node) as (Hp1 & Hp2 & Hm1 & Hm2).
  destruct (border_mirrored metaProps node) as [Hb1 Hb2].
  destruct (margin_leaves_others true metaProps node) as [Hi1 Hi2].
  destruct (padding_leaves_others true metaProps node) as [Hi3 Hi4].
  destruct (border_leaves_others true metaProps node) as [Hi5 Hi6].
  split; [| split].
  - rewrite Hp1, Hp2, Hm1, Hm2.
    split; [| split; [| split]]; intros H;
      rewrite ?(logicalOrPhysical_unset _ _ H), ?(logicalOrPhysical_set _ _ H);
      split; reflexivity.
  - rewrite Hb1, Hb2.
    split; [| split; [| split]]; intros H.
    + rewrite H. reflexivity.
    + destruct (value (metaProps META_PROP_START)); [contradiction | reflexivity].
    + rewrite H. reflexivity.
    + destruct (value (metaProps META_PROP_END)); [contradiction | reflexivity].
  - repeat split; assumption.
Qed.

End MetaPropsFacts.

(** ** The measure callback *)

Module MeasureFacts.
Import SpecFloat Measure.

(** *** Conversions between the two formats *)

Lemma iter_pos_nat {A : Type} (f : A -> A) (k : positive) :
  forall x, iter_pos f k x = Nat.iter (Pos.to_nat k) f x.
Proof.
  induction k as [k IH | k IH |]; intros x; cbn [iter_pos].
  - rewrite !IH, Pos2Nat.inj_xI. rewrite <- Nat.iter_add, <- Nat.iter_succ_r.
    f_equal. lia.
  - rewrite !IH, Pos2Nat.inj_xO. rewrite <- Nat.iter_add. f_equal. lia.
  - reflexivity.
Qed.

Lemma Pos_iter_nat {A : Type} (f : A -> A) (k : positive) (x : A) :
  Pos.iter f x k = Nat.iter (Pos.to_nat k) f x.
Proof. apply Pos2Nat.inj_iter. Qed.

Lemma shr_shl n : forall m,
  Nat.iter n shr_1 {| shr_m := Zpos (Nat.iter n xO m); shr_r := false; shr_s := false |}
  = {| shr_m := Zpos m; shr_r := false; shr_s := false |}.
Proof.
  induction n as [|n IH]; intros m; [reflexivity |].
  rewrite Nat.iter_succ_r. cbn [Nat.iter nat_rect shr_1 orb]. 
  change (nat_rect (fun _ => positive) m (fun _ => xO) n) with (Nat.iter n xO m).
  apply IH.
Qed.

Lemma digits_shl n : forall m,
  Zpos (digits2_pos (Nat.iter n xO m)) = Zpos (digits2_pos m) + Z.of_nat n.
Proof.
  induction n as [|n IH]; intros m; [cbn; lia |].
  cbn [Nat.iter nat_rect digits2_pos].
  change (nat_rect (fun _ => positive) m (fun _ => xO) n) with (Nat.iter n xO m).
  rewrite Pos2Z.inj_succ, IH. lia.
Qed.

Section Format.
Variable prec emax : Z.

Lemma shr_fexp_exact m e :
  fexp prec emax (Zpos (digits2_pos m) + e) = e ->
  shr_fexp prec emax (Zpos m) e loc_Exact
  = ({| shr_m := Zpos m; shr_r := false; shr_s := false |}, e).
Proof.
  intros H. unfold shr_fexp. cbn [Zdigits2 shr_record_of_loc].
  rewrite H, Z.sub_diag. reflexivity.
Qed.

Lemma shr_fexp_shift m e k :
  (0 < k)%nat ->
  fexp prec emax (Zpos (digits2_pos (Nat.iter k xO m)) + e) = e + Z.of_nat k ->
  shr_fexp prec emax (Zpos (Nat.iter k xO m)) e loc_Exact
  = ({| shr_m := Zpos m; shr_r := false; shr_s := false |}, e + Z.of_nat k).
Proof.
  intros Hk H. unfold shr_fexp. cbn [Zdigits2 shr_record_of_loc].
  rewrite H. replace (e + Z.of_nat k - e) with (Zpos (Pos.of_nat k)) by lia.
  unfold shr. rewrite iter_pos_nat, Nat2Pos.id by lia. rewrite shr_shl.
  f_equal. lia.
Qed.

Lemma binary_round_aux_canonical s m e :
  fexp prec emax (Zpos (digits2_pos m) + e) = e -> e <= emax - prec ->
  binary_round_aux prec emax s (Zpos m) e loc_Exact = S754_finite s m e.
Proof.
  intros H Hle. unfold binary_round_aux. rewrite (shr_fexp_exact m e H).
  cbn [shr_m loc_of_shr_record round_nearest_even].
  rewrite (shr_fexp_exact m e H). cbn [shr_m].
  rewrite (proj2 (Z.leb_le _ _) Hle). reflexivity.
Qed.

Lemma binary_round_aux_shift s m e k :
  (0 < k)%nat ->
  fexp prec emax (Zpos (digits2_pos m) + (e + Z.of_nat k)) = e + Z.of_nat k ->
  e + Z.of_nat k <= emax - prec ->
  binary_round_aux prec emax s (Zpos (Nat.iter k xO m)) e loc_Exact
  = S754_finite s m (e + Z.of_nat k).
Proof.
  intros Hk H Hle. unfold binary_round_aux.
  rewrite (shr_fexp_shift m e k Hk).
  - cbn [shr_m loc_of_shr_record round_nearest_even].
    rewrite (shr_fexp_exact m _ H). cbn [shr_m].
    rewrite (proj2 (Z.leb_le _ _) Hle). reflexivity.
  - rewrite digits_shl. rewrite <- H. f_equal. lia.
Qed.
End Format.

Lemma widen_finite s m e :
  bounded 24 128 m e = true ->
  exists k : nat,
    (0 < k)%nat /\
    binary_round 53 1024 s m e = S754_finite s (Nat.iter k xO m) (e - Z.of_nat k).
Proof.
  unfold bounded, canonical_mantissa. intros H.
  apply andb_true_iff in H as [Hc Hb]. apply Z.eqb_eq in Hc. apply Z.leb_le in Hb.
  set (d := Zpos (digits2_pos m)) in *.
  assert (Hd : 0 < d) by (subst d; lia).
  set (e' := fexp 53 1024 (d + e)).
  assert (He' : e' < e /\ e' = Z.max (d + e - 53) (-1074)).
  { subst e'. unfold fexp, emin in *. lia. }
  exists (Z.to_nat (e - e')). split; [lia |].
  unfold binary_round, shl_align. fold d. fold e'.
  destruct (e' - e) as [|p|p] eqn:Ep; try lia.
  rewrite Pos_iter_nat.
  replace (Pos.to_nat p) with (Z.to_nat (e - e')) by lia.
  set (k := Z.to_nat (e - e')).
  replace e' with (e - Z.of_nat k) at 1 by lia.
  rewrite binary_round_aux_canonical.
  - reflexivity.
  - rewrite digits_shl. fold d. unfold fexp, emin in *. lia.
  - unfold fexp, emin in *. lia.
Qed.

(** A float that is promoted to double and converted back is the float it
    was. *)
Lemma float_of_double_of_float (x : binary32) :
  valid_binary 24 128 x = true -> float_of_double (double_of_float x) = x.
Proof.
  destruct x as [s | s | | s m e]; try reflexivity.
  cbn [valid_binary double_of_float convert]. intros Hv.
  destruct (widen_finite s m e Hv) as (k & Hk & Hw). rewrite Hw.
  cbn [float_of_double convert].
  unfold bounded, canonical_mantissa in Hv.
  apply andb_true_iff in Hv as [Hc Hb]. apply Z.eqb_eq in Hc. apply Z.leb_le in Hb.
  unfold binary_round, shl_align.
  rewrite digits_shl.
  replace (Zpos (digits2_pos m) + Z.of_nat k + (e - Z.of_nat k))
    with (Zpos (digits2_pos m) + e) by lia.
  rewrite Hc.
  destruct (e - (e - Z.of_nat k)) as [|p|p] eqn:Ep; try lia.
  replace e with ((e - Z.of_nat k) + Z.of_nat k) at 2 by lia.
  apply binary_round_aux_shift; [exact Hk | |].
  - replace (e - Z.of_nat k + Z.of_nat k) with e by lia. exact Hc.
  - lia.
Qed.

(** What is raised to zero is not below zero. *)
Lemma raised_not_negative x : SFltb (raised x) (S754_zero false) = false.
Proof.
  unfold raised. destruct x as [s | [|] | | [|] m e]; reflexivity.
Qed.

(** Intrinsic width 16777217 needs 25 bits; the callback answers
    16777216. *)
Lemma C4_answer_is_rounded :
  let intrinsic := {| cg_width := double_of_int 16777217; cg_height := double_of_int 50 |} in
  (forall (width height : binary32) (heightMode : YGMeasureMode),
      yg_width (RCTShadowViewMeasure intrinsic width YGMeasureModeUndefined height heightMode)
        = float_of_int 16777216) /\
  double_of_float (float_of_int 16777216) = double_of_int 16777216 /\
  double_of_int 16777216 <> double_of_int 16777217 /\
  ~ answersTheIntrinsicSize.
Proof.
  intros intrinsic.
  split; [intros; vm_compute; reflexivity |].
  split; [vm_compute; reflexivity |].
  split; [vm_compute; discriminate |].
  intros H.
  specialize (H intrinsic (float_of_int 0) (float_of_int 0) YGMeasureModeUndefined eq_refl).
  vm_compute in H. discriminate H.
Qed.

(** C4 (as amended).  Per axis the callback answers, as a float: for
    mode Undefined the intrinsic dimension converted to float, which is
    the intrinsic dimension itself whenever a float holds it; for mode
    Exactly the offered size; for mode AtMost the offered size if it is
    below the intrinsic dimension, compared as doubles, and the intrinsic
    dimension converted to float otherwise.  The intrinsic dimension is
    taken as it is only if it is above zero, and as zero otherwise, so
    nothing is computed from a negative dimension and the callback cannot
    tell the no-size sentinel from zero.  With intrinsic size (100, 50):
    (Exactly, 40) gives width 40, (AtMost, 40) gives 40 and (AtMost, 200)
    gives 100. *)
Theorem C4_measure_modes :
  (forall (intrinsic : CGSize) (w h : binary32) (wm hm : YGMeasureMode),
      let iw :=
        if SFltb (S754_zero false) (cg_width intrinsic)
        then cg_width intrinsic else S754_zero false in
      let ih :=
        if SFltb (S754_zero false) (cg_height intrinsic)
        then cg_height intrinsic else S754_zero false in
      (yg_width (RCTShadowViewMeasure intrinsic w YGMeasureModeUndefined h hm)
         = float_of_double iw /\
       (forall f : binary32,
           valid_binary 24 128 f = true -> iw = double_of_float f ->
           yg_width (RCTShadowViewMeasure intrinsic w YGMeasureModeUndefined h hm) = f) /\
       yg_width (RCTShadowViewMeasure intrinsic w YGMeasureModeExactly h hm) = w /\
       (SFltb (double_of_float w) iw = true -> valid_binary 24 128 w = true ->
        yg_width (RCTShadowViewMeasure intrinsic w YGMeasureModeAtMost h hm) = w) /\
       (SFltb (double_of_float w) iw = false ->
        yg_width (RCTShadowViewMeasure intrinsic w YGMeasureModeAtMost h hm)
          = float_of_double iw) /\
       SFltb iw (S754_zero false) = false) /\
      (yg_height (RCTShadowViewMeasure intrinsic w wm h YGMeasureModeUndefined)
         = float_of_double ih /\
       (forall f : binary32,
           valid_binary 24 128 f = true -> ih = double_of_float f ->
           yg_height (RCTShadowViewMeasure intrinsic w wm h YGMeasureModeUndefined) = f) /\
       yg_height (RCTShadowViewMeasure intrinsic w wm h YGMeasureModeExactly) = h /\
       (SFltb (double_of_float h) ih = true -> valid_binary 24 128 h = true ->
        yg_height (RCTShadowViewMeasure intrinsic w wm h YGMeasureModeAtMost) = h) /\
       (SFltb (double_of_float h) ih = false ->
        yg_height (RCTShadowViewMeasure intrinsic w wm h YGMeasureModeAtMost)
          = float_of_double ih) /\
       SFltb ih (S754_zero false) = false)) /\
  (forall (intrinsic : CGSize) (w h : binary32) (wm hm : YGMeasureMode),
      SFltb (S754_zero false) (cg_width intrinsic) = false ->
      SFltb (S754_zero false) (cg_height intrinsic) = false ->
      RCTShadowViewMeasure intrinsic w wm h hm
        = RCTShadowViewMeasure
            {| cg_width := double_of_int 0; cg_height := double_of_int 0 |} w wm h hm) /\
  (forall (w h : binary32) (wm hm : YGMeasureMode),
      RCTShadowViewMeasure
        {| cg_width := UIViewNoIntrinsicMetric; cg_height := UIViewNoIntrinsicMetric |}
        w wm h hm
        = RCTShadowViewMeasure
            {| cg_width := double_of_int 0; cg_height := double_of_int 0 |} w wm h hm) /\
  (forall (h : binary32) (hm : YGMeasureMode),
      let intrinsic := {| cg_width := double_of_int 100; cg_height := double_of_int 50 |} in
      yg_width (RCTShadowViewMeasure intrinsic (float_of_int 40) YGMeasureModeExactly h hm)
        = float_of_int 40 /\
      yg_width (RCTShadowViewMeasure intrinsic (float_of_int 40) YGMeasureModeAtMost h hm)
        = float_of_int 40 /\
      yg_width (RCTShadowViewMeasure intrinsic (float_of_int 200) YGMeasureModeAtMost h hm)
        = float_of_int 100).
Proof.
  assert (Haxis : forall (x : binary64) (o : binary32),
    float_of_double (MAX 0 x) = float_of_double (raised x) /\
    (forall f : binary32,
        valid_binary 24 128 f = true -> raised x = double_of_float f ->
        float_of_double (MAX 0 x) = f) /\
    (SFltb (double_of_float o) (raised x) = true -> valid_binary 24 128 o = true ->
     float_of_double (MIN o (MAX 0 x)) = o) /\
    (SFltb (double_of_float o) (raised x) = false ->
     float_of_double (MIN o (MAX 0 x)) = float_of_double (raised x)) /\
    SFltb (raised x) (S754_zero false) = false).
  { intros x o. change (MAX 0 x) with (raised x). unfold MIN.
    split; [reflexivity |].
    split; [intros f Hf ->; apply float_of_double_of_float, Hf |].
    split; [intros -> Hv; apply float_of_double_of_float, Hv |].
    split; [intros ->; reflexivity | apply raised_not_negative]. }
  split; [| split; [| split]].
  - intros intrinsic w h wm hm. cbv zeta.
    destruct (Haxis (cg_width intrinsic) w) as (W1 & W2 & W3 & W4 & W5).
    destruct (Haxis (cg_height intrinsic) h) as (H1 & H2 & H3 & H4 & H5).
    split; (split; [assumption | split; [assumption | split; [reflexivity |
              split; [assumption | split; assumption]]]]).
  - intros intrinsic w h wm hm Hw Hh. unfold RCTShadowViewMeasure.
    cbn [cg_width cg_height]. unfold MAX.
    change (double_of_int 0) with (S754_zero false).
    rewrite Hw, Hh. reflexivity.
  - intros w h wm hm. reflexivity.
  - intros h hm intrinsic. repeat split; vm_compute; reflexivity.
Qed.

End MeasureFacts.

(** ** The layout pass *)

Module LayoutFacts.
Import MetaProps Layout.

(** Structural induction on views, with the hypothesis for every subview. *)
Lemma RCTShadowView_ind (P : RCTShadowView -> Prop) :
  (forall tag m node subviews,
      Forall P subviews -> P (ShadowView tag m node subviews)) ->
  forall v, P v.
Proof.
  intros step. fix IH 1. intros [tag m node subviews]. apply step.
  revert subviews. fix IHl 1. intros [|c cs]; constructor.
  - apply IH.
  - apply IHl.
Qed.

(** The loop iteration is the loop body of the source. *)
Lemma layoutSubview_eq c ctx st : layoutSubview c ctx st = loopBody c ctx st.
Proof.
  destruct c as [tag m node subviews]. unfold loopBody. cbn [yogaNode].
  cbn [layoutSubview].
  destruct (YGNodeIsDirty node); [reflexivity |].
  destruct (negb (YGNodeGetHasNewLayout node)); [reflexivity |].
  unfold withYogaNode, layoutWithMetrics. cbn [reactTag layoutMetrics yogaNode reactSubviews].
  destruct (negb (RCTLayoutMetricsEqualToLayoutMetrics m _));
    unfold layoutSubviewsWithContext, withLayoutMetrics;
    cbn [reactTag layoutMetrics yogaNode reactSubviews];
    match goal with
    | |- context [displayType ?x] => destruct (displayType x)
    end; try reflexivity;
    match goal with
    | |- context [forEachSubview ?f ?l ?c ?s] => destruct (forEachSubview f l c s) as [[? ?]|]
    end; reflexivity.
Qed.

Lemma layoutWithMetrics_spec self m ctx st child st1 :
  layoutWithMetrics self m ctx st = (child, st1) ->
  reactTag child = reactTag self /\
  yogaNode child = yogaNode self /\
  reactSubviews child = reactSubviews self /\
  layoutMetrics child = m /\
  journal st1 = journal st ++ [{| receiver := reactTag self; metrics := m;
                                  contextPosition := absolutePosition ctx |}] /\
  affectedShadowViews st1 =
    (if bool_decide (layoutMetrics self = m) then affectedShadowViews st
     else addObject (affectedShadowViews st) (reactTag self)) /\
  (layoutMetrics self = m -> child = self).
Proof.
  unfold layoutWithMetrics, RCTLayoutMetricsEqualToLayoutMetrics.
  destruct (bool_decide_reflect (layoutMetrics self = m)) as [Heq|Hne]; cbn [negb];
    intros H; injection H as <- <-; cbn; repeat split; (assumption || contradiction || idtac).
Qed.

(** C10.  A view whose stored metrics have display type None answers
    [layoutSubviewsWithContext:] at once: the tree below it comes back as
    it was (markers still set, stored metrics untouched), no view is
    added to the affected set and no subview is sent its metrics,
    whatever the solver computed for the subviews. *)
Theorem C10_hidden_view_skips_subviews (self : RCTShadowView)
    (layoutContext : RCTLayoutContext) (st : PassState)
    (Hnone : displayType (layoutMetrics self) = RCTDisplayTypeNone) :
  layoutSubviewsWithContext self layoutContext st = Done (self, st).
Proof. unfold layoutSubviewsWithContext. rewrite Hnone. reflexivity. Qed.

Lemma C10_hidden_view_witness :
  layoutSubviewsWithContext hiddenContainer atOrigin emptyPass = Done (hiddenContainer, emptyPass)
  /\ Forall (fun v => hasNewLayout (yogaNode v) = true) (reactSubviews hiddenContainer).
Proof.
  split.
  - apply (C10_hidden_view_skips_subviews hiddenContainer atOrigin emptyPass). reflexivity.
  - repeat constructor.
Defined.

(** C1, evaluated.  With S listed before A under a root at the origin,
    every view is sent its metrics once, in pre-order, and the absolute
    position carried to B at local (5,5) inside A at local (10,10) is
    (22,18): it contains the origin (7,3) of A's earlier sibling S, so
    it is not (15,15). *)
Theorem C1_offset_leaks_between_siblings :
  exists self' st',
    layoutSubviewsWithContext rootSiblingFirst atOrigin emptyPass = Done (self', st') /\
    positionsTold st' = [(2, (7, 3)); (3, (17, 13)); (4, (22, 18))] /\
    affectedShadowViews st' = [2; 3; 4].
Proof. eexists _, _. split; [reflexivity | split; reflexivity]. Qed.

(** The journal only grows during a pass. *)
Lemma forEachSubview_journal subviews :
  Forall (fun c => forall ctx st c' ctx' st',
              layoutSubview c ctx st = Done (c', ctx', st') ->
              exists l, journal st' = journal st ++ l) subviews ->
  forall ctx st subviews' st',
    forEachSubview layoutSubview subviews ctx st = Done (subviews', st') ->
    exists l, journal st' = journal st ++ l.
Proof.
  induction 1 as [|c cs Hc _ IH]; intros ctx st subviews' st' Hrun; cbn in Hrun.
  - injection Hrun as <- <-. exists []. symmetry. apply app_nil_r.
  - destruct (layoutSubview c ctx st) as [[[c1 ctx1] st1]|] eqn:E1; [|discriminate].
    destruct (forEachSubview layoutSubview cs ctx1 st1) as [[cs1 st2]|] eqn:E2;
      [|discriminate].
    injection Hrun as <- <-.
    destruct (Hc _ _ _ _ _ E1) as [l1 H1]. destruct (IH _ _ _ _ E2) as [l2 H2].
    exists (l1 ++ l2). rewrite H2, H1. symmetry. apply app_assoc.
Qed.

Lemma layoutSubview_journal c :
  forall ctx st c' ctx' st',
    layoutSubview c ctx st = Done (c', ctx', st') ->
    exists l, journal st' = journal st ++ l.
Proof.
  induction c as [tag m node subviews IH] using RCTShadowView_ind.
  intros ctx st c' ctx' st' Hrun. rewrite layoutSubview_eq in Hrun.
  unfold loopBody in Hrun. cbn [yogaNode] in Hrun.
  destruct (YGNodeIsDirty node); [discriminate|].
  destruct (negb (YGNodeGetHasNewLayout node)).
  { injection Hrun as <- <- <-. exists []. symmetry. apply app_nil_r. }
  destruct (layoutWithMetrics _ _ _ st) as [child st1] eqn:Elw.
  apply layoutWithMetrics_spec in Elw as (_ & _ & Hsub & Hm & Hj & _).
  unfold layoutSubviewsWithContext in Hrun. rewrite Hsub in Hrun.
  cbn [withYogaNode reactSubviews] in Hrun.
  destruct (displayType (layoutMetrics child));
    try (injection Hrun as <- <- <-; eexists; exact Hj);
    match type of Hrun with
    | context [forEachSubview ?f ?l ?c ?s] =>
        destruct (forEachSubview f l c s) as [[cs1 st2]|] eqn:E2; [|discriminate]
    end;
    injection Hrun as <- <- <-;
    destruct (forEachSubview_journal _ IH _ _ _ _ E2) as [l2 H2];
    rewrite H2, Hj, <- app_assoc; eexists; reflexivity.
Qed.

(** The scenario of the specification, where A is the first subview: B
    is told (15,15) whatever siblings follow A. *)
Lemma later_siblings_do_not_matter (later : list RCTShadowView) self' st' :
  layoutSubviewsWithContext (rootAFirst later) atOrigin emptyPass = Done (self', st') ->
  take 2 (positionsTold st') = [(3, (10, 10)); (4, (15, 15))].
Proof.
  unfold layoutSubviewsWithContext, rootAFirst, laidOutRoot.
  cbn [layoutMetrics displayType flexMetrics reactSubviews forEachSubview].
  destruct (layoutSubview viewA atOrigin emptyPass) as [[[a1 ctx1] st1]|] eqn:EA;
    [|discriminate].
  vm_compute in EA. injection EA as <- <- <-.
  match goal with
  | |- context [forEachSubview ?f ?l ?c ?s] =>
      destruct (forEachSubview f l c s) as [[cs1 st2]|] eqn:E2; [|discriminate]
  end.
  intros Hrun. injection Hrun as <- <-.
  assert (Hall : Forall (fun c => forall ctx st c' ctx' st',
              layoutSubview c ctx st = Done (c', ctx', st') ->
              exists l, journal st' = journal st ++ l) later).
  { apply Forall_forall. intros c _. apply layoutSubview_journal. }
  destruct (forEachSubview_journal _ Hall _ _ _ _ E2) as [l Hl].
  unfold positionsTold. rewrite Hl. reflexivity.
Qed.

(** In general: under a visible root, the second of two subviews with new
    layout is told the context position plus the origins of both. *)
Lemma second_subview_is_told_both_origins
    (root first second : Z) (rRoot r1 r2 : CGRect) (ctx : RCTLayoutContext) :
  exists self' st',
    layoutSubviewsWithContext
      (laidOutRoot root rRoot [solved first r1 []; solved second r2 []]) ctx emptyPass
      = Done (self', st') /\
    positionsTold st' =
      [(first, (pt_x (absolutePosition ctx) + pt_x (rect_origin r1),
                pt_y (absolutePosition ctx) + pt_y (rect_origin r1)));
       (second, (pt_x (absolutePosition ctx) + pt_x (rect_origin r1) + pt_x (rect_origin r2),
                 pt_y (absolutePosition ctx) + pt_y (rect_origin r1) + pt_y (rect_origin r2)))].
Proof.
  unfold layoutSubviewsWithContext, laidOutRoot, solved.
  cbn [layoutMetrics displayType flexMetrics reactSubviews forEachSubview layoutSubview
       YGNodeIsDirty YGNodeGetHasNewLayout isDirty hasNewLayout negb].
  unfold layoutWithMetrics.
  cbn [layoutMetrics reactTag yogaNode reactSubviews YGNodeSetHasNewLayout
       RCTLayoutMetricsFromYogaNode layout isDirty hasNewLayout minWidth minHeight].
  destruct (negb (RCTLayoutMetricsEqualToLayoutMetrics _ (flexMetrics r1)));
    destruct (negb (RCTLayoutMetricsEqualToLayoutMetrics _ (flexMetrics r2)));
    cbn; eexists _, _; split; reflexivity.
Qed.

(** C6.  The hit test answers with the result of the first subview, in
    list order, whose frame contains the point, asked with the point
    moved into that subview's coordinates; when no subview's frame
    contains the point it answers the view's own tag.  A subview that
    contains the point therefore wins over every later sibling, whatever
    that sibling's frame is. *)
Theorem C6_hit_test_first_match (CGRectContainsPoint : CGRect -> CGPoint -> bool) :
  (forall (self : RCTShadowView) (point : CGPoint),
      reactTagAtPoint CGRectContainsPoint self point =
        match List.find (fun v => CGRectContainsPoint (frame (layoutMetrics v)) point)
                        (reactSubviews self) with
        | Some v =>
            reactTagAtPoint CGRectContainsPoint v
              {| pt_x := pt_x point - pt_x (rect_origin (frame (layoutMetrics v)));
                 pt_y := pt_y point - pt_y (rect_origin (frame (layoutMetrics v))) |}
        | None => reactTag self
        end) /\
  (forall tag m node (before after : list RCTShadowView) (v : RCTShadowView) (point : CGPoint),
      Forall (fun u => CGRectContainsPoint (frame (layoutMetrics u)) point = false) before ->
      CGRectContainsPoint (frame (layoutMetrics v)) point = true ->
      reactTagAtPoint CGRectContainsPoint (ShadowView tag m node (before ++ v :: after)) point
        = reactTagAtPoint CGRectContainsPoint v
            {| pt_x := pt_x point - pt_x (rect_origin (frame (layoutMetrics v)));
               pt_y := pt_y point - pt_y (rect_origin (frame (layoutMetrics v))) |}) /\
  reactTagAtPoint containsPoint overlapping {| pt_x := 12; pt_y := 12 |} = 2.
Proof.
  assert (Hfind : forall (self : RCTShadowView) (point : CGPoint),
      reactTagAtPoint CGRectContainsPoint self point =
        match List.find (fun v => CGRectContainsPoint (frame (layoutMetrics v)) point)
                        (reactSubviews self) with
        | Some v =>
            reactTagAtPoint CGRectContainsPoint v
              {| pt_x := pt_x point - pt_x (rect_origin (frame (layoutMetrics v)));
                 pt_y := pt_y point - pt_y (rect_origin (frame (layoutMetrics v))) |}
        | None => reactTag self
        end).
  { intros [tag m node subviews] point. cbn [reactTagAtPoint reactSubviews reactTag].
    induction subviews as [|c cs IH]; cbn [List.find]; [reflexivity|].
    destruct (CGRectContainsPoint (frame (layoutMetrics c)) point); [reflexivity | exact IH]. }
  split; [exact Hfind | split; [| reflexivity]].
  intros tag m node before after v point Hbefore Hv.
  rewrite Hfind. cbn [reactSubviews].
  induction Hbefore as [|u us Hu _ IH]; cbn [app List.find].
  - rewrite Hv. reflexivity.
  - rewrite Hu. exact IH.
Qed.

(** *** A second pass under the same constraints *)

Lemma withYogaNode_id v : withYogaNode v (yogaNode v) = v.
Proof. destruct v; reflexivity. Qed.

Lemma clearRootMarker_id v : hasNewLayout (yogaNode v) = false -> clearRootMarker v = v.
Proof.
  destruct v as [tag m [d f l mw mh] subviews]. cbn. intros ->. reflexivity.
Qed.

Lemma solverState_eq v :
  solverState v =
    ShadowView (reactTag v) (flexMetrics (rect 0 0 0 0))
      (YGNodeSetHasNewLayout (yogaNode v) false) (map solverState (reactSubviews v)).
Proof. destruct v; reflexivity. Qed.

(** After its iteration a subview is clean and carries no marker. *)
Lemma layoutSubview_settled c ctx st c' ctx' st' :
  layoutSubview c ctx st = Done (c', ctx', st') ->
  isDirty (yogaNode c') = false /\ hasNewLayout (yogaNode c') = false.
Proof.
  rewrite layoutSubview_eq. unfold loopBody, YGNodeIsDirty, YGNodeGetHasNewLayout.
  destruct (isDirty (yogaNode c)) eqn:Ed; [discriminate|].
  destruct (hasNewLayout (yogaNode c)) eqn:Ef; cbn [negb].
  2:{ intros H. injection H as <- <- <-. auto. }
  destruct (layoutWithMetrics _ _ _ st) as [child st1] eqn:Elw.
  apply layoutWithMetrics_spec in Elw as (_ & Hy & _).
  unfold layoutSubviewsWithContext.
  destruct (displayType (layoutMetrics child));
    try (intros H; injection H as <- <- <-; rewrite Hy; cbn; auto);
    destruct (forEachSubview _ _ _ _) as [[cs1 st2]|]; try discriminate;
    intros H; injection H as <- <- <-; cbn [withReactSubviews yogaNode];
    rewrite Hy; cbn; auto.
Qed.

Lemma forEachSubview_settled subviews :
  forall ctx st subviews' st',
    forEachSubview layoutSubview subviews ctx st = Done (subviews', st') ->
    Forall (fun c => isDirty (yogaNode c) = false /\ hasNewLayout (yogaNode c) = false)
           subviews'.
Proof.
  induction subviews as [|c cs IH]; intros ctx st subviews' st' Hrun; cbn in Hrun.
  - injection Hrun as <- <-. constructor.
  - destruct (layoutSubview c ctx st) as [[[c1 ctx1] st1]|] eqn:E1; [|discriminate].
    destruct (forEachSubview layoutSubview cs ctx1 st1) as [[cs1 st2]|] eqn:E2;
      [|discriminate].
    injection Hrun as <- <-. constructor.
    + exact (layoutSubview_settled _ _ _ _ _ _ E1).
    + exact (IH _ _ _ _ E2).
Qed.

(** Settled subviews are all skipped. *)
Lemma forEachSubview_skips subviews :
  Forall (fun c => isDirty (yogaNode c) = false /\ hasNewLayout (yogaNode c) = false)
         subviews ->
  forall ctx st, forEachSubview layoutSubview subviews ctx st = Done (subviews, st).
Proof.
  induction 1 as [|c cs [Hd Hf] _ IH]; intros ctx st; cbn [forEachSubview]; [reflexivity|].
  rewrite layoutSubview_eq. unfold loopBody, YGNodeIsDirty, YGNodeGetHasNewLayout.
  rewrite Hd, Hf. cbn [negb]. rewrite IH. reflexivity.
Qed.

(** A traversal leaves the view itself alone, and a traversal of its
    result does nothing. *)
Lemma layoutSubviewsWithContext_settles v ctx st v' st' :
  layoutSubviewsWithContext v ctx st = Done (v', st') ->
  yogaNode v' = yogaNode v /\ layoutMetrics v' = layoutMetrics v /\
  reactTag v' = reactTag v /\
  forall ctx2 st2, layoutSubviewsWithContext v' ctx2 st2 = Done (v', st2).
Proof.
  unfold layoutSubviewsWithContext.
  destruct (displayType (layoutMetrics v)) eqn:Ed.
  - intros H. injection H as <- <-. rewrite Ed. auto.
  - destruct (forEachSubview _ _ _ _) as [[cs1 st2]|] eqn:E; [|discriminate].
    intros H. injection H as <- <-. cbn [withReactSubviews yogaNode layoutMetrics reactTag].
    rewrite Ed. repeat split; try reflexivity. intros ctx2 st3.
    cbn [reactSubviews].
    rewrite (forEachSubview_skips _ (forEachSubview_settled _ _ _ _ _ E)). reflexivity.
  - destruct (forEachSubview _ _ _ _) as [[cs1 st2]|] eqn:E; [|discriminate].
    intros H. injection H as <- <-. cbn [withReactSubviews yogaNode layoutMetrics reactTag].
    rewrite Ed. repeat split; try reflexivity. intros ctx2 st3.
    cbn [reactSubviews].
    rewrite (forEachSubview_skips _ (forEachSubview_settled _ _ _ _ _ E)). reflexivity.
Qed.

(** The pass writes nothing that the solver reads. *)
Lemma forEachSubview_solverState subviews :
  Forall (fun c => forall ctx st c' ctx' st',
              layoutSubview c ctx st = Done (c', ctx', st') ->
              solverState c' = solverState c) subviews ->
  forall ctx st subviews' st',
    forEachSubview layoutSubview subviews ctx st = Done (subviews', st') ->
    map solverState subviews' = map solverState subviews.
Proof.
  induction 1 as [|c cs Hc _ IH]; intros ctx st subviews' st' Hrun; cbn in Hrun.
  - injection Hrun as <- <-. reflexivity.
  - destruct (layoutSubview c ctx st) as [[[c1 ctx1] st1]|] eqn:E1; [|discriminate].
    destruct (forEachSubview layoutSubview cs ctx1 st1) as [[cs1 st2]|] eqn:E2;
      [|discriminate].
    injection Hrun as <- <-. cbn [map].
    rewrite (Hc _ _ _ _ _ E1), (IH _ _ _ _ E2). reflexivity.
Qed.

Lemma layoutSubview_solverState c :
  forall ctx st c' ctx' st',
    layoutSubview c ctx st = Done (c', ctx', st') -> solverState c' = solverState c.
Proof.
  induction c as [tag m node subviews IH] using RCTShadowView_ind.
  intros ctx st c' ctx' st' Hrun. rewrite layoutSubview_eq in Hrun.
  unfold loopBody in Hrun. cbn [yogaNode] in Hrun.
  destruct (YGNodeIsDirty node); [discriminate|].
  destruct (negb (YGNodeGetHasNewLayout node)).
  { injection Hrun as <- <- <-. reflexivity. }
  destruct (layoutWithMetrics _ _ _ st) as [child st1] eqn:Elw.
  apply layoutWithMetrics_spec in Elw as (Ht & Hy & Hsub & _).
  cbn [withYogaNode reactTag yogaNode reactSubviews] in Ht, Hy, Hsub.
  unfold layoutSubviewsWithContext in Hrun. rewrite Hsub in Hrun.
  destruct (displayType (layoutMetrics child));
    try (injection Hrun as <- <- <-;
         rewrite (solverState_eq child), Ht, Hy, Hsub; reflexivity);
    match type of Hrun with
    | context [forEachSubview ?f ?l ?c ?s] =>
        destruct (forEachSubview f l c s) as [[cs1 st2]|] eqn:E2; [|discriminate]
    end;
    injection Hrun as <- <- <-;
    rewrite solverState_eq; cbn [withReactSubviews reactTag yogaNode reactSubviews];
    rewrite Ht, Hy, (forEachSubview_solverState _ IH _ _ _ _ E2); reflexivity.
Qed.

Lemma layoutSubviewsWithContext_solverState v ctx st v' st' :
  layoutSubviewsWithContext v ctx st = Done (v', st') -> solverState v' = solverState v.
Proof.
  unfold layoutSubviewsWithContext. intros Hrun.
  assert (Hall : Forall (fun c => forall ctx st c' ctx' st',
              layoutSubview c ctx st = Done (c', ctx', st') ->
              solverState c' = solverState c) (reactSubviews v)).
  { apply Forall_forall. intros c _. apply layoutSubview_solverState. }
  destruct (displayType (layoutMetrics v));
    try (injection Hrun as <- <-; reflexivity);
    match type of Hrun with
    | context [forEachSubview ?f ?l ?c ?s] =>
        destruct (forEachSubview f l c s) as [[cs1 st2]|] eqn:E2; [|discriminate]
    end;
    injection Hrun as <- <-;
    rewrite (solverState_eq v), solverState_eq;
    cbn [withReactSubviews reactTag yogaNode reactSubviews];
    rewrite (forEachSubview_solverState _ Hall _ _ _ _ E2); reflexivity.
Qed.

Lemma setMinWidth_spec node v :
  minWidth (YGNodeStyleSetMinWidth node v) = pointsOrUndefined v /\
  minHeight (YGNodeStyleSetMinWidth node v) = minHeight node.
Proof. unfold YGNodeStyleSetMinWidth. case_decide; cbn; auto. Qed.

Lemma setMinHeight_spec node v :
  minHeight (YGNodeStyleSetMinHeight node v) = pointsOrUndefined v /\
  minWidth (YGNodeStyleSetMinHeight node v) = minWidth node.
Proof. unfold YGNodeStyleSetMinHeight. case_decide; cbn; auto. Qed.

Section SecondPass.
Variable YGNodeCalculateLayout :
  RCTShadowView -> float -> float -> YGDirection -> RCTShadowView.
Variable RCTYogaFloatFromCoreGraphicsFloat : CGFloat -> float.
Variable RCTCoreGraphicsFloatFromYogaValue : YGValue -> CGFloat -> CGFloat.
Variable RCTYogaLayoutDirectionFromUIKitLayoutDirection :
  UIUserInterfaceLayoutDirection -> YGDirection.

Local Abbreviation push :=
  (pushMinimumSize RCTYogaFloatFromCoreGraphicsFloat RCTCoreGraphicsFloatFromYogaValue).

Lemma layoutWithMinimumSize_eq self minimumSize maximumSize direction ctx st :
  layoutWithMinimumSize YGNodeCalculateLayout RCTYogaFloatFromCoreGraphicsFloat
    RCTCoreGraphicsFloatFromYogaValue RCTYogaLayoutDirectionFromUIKitLayoutDirection
    self minimumSize maximumSize direction ctx st
  = applyRootLayout
      (YGNodeCalculateLayout (push self minimumSize)
         (RCTYogaFloatFromCoreGraphicsFloat (sz_width maximumSize))
         (RCTYogaFloatFromCoreGraphicsFloat (sz_height maximumSize))
         (RCTYogaLayoutDirectionFromUIKitLayoutDirection direction))
      ctx st.
Proof. reflexivity. Qed.

(** Pushing the same minimum size into a node that already holds what
    the first push left is the identity. *)
Lemma pushMinimumSize_again self self' minimumSize :
  minWidth (yogaNode self') = minWidth (yogaNode (push self minimumSize)) ->
  minHeight (yogaNode self') = minHeight (yogaNode (push self minimumSize)) ->
  push self' minimumSize = self'.
Proof.
  unfold pushMinimumSize, YGNodeStyleGetMinWidth, YGNodeStyleGetMinHeight.
  set (fw := RCTYogaFloatFromCoreGraphicsFloat (sz_width minimumSize)).
  set (fh := RCTYogaFloatFromCoreGraphicsFloat (sz_height minimumSize)).
  set (old := CGSizeEqualToSize
                {| sz_width := RCTCoreGraphicsFloatFromYogaValue (minWidth (yogaNode self)) 0;
                   sz_height :=
                     RCTCoreGraphicsFloatFromYogaValue (minHeight (yogaNode self)) 0 |}
                minimumSize).
  destruct old eqn:Eold; cbn [negb].
  - intros Hw Hh. rewrite Hw, Hh. fold old. rewrite Eold. reflexivity.
  - cbn [withYogaNode yogaNode]. intros Hw Hh.
    assert (Hw' : minWidth (yogaNode self') = pointsOrUndefined fw).
    { rewrite Hw, (proj2 (setMinHeight_spec _ _)). apply setMinWidth_spec. }
    assert (Hh' : minHeight (yogaNode self') = pointsOrUndefined fh).
    { rewrite Hh. apply setMinHeight_spec. }
    match goal with
    | |- (if ?c then _ else _) = _ => destruct c; [|reflexivity]
    end.
    unfold YGNodeStyleSetMinWidth. rewrite decide_True by exact Hw'.
    rewrite withYogaNode_id.
    unfold YGNodeStyleSetMinHeight. rewrite decide_True by exact Hh'.
    apply withYogaNode_id.
Qed.

(** What the first pass leaves behind. *)
Lemma applyRootLayout_leaves u ctx st self1 st1 :
  applyRootLayout u ctx st = Done (self1, st1) ->
  solverState self1 = solverState u /\
  yogaNode self1 = YGNodeSetHasNewLayout (yogaNode u) false /\
  isDirty (yogaNode u) = false /\
  (hasNewLayout (yogaNode u) = true ->
   layoutMetrics self1 = layout (yogaNode self1) /\
   forall ctx2 st2, layoutSubviewsWithContext self1 ctx2 st2 = Done (self1, st2)).
Proof.
  unfold applyRootLayout, YGNodeIsDirty, YGNodeGetHasNewLayout.
  destruct (isDirty (yogaNode u)) eqn:Ed; [discriminate|].
  destruct (hasNewLayout (yogaNode u)) eqn:Ef; cbn [negb].
  - destruct (layoutWithMetrics _ _ _ st) as [child stA] eqn:Elw.
    apply layoutWithMetrics_spec in Elw as (Ht & Hy & Hsub & Hm & _).
    cbn [withYogaNode reactTag yogaNode reactSubviews] in Ht, Hy, Hsub, Hm.
    intros Hrun.
    pose proof (layoutSubviewsWithContext_solverState _ _ _ _ _ Hrun) as Hss.
    apply layoutSubviewsWithContext_settles in Hrun as (Hy1 & Hm1 & _ & Hsettled).
    split; [| split; [| split; [reflexivity |]]].
    + rewrite Hss, (solverState_eq child), (solverState_eq u), Ht, Hy, Hsub. reflexivity.
    + rewrite Hy1, Hy. reflexivity.
    + intros _. split; [| exact Hsettled].
      rewrite Hm1, Hm, Hy1, Hy. reflexivity.
  - intros H. injection H as <- <-.
    split; [reflexivity | split; [| split; [reflexivity | discriminate]]].
    destruct u as [tag m [d f l mw mh] subviews]. cbn in Ef. subst f. reflexivity.
Qed.

(** What a pass does on a tree that differs from such a result in the
    root's marker at most. *)
Lemma applyRootLayout_again u' self1 ctx st :
  clearRootMarker u' = self1 ->
  isDirty (yogaNode self1) = false ->
  (hasNewLayout (yogaNode u') = true ->
   layoutMetrics self1 = layout (yogaNode self1) /\
   forall ctx2 st2, layoutSubviewsWithContext self1 ctx2 st2 = Done (self1, st2)) ->
  exists messages,
    applyRootLayout u' ctx st =
      Done (self1, {| affectedShadowViews := affectedShadowViews st;
                      journal := messages |}).
Proof.
  intros Hclear Hclean Hsettled.
  unfold applyRootLayout, YGNodeIsDirty, YGNodeGetHasNewLayout.
  assert (Hd : isDirty (yogaNode u') = false).
  { rewrite <- Hclean, <- Hclear. destruct u'; reflexivity. }
  rewrite Hd.
  destruct (hasNewLayout (yogaNode u')) eqn:Ef; cbn [negb].
  - destruct (Hsettled eq_refl) as [Hm Hsub].
    fold (clearRootMarker u'). rewrite Hclear.
    unfold RCTLayoutMetricsFromYogaNode.
    destruct (layoutWithMetrics _ _ _ st) as [child stA] eqn:Elw.
    apply layoutWithMetrics_spec in Elw as (_ & _ & _ & _ & Hj & Haff & Hsame).
    rewrite (Hsame Hm). rewrite Hsub.
    rewrite bool_decide_eq_true_2 in Haff by exact Hm.
    exists (journal stA). destruct stA as [aff jr]. cbn in Haff. subst aff. reflexivity.
  - exists (journal st). rewrite <- Hclear, (clearRootMarker_id _ Ef).
    destruct st; reflexivity.
Qed.

Hypothesis solver : IncrementalSolver YGNodeCalculateLayout.

(** C5.  If a layout pass comes back, a second pass with the same
    minimum size, maximum size and direction on the tree it left comes
    back too, with the tree unchanged (so with every stored metric
    unchanged) and with the affected set it was handed, to which it
    has added no view. *)
Theorem C5_second_pass_affects_nothing
    (self : RCTShadowView) (minimumSize maximumSize : CGSize)
    (direction : UIUserInterfaceLayoutDirection)
    (ctx1 : RCTLayoutContext) (st1 : PassState)
    (self1 : RCTShadowView) (st1' : PassState)
    (Hfirst :
       layoutWithMinimumSize YGNodeCalculateLayout RCTYogaFloatFromCoreGraphicsFloat
         RCTCoreGraphicsFloatFromYogaValue RCTYogaLayoutDirectionFromUIKitLayoutDirection
         self minimumSize maximumSize direction ctx1 st1 = Done (self1, st1')) :
  forall (ctx2 : RCTLayoutContext) (st2 : PassState),
  exists messages,
    layoutWithMinimumSize YGNodeCalculateLayout RCTYogaFloatFromCoreGraphicsFloat
      RCTCoreGraphicsFloatFromYogaValue RCTYogaLayoutDirectionFromUIKitLayoutDirection
      self1 minimumSize maximumSize direction ctx2 st2
    = Done (self1, {| affectedShadowViews := affectedShadowViews st2;
                      journal := messages |}).
Proof.
  intros ctx2 st2. rewrite layoutWithMinimumSize_eq in Hfirst |- *.
  set (w := RCTYogaFloatFromCoreGraphicsFloat (sz_width maximumSize)) in *.
  set (h := RCTYogaFloatFromCoreGraphicsFloat (sz_height maximumSize)) in *.
  set (d := RCTYogaLayoutDirectionFromUIKitLayoutDirection direction) in *.
  set (v := push self minimumSize) in *.
  apply applyRootLayout_leaves in Hfirst as (Hss & Hy & Hclean & Hsettled).
  destruct (solver_keeps_minimum _ solver v w h d) as [Hkw Hkh].
  assert (Hpush : push self1 minimumSize = self1).
  { apply (pushMinimumSize_again self); rewrite Hy; cbn [minWidth minHeight YGNodeSetHasNewLayout];
      assumption. }
  rewrite Hpush.
  destruct (solver_rerun _ solver v w h d self1 Hss) as [Hsame Hmarker].
  assert (Hf1 : hasNewLayout (yogaNode self1) = false) by (rewrite Hy; reflexivity).
  rewrite (clearRootMarker_id _ Hf1) in Hsame.
  apply applyRootLayout_again.
  - exact Hsame.
  - rewrite Hy. exact Hclean.
  - intros Hraised. apply Hsettled.
    destruct (Hmarker Hraised) as [H|H]; [congruence | exact H].
Qed.
End SecondPass.

Lemma markRoot_incremental : IncrementalSolver markRoot.
Proof.
  split.
  - intros t w h d. split; reflexivity.
  - intros t w h d t' Hss. split; [| intros _; right; reflexivity].
    rewrite (solverState_eq t'), (solverState_eq (markRoot t w h d)) in Hss.
    injection Hss as _ Hd _. 
    destruct t' as [tag m [dirty f l mw mh] subviews]. cbn in Hd. subst dirty.
    reflexivity.
Qed.

Lemma C5_second_pass_witness :
  let run := layoutWithMinimumSize markRoot floatOfCG cgOfYogaValue yogaDirection in
  let minimumSize := {| sz_width := 10; sz_height := 20 |} in
  let maximumSize := {| sz_width := 320; sz_height := 480 |} in
  let direction := UIUserInterfaceLayoutDirectionLeftToRight in
  exists self1 st1,
    run (solved 1 (rect 0 0 320 480) [viewS; viewA]) minimumSize maximumSize direction
        atOrigin emptyPass = Done (self1, st1) /\
    affectedShadowViews st1 = [1; 2; 3; 4] /\
    exists messages,
      run self1 minimumSize maximumSize direction atOrigin emptyPass
      = Done (self1, {| affectedShadowViews := []; journal := messages |}).
Proof.
  intros run minimumSize maximumSize direction.
  eexists _, _. split; [reflexivity | split; [reflexivity |]].
  apply (C5_second_pass_affects_nothing markRoot floatOfCG cgOfYogaValue yogaDirection
           markRoot_incremental
           (solved 1 (rect 0 0 320 480) [viewS; viewA]) minimumSize maximumSize direction
           atOrigin emptyPass _ _ eq_refl atOrigin emptyPass).
Defined.

End LayoutFacts.

(** ** Insertion and removal of subviews *)

Module TopologyFacts.
Import Topology.

Lemma removeObject_not_elem l x : x ∉ l -> removeObject l x = l.
Proof.
  induction l as [|y l IH]; intros Hx; [reflexivity|].
  apply not_elem_of_cons in Hx as [Hne Hx]. cbn.
  rewrite bool_decide_eq_false_2 by congruence. cbn. f_equal. exact (IH Hx).
Qed.

Lemma removeObject_elem l x y : y ∈ removeObject l x <-> y ∈ l /\ y <> x.
Proof.
  unfold removeObject. rewrite !list_elem_of_In, filter_In, negb_true_iff, bool_decide_eq_false.
  reflexivity.
Qed.

Lemma eraseFirst_not_elem l x : x ∉ l -> eraseFirst l x = l.
Proof.
  induction l as [|y l IH]; intros Hx; [reflexivity|].
  apply not_elem_of_cons in Hx as [Hne Hx]. cbn.
  rewrite decide_False by congruence. f_equal. exact (IH Hx).
Qed.

(** Without duplicates, erasing the first occurrence removes them all. *)
Lemma removeObject_eraseFirst l x : NoDup l -> removeObject l x = eraseFirst l x.
Proof.
  induction 1 as [|y l Hy Hnd IH]; [reflexivity|]. cbn.
  destruct (decide (y = x)) as [->|Hne].
  - rewrite bool_decide_eq_true_2 by reflexivity. cbn. apply removeObject_not_elem, Hy.
  - rewrite bool_decide_eq_false_2 by exact Hne. cbn. f_equal. exact IH.
Qed.

Lemma insertAt_elem l i x y : y ∈ insertAt l i x <-> y = x \/ y ∈ l.
Proof.
  unfold insertAt. rewrite elem_of_app, elem_of_cons.
  rewrite <- (take_drop i l) at 3. rewrite elem_of_app. tauto.
Qed.

Lemma insertAt_NoDup l i x : NoDup l -> x ∉ l -> NoDup (insertAt l i x).
Proof.
  intros Hnd Hx. unfold insertAt.
  rewrite <- (take_drop i l) in Hnd, Hx.
  apply NoDup_app in Hnd as (H1 & H2 & H3).
  apply not_elem_of_app in Hx as [Hx1 Hx2].
  apply NoDup_app. split; [exact H1 | split].
  - intros z Hz Hz'. apply elem_of_cons in Hz' as [->|Hz']; [contradiction | exact (H2 z Hz Hz')].
  - apply NoDup_cons. split; assumption.
Qed.

Lemma eraseFirst_elem l x y : NoDup l -> y ∈ eraseFirst l x <-> y ∈ l /\ y <> x.
Proof. intros Hnd. rewrite <- (removeObject_eraseFirst l x Hnd). apply removeObject_elem. Qed.

Lemma eraseFirst_NoDup l x : NoDup l -> NoDup (eraseFirst l x).
Proof.
  induction 1 as [|y l Hy Hnd IH]; cbn; [constructor|].
  case_decide; [exact Hnd|].
  apply NoDup_cons. split; [| exact IH].
  intros Hin. apply (eraseFirst_elem _ _ _ Hnd) in Hin as [Hin _]. contradiction.
Qed.

Ltac store_simpl :=
  unfold update; repeat (case_decide; subst);
  cbn [_superview _reactSubviews canHaveSubviews isYogaLeafNode yogaChildren yogaOwner
       hasMeasureFunc set_superview set_reactSubviews set_yogaChildren set_yogaOwner].

(** What [YGNodeRemoveChild] writes. *)
Lemma YGNodeRemoveChild_spec t owner x :
  (forall n, _reactSubviews (YGNodeRemoveChild t owner x n) = _reactSubviews (t n) /\
             _superview (YGNodeRemoveChild t owner x n) = _superview (t n) /\
             isYogaLeafNode (YGNodeRemoveChild t owner x n) = isYogaLeafNode (t n)) /\
  (forall n, yogaChildren (YGNodeRemoveChild t owner x n) =
             if decide (n = owner) then eraseFirst (yogaChildren (t owner)) x
             else yogaChildren (t n)) /\
  (forall n, n <> x -> yogaOwner (YGNodeRemoveChild t owner x n) = yogaOwner (t n)) /\
  (x ∈ yogaChildren (t owner) ->
   (forall y, y ∈ yogaChildren (t owner) -> yogaOwner (t y) = Some owner) ->
   yogaOwner (YGNodeRemoveChild t owner x x) = None) /\
  (x ∉ yogaChildren (t owner) -> yogaOwner (YGNodeRemoveChild t owner x x) = yogaOwner (t x)).
Proof.
  unfold YGNodeRemoveChild.
  destruct (yogaChildren (t owner)) as [|first rest] eqn:Ech.
  { repeat split; try reflexivity.
    - intros n. case_decide; subst; [rewrite Ech|]; reflexivity.
    - intros H. apply elem_of_nil in H. contradiction. }
  destruct (bool_decide_reflect (x ∈ first :: rest)) as [Hin|Hnin].
  2:{ repeat split; try reflexivity.
      - intros n. case_decide; subst; [rewrite Ech, (eraseFirst_not_elem _ _ Hnin)|]; reflexivity.
      - intros H. contradiction. }
  destruct (bool_decide_reflect (yogaOwner (t first) = Some owner)) as [Hown|Hown];
    (split; [| split; [| split; [| split]]]).
  - intros n. store_simpl; auto.
  - intros n. store_simpl; rewrite ?Ech; congruence.
  - intros n Hn. store_simpl; congruence.
  - intros _ _. store_simpl; congruence.
  - intros H. contradiction.
  - intros n. store_simpl; auto.
  - intros n. store_simpl; rewrite ?Ech; congruence.
  - intros n Hn. store_simpl; congruence.
  - intros _ Hall. exfalso. apply Hown, Hall. left.
  - intros H. contradiction.
Qed.

(** What [YGNodeInsertChild] demands and writes. *)
Lemma YGNodeInsertChild_spec t owner child index t' :
  YGNodeInsertChild t owner child index = Ok t' ->
  yogaOwner (t child) = None /\
  index <= Z.of_nat (length (yogaChildren (t owner))) /\
  (forall n, _reactSubviews (t' n) = _reactSubviews (t n) /\
             _superview (t' n) = _superview (t n) /\
             isYogaLeafNode (t' n) = isYogaLeafNode (t n)) /\
  (forall n, yogaChildren (t' n) =
             if decide (n = owner)
             then insertAt (yogaChildren (t owner)) (Z.to_nat index) child
             else yogaChildren (t n)) /\
  (forall n, yogaOwner (t' n) = if decide (n = child) then Some owner else yogaOwner (t n)).
Proof.
  unfold YGNodeInsertChild.
  destruct (yogaOwner (t child)) eqn:Eo; [discriminate|].
  destruct (hasMeasureFunc (t owner)); [discriminate|].
  destruct (Z.ltb_spec (Z.of_nat (length (yogaChildren (t owner)))) index); [discriminate|].
  intros H'. injection H' as <-.
  split; [reflexivity | split; [assumption | split; [| split]]].
  - intros n. store_simpl; auto.
  - intros n. store_simpl; congruence.
  - intros n. store_simpl; congruence.
Qed.

(** What [insertReactSubview:atIndex:] demands and writes. *)
Lemma insertReactSubview_spec self subview atIndex s s' :
  insertReactSubview self subview atIndex s = Ok s' ->
  canHaveSubviews (s self) = true /\
  0 <= atIndex <= Z.of_nat (length (_reactSubviews (s self))) /\
  (forall n, isYogaLeafNode (s' n) = isYogaLeafNode (s n)) /\
  (forall n, _reactSubviews (s' n) =
             if decide (n = self)
             then insertAt (_reactSubviews (s self)) (Z.to_nat atIndex) subview
             else _reactSubviews (s n)) /\
  _superview (s' subview) = Some self /\
  (isYogaLeafNode (s self) = true ->
   forall n, yogaChildren (s' n) = yogaChildren (s n) /\ yogaOwner (s' n) = yogaOwner (s n)) /\
  (isYogaLeafNode (s self) = false ->
   yogaOwner (s subview) = None /\
   (forall n, yogaChildren (s' n) =
              if decide (n = self)
              then insertAt (yogaChildren (s self)) (Z.to_nat (uint32_of atIndex)) subview
              else yogaChildren (s n)) /\
   (forall n, yogaOwner (s' n) = if decide (n = subview) then Some self else yogaOwner (s n))).
Proof.
  unfold insertReactSubview.
  destruct (canHaveSubviews (s self)) eqn:Ec; cbn [negb]; [|discriminate].
  unfold insertObject.
  destruct (Z.leb_spec 0 atIndex); cbn [andb]; [|discriminate].
  destruct (Z.leb_spec atIndex (Z.of_nat (length (_reactSubviews (s self)))));
    [|discriminate].
  set (s1 := update s self
               (set_reactSubviews (insertAt (_reactSubviews (s self)) (Z.to_nat atIndex) subview))).
  assert (H1 : forall n,
             yogaChildren (s1 n) = yogaChildren (s n) /\
             yogaOwner (s1 n) = yogaOwner (s n) /\
             isYogaLeafNode (s1 n) = isYogaLeafNode (s n) /\
             _reactSubviews (s1 n) =
               (if decide (n = self)
                then insertAt (_reactSubviews (s self)) (Z.to_nat atIndex) subview
                else _reactSubviews (s n))).
  { intros n. subst s1. store_simpl; repeat split; congruence. }
  rewrite (proj1 (proj2 (proj2 (H1 self)))).
  destruct (isYogaLeafNode (s self)) eqn:El; cbn [negb].
  - intros H'. injection H' as <-.
    split; [reflexivity | split; [lia | split; [| split; [| split; [| split]]]]].
    + intros n. destruct (H1 n) as (_ & _ & Hl & _). rewrite <- Hl. store_simpl; congruence.
    + intros n. destruct (H1 n) as (_ & _ & _ & Hr). rewrite <- Hr. store_simpl; congruence.
    + store_simpl; congruence.
    + intros _ n. destruct (H1 n) as (Hc & Ho & _). rewrite <- Hc, <- Ho.
      store_simpl; auto.
    + discriminate.
  - destruct (YGNodeInsertChild s1 self subview (uint32_of atIndex)) as [s2|] eqn:Ey;
      [|discriminate].
    intros H'. injection H' as <-.
    apply YGNodeInsertChild_spec in Ey as (Hown & _ & Hframe & Hch & How).
    split; [reflexivity | split; [lia | split; [| split; [| split; [| split]]]]].
    + intros n. destruct (H1 n) as (_ & _ & Hl & _). destruct (Hframe n) as (_ & _ & Hl2).
      rewrite <- Hl, <- Hl2. store_simpl; congruence.
    + intros n. destruct (H1 n) as (_ & _ & _ & Hr). destruct (Hframe n) as (Hr2 & _).
      rewrite <- Hr, <- Hr2. store_simpl; congruence.
    + store_simpl; congruence.
    + discriminate.
    + intros _. split; [| split].
      * rewrite <- Hown. symmetry. apply (H1 subview).
      * intros n. rewrite <- (proj1 (H1 self)), <- (proj1 (H1 n)), <- Hch.
        store_simpl; congruence.
      * intros n. rewrite <- (proj1 (proj2 (H1 n))), <- How. store_simpl; congruence.
Qed.

(** What [removeReactSubview:] writes; it has no way to fail. *)
Lemma removeReactSubview_spec self subview s :
  exists s',
    removeReactSubview self subview s = Ok s' /\
    (forall n, isYogaLeafNode (s' n) = isYogaLeafNode (s n)) /\
    (forall n, _reactSubviews (s' n) =
               if decide (n = self) then removeObject (_reactSubviews (s self)) subview
               else _reactSubviews (s n)) /\
    _superview (s' subview) = None /\
    (isYogaLeafNode (s self) = true ->
     forall n, yogaChildren (s' n) = yogaChildren (s n) /\ yogaOwner (s' n) = yogaOwner (s n)) /\
    (isYogaLeafNode (s self) = false ->
     (forall n, yogaChildren (s' n) =
                if decide (n = self) then eraseFirst (yogaChildren (s self)) subview
                else yogaChildren (s n)) /\
     (forall n, n <> subview -> yogaOwner (s' n) = yogaOwner (s n)) /\
     (subview ∈ yogaChildren (s self) ->
      (forall y, y ∈ yogaChildren (s self) -> yogaOwner (s y) = Some self) ->
      yogaOwner (s' subview) = None) /\
     (subview ∉ yogaChildren (s self) -> yogaOwner (s' subview) = yogaOwner (s subview))).
Proof.
  unfold removeReactSubview.
  set (s2 := update (update s subview (set_superview None)) self
               (fun o => set_reactSubviews (removeObject (_reactSubviews o) subview) o)).
  assert (H2 : forall n,
             yogaChildren (s2 n) = yogaChildren (s n) /\
             yogaOwner (s2 n) = yogaOwner (s n) /\
             isYogaLeafNode (s2 n) = isYogaLeafNode (s n) /\
             _reactSubviews (s2 n) =
               (if decide (n = self) then removeObject (_reactSubviews (s self)) subview
                else _reactSubviews (s n)) /\
             _superview (s2 subview) = None).
  { intros n. subst s2. store_simpl; repeat split; congruence. }
  rewrite (proj1 (proj2 (proj2 (H2 self)))).
  destruct (isYogaLeafNode (s self)) eqn:El; cbn [negb].
  - exists s2. split; [reflexivity | split; [| split; [| split; [| split]]]].
    + intros n. apply (H2 n).
    + intros n. apply (H2 n).
    + apply (H2 subview).
    + intros _ n. split; apply (H2 n).
    + discriminate.
  - exists (YGNodeRemoveChild s2 self subview).
    destruct (YGNodeRemoveChild_spec s2 self subview) as (Hframe & Hch & Hne & Hin & Hnin).
    split; [reflexivity | split; [| split; [| split; [| split]]]].
    + intros n. rewrite (proj2 (proj2 (Hframe n))). apply (H2 n).
    + intros n. rewrite (proj1 (Hframe n)). apply (H2 n).
    + rewrite (proj1 (proj2 (Hframe subview))). apply (H2 subview).
    + discriminate.
    + intros _. split; [| split; [| split]].
      * intros n. rewrite Hch, (proj1 (H2 self)), (proj1 (H2 n)). reflexivity.
      * intros n Hn. rewrite (Hne n Hn). apply (H2 n).
      * intros Hmem Hall. rewrite (proj1 (H2 self)) in Hin. apply Hin; [exact Hmem|].
        intros y Hy. rewrite (proj1 (proj2 (H2 y))). exact (Hall y Hy).
      * intros Hmem. rewrite (proj1 (H2 self)) in Hnin. rewrite (Hnin Hmem).
        apply (H2 subview).
Qed.

Lemma uint32_of_small i : 0 <= i < 2 ^ 32 -> uint32_of i = i.
Proof. intros H. unfold uint32_of. apply Z.mod_small. exact H. Qed.

(** One mutation keeps the solver consistent and the mirroring in place,
    and never changes the class of a view. *)
Lemma apply_preserves m s s' :
  solverConsistent s -> mirrors s -> indexFits m -> apply m s = Ok s' ->
  solverConsistent s' /\ mirrors s' /\
  (forall n, isYogaLeafNode (s' n) = isYogaLeafNode (s n)).
Proof.
  intros Hcons Hmir Hfit Happ. destruct m as [self subview atIndex | self subview].
  - cbn in Happ, Hfit.
    apply insertReactSubview_spec in Happ as (_ & Hidx & Hleaf & Hrs & _ & Hl & Hnl).
    destruct (isYogaLeafNode (s self)) eqn:El.
    + specialize (Hl eq_refl). clear Hnl.
      split; [| split; [| exact Hleaf]].
      * intros n. destruct (Hl n) as [Hc _]. rewrite Hc.
        destruct (Hcons n) as [Hnd Hown]. split; [exact Hnd|].
        intros x Hx. rewrite (proj2 (Hl x)). exact (Hown x Hx).
      * intros n Hn. rewrite Hleaf in Hn. rewrite (proj1 (Hl n)), Hrs.
        case_decide; [congruence | exact (Hmir n Hn)].
    + destruct (Hnl eq_refl) as (Hfree & Hch & How). clear Hl Hnl.
      rewrite (uint32_of_small atIndex) in Hch by lia.
      assert (Hnot : forall n, subview ∉ yogaChildren (s n)).
      { intros n Hin. destruct (Hcons n) as [_ Hown].
        rewrite (Hown _ Hin) in Hfree. discriminate. }
      split; [| split; [| exact Hleaf]].
      * intros n. rewrite Hch. destruct (Hcons n) as [Hnd Hown].
        case_decide as Hn; [subst n; split|split].
        -- apply insertAt_NoDup; [exact Hnd | apply Hnot].
        -- intros x Hx. rewrite How. case_decide; [reflexivity|].
           apply insertAt_elem in Hx as [Hx|Hx]; [contradiction | exact (Hown x Hx)].
        -- exact Hnd.
        -- intros x Hx. rewrite How. case_decide as Hxs; [| exact (Hown x Hx)].
           subst x. exfalso. exact (Hnot n Hx).
      * intros n Hn. rewrite Hleaf in Hn. rewrite Hch, Hrs.
        case_decide as Hns; [subst n; rewrite (Hmir self Hn); reflexivity | exact (Hmir n Hn)].
  - cbn in Happ.
    destruct (removeReactSubview_spec self subview s)
      as (s2 & Hrun & Hleaf & Hrs & _ & Hl & Hnl).
    rewrite Hrun in Happ. injection Happ as <-.
    destruct (isYogaLeafNode (s self)) eqn:El.
    + specialize (Hl eq_refl). clear Hnl.
      split; [| split; [| exact Hleaf]].
      * intros n. destruct (Hl n) as [Hc _]. rewrite Hc.
        destruct (Hcons n) as [Hnd Hown]. split; [exact Hnd|].
        intros x Hx. rewrite (proj2 (Hl x)). exact (Hown x Hx).
      * intros n Hn. rewrite Hleaf in Hn. rewrite (proj1 (Hl n)), Hrs.
        case_decide; [congruence | exact (Hmir n Hn)].
    + destruct (Hnl eq_refl) as (Hch & Hother & Hin & Hnin). clear Hl Hnl.
      destruct (Hcons self) as [Hnds Howns].
      split; [| split; [| exact Hleaf]].
      * intros n. rewrite Hch. destruct (Hcons n) as [Hnd Hown].
        case_decide as Hn; [subst n; split|split].
        -- apply eraseFirst_NoDup, Hnd.
        -- intros x Hx. apply (eraseFirst_elem _ _ _ Hnd) in Hx as [Hx Hne].
           rewrite (Hother x Hne). exact (Hown x Hx).
        -- exact Hnd.
        -- intros x Hx. destruct (decide (x = subview)) as [->|Hne].
           ++ destruct (decide (subview ∈ yogaChildren (s self))) as [Hmem|Hmem].
              ** pose proof (Howns _ Hmem) as H1. pose proof (Hown _ Hx) as H2.
                 congruence.
              ** rewrite (Hnin Hmem). exact (Hown _ Hx).
           ++ rewrite (Hother x Hne). exact (Hown x Hx).
      * intros n Hn. rewrite Hleaf in Hn. rewrite Hch, Hrs.
        case_decide as Hns; [| exact (Hmir n Hn)].
        subst n. rewrite <- (Hmir self Hn). symmetry.
        apply removeObject_eraseFirst, Hnds.
Qed.

Lemma run_preserves ms : forall s s',
  solverConsistent s -> mirrors s -> Forall indexFits ms -> run ms s = Ok s' ->
  solverConsistent s' /\ mirrors s' /\
  (forall n, isYogaLeafNode (s' n) = isYogaLeafNode (s n)).
Proof.
  induction ms as [|m ms IH]; intros s s' Hcons Hmir Hfit Hrun; cbn in Hrun.
  - injection Hrun as <-. auto.
  - destruct (apply m s) as [s1|] eqn:E1; [|discriminate].
    apply Forall_cons in Hfit as [Hm Hms].
    destruct (apply_preserves m s s1 Hcons Hmir Hm E1) as (Hc1 & Hm1 & Hl1).
    destruct (IH s1 s' Hc1 Hm1 Hms Hrun) as (Hc2 & Hm2 & Hl2).
    split; [exact Hc2 | split; [exact Hm2|]].
    intros n. rewrite Hl2. apply Hl1.
Qed.

Lemma fresh_consistent yogaLeaf : solverConsistent (fresh yogaLeaf) /\ mirrors (fresh yogaLeaf).
Proof.
  split.
  - intros n. split; [constructor|]. intros x Hx. apply elem_of_nil in Hx. contradiction.
  - intros n _. reflexivity.
Qed.

(** A view of a class that is a solver leaf takes subviews that the
    solver never hears of. *)
Lemma C8_solver_leaf_not_mirrored :
  exists s',
    run [Insert 0%nat 1%nat 0] freshWithLeaf0 = Ok s' /\
    _reactSubviews (s' 0%nat) = [1%nat] /\
    yogaChildren (s' 0%nat) = [] /\
    ~ mirrorsEverywhere s'.
Proof.
  eexists. split; [reflexivity | split; [reflexivity | split; [reflexivity |]]].
  intros H. specialize (H 0%nat). vm_compute in H. discriminate H.
Qed.

(** A mutation sent to a solver leaf does not reach the solver. *)
Lemma apply_to_solver_leaf m s s' :
  apply m s = Ok s' -> isYogaLeafNode (s (receiver m)) = true ->
  forall n, yogaChildren (s' n) = yogaChildren (s n) /\ yogaOwner (s' n) = yogaOwner (s n).
Proof.
  intros Happ Hleaf. destruct m as [self subview atIndex | self subview]; cbn in Happ, Hleaf.
  - destruct (insertReactSubview_spec _ _ _ _ _ Happ) as (_ & _ & _ & _ & _ & Hl & _).
    exact (Hl Hleaf).
  - destruct (removeReactSubview_spec self subview s) as (s2 & Hrm & _ & _ & _ & Hl & _).
    rewrite Happ in Hrm. injection Hrm as <-. exact (Hl Hleaf).
Qed.

(** The solver's child list of a solver leaf is out of reach of every
    mutation, whoever receives it. *)
Lemma apply_keeps_solver_leaves m s s' :
  apply m s = Ok s' ->
  (forall n, isYogaLeafNode (s' n) = isYogaLeafNode (s n)) /\
  (forall n, isYogaLeafNode (s n) = true -> yogaChildren (s' n) = yogaChildren (s n)).
Proof.
  intros Happ. destruct m as [self subview atIndex | self subview]; cbn in Happ.
  - destruct (insertReactSubview_spec _ _ _ _ _ Happ) as (_ & _ & Hleaf & _ & _ & Hl & Hn).
    split; [exact Hleaf |]. intros n Hnl.
    destruct (isYogaLeafNode (s self)) eqn:Es; [exact (proj1 (Hl eq_refl n)) |].
    destruct (Hn eq_refl) as (_ & Hc & _). rewrite Hc.
    case_decide as Hd; [subst n; congruence | reflexivity].
  - destruct (removeReactSubview_spec self subview s) as (s2 & Hrm & Hleaf & _ & _ & Hl & Hn).
    rewrite Happ in Hrm. injection Hrm as <-.
    split; [exact Hleaf |]. intros n Hnl.
    destruct (isYogaLeafNode (s self)) eqn:Es; [exact (proj1 (Hl eq_refl n)) |].
    destruct (Hn eq_refl) as (Hc & _). rewrite Hc.
    case_decide as Hd; [subst n; congruence | reflexivity].
Qed.

Lemma run_keeps_solver_leaves ms : forall s s',
  run ms s = Ok s' ->
  forall n, isYogaLeafNode (s n) = true ->
            isYogaLeafNode (s' n) = true /\ yogaChildren (s' n) = yogaChildren (s n).
Proof.
  induction ms as [|m ms IH]; intros s s' Hrun n Hn; cbn in Hrun.
  - injection Hrun as <-. auto.
  - destruct (apply m s) as [s1|] eqn:E1; [| discriminate].
    destruct (apply_keeps_solver_leaves m s s1 E1) as [Hl Hc].
    destruct (IH s1 s' Hrun n) as [H1 H2]; [rewrite Hl; exact Hn |].
    split; [exact H1 | rewrite H2; apply Hc, Hn].
Qed.

(** C8 (as amended).  Starting from a store whose solver side is
    consistent and mirrors the views, after every sequence of insertions
    and removals that runs to its end, with indices that fit the solver's
    32-bit index, the solver's child list of every view that is not a
    solver leaf is equal, element by element and in order, to the view's
    list of subviews.  For a view that is a solver leaf, insertion and
    removal leave the solver's child list alone: the solver's child list
    of a solver leaf is after the sequence what it was before it, and an
    insertion into or a removal from a solver leaf changes no solver
    child list and no solver owner at all. *)
Theorem C8_mirroring_outside_solver_leaves (ms : list Mutation) (s s' : Store)
    (Hcons : solverConsistent s) (Hmir : mirrors s)
    (Hfit : Forall indexFits ms) (Hrun : run ms s = Ok s') :
  (forall n : ref,
      isYogaLeafNode (s' n) = false -> yogaChildren (s' n) = _reactSubviews (s' n)) /\
  (forall n : ref,
      isYogaLeafNode (s n) = true ->
      isYogaLeafNode (s' n) = true /\ yogaChildren (s' n) = yogaChildren (s n)) /\
  (forall (m : Mutation) (t t' : Store),
      apply m t = Ok t' -> isYogaLeafNode (t (receiver m)) = true ->
      forall n : ref,
        yogaChildren (t' n) = yogaChildren (t n) /\ yogaOwner (t' n) = yogaOwner (t n)).
Proof.
  split; [exact (proj1 (proj2 (run_preserves ms s s' Hcons Hmir Hfit Hrun))) |].
  split; [exact (run_keeps_solver_leaves ms s s' Hrun) |].
  intros m t t'. apply apply_to_solver_leaf.
Qed.

Lemma C8_mirroring_witness :
  exists s',
    run history freshWithLeaf0 = Ok s' /\
    yogaChildren (s' 2%nat) = [1%nat] /\
    _reactSubviews (s' 0%nat) = [2%nat] /\
    yogaChildren (s' 0%nat) = [] /\
    (forall n : ref,
        isYogaLeafNode (s' n) = false -> yogaChildren (s' n) = _reactSubviews (s' n)) /\
    (forall n : ref,
        isYogaLeafNode (freshWithLeaf0 n) = true ->
        isYogaLeafNode (s' n) = true /\ yogaChildren (s' n) = yogaChildren (freshWithLeaf0 n)).
Proof.
  assert (Hread :
    match run history freshWithLeaf0 with
    | Ok t => yogaChildren (t 2%nat) = [1%nat] /\ _reactSubviews (t 0%nat) = [2%nat] /\
              yogaChildren (t 0%nat) = []
    | Raised _ => False
    end) by (vm_compute; repeat split; reflexivity).
  destruct (run history freshWithLeaf0) as [s'|f] eqn:Hrun; [| destruct Hread].
  destruct Hread as (R1 & R2 & R3).
  exists s'. split; [reflexivity | split; [exact R1 | split; [exact R2 | split; [exact R3 |]]]].
  assert (Hfit : Forall indexFits history) by (unfold history; repeat constructor).
  destruct (C8_mirroring_outside_solver_leaves history freshWithLeaf0 s'
              (proj1 (fresh_consistent _)) (proj2 (fresh_consistent _)) Hfit Hrun)
    as (H1 & H2 & _).
  split; [exact H1 | exact H2].
Defined.

(** Removing a view from a parent it is not under comes back normally:
    view 1 is under view 2, it is removed from view 0, the message
    succeeds, and view 1 stays in view 2's list with its back-reference
    cleared. *)
Lemma C9_removing_a_stranger_succeeds :
  exists s1 s2,
    run [Insert 2%nat 1%nat 0] freshBase = Ok s1 /\
    (1%nat ∉ _reactSubviews (s1 0%nat)) /\
    removeReactSubview 0%nat 1%nat s1 = Ok s2 /\
    _reactSubviews (s2 2%nat) = [1%nat] /\
    _superview (s2 1%nat) = None.
Proof.
  eexists _, _. split; [reflexivity | split; [| split; [reflexivity | split; reflexivity]]].
  apply not_elem_of_nil.
Qed.

(** C9 (as amended).  [removeReactSubview:] has no failure path.  In
    every case it clears the back-reference of the view it is given and
    removes every occurrence of that view from the receiver's list of
    subviews, and, unless the receiver is a solver leaf, erases the view
    from the receiver's solver children, which detaches the solver link
    of a child.  Given a view that is not a subview it comes back
    normally, the receiver's list as it was, and so is the receiver's
    solver child list if the view is not in it. *)
Theorem C9_remove_has_no_failure_path (self subview : ref) (s : Store) :
  exists s',
    removeReactSubview self subview s = Ok s' /\
    _superview (s' subview) = None /\
    _reactSubviews (s' self) = removeObject (_reactSubviews (s self)) subview /\
    (subview ∉ _reactSubviews (s' self)) /\
    (subview ∉ _reactSubviews (s self) -> _reactSubviews (s' self) = _reactSubviews (s self)) /\
    yogaChildren (s' self) =
      (if isYogaLeafNode (s self) then yogaChildren (s self)
       else eraseFirst (yogaChildren (s self)) subview) /\
    (subview ∉ yogaChildren (s self) -> yogaChildren (s' self) = yogaChildren (s self)) /\
    (isYogaLeafNode (s self) = false ->
     NoDup (yogaChildren (s self)) ->
     (forall y, y ∈ yogaChildren (s self) -> yogaOwner (s y) = Some self) ->
     subview ∈ yogaChildren (s self) ->
     (subview ∉ yogaChildren (s' self)) /\ yogaOwner (s' subview) = None).
Proof.
  destruct (removeReactSubview_spec self subview s) as (s' & Hrun & _ & Hrs & Hsv & Hl & Hnl).
  exists s'. split; [exact Hrun | split; [exact Hsv |]].
  assert (Hrs' : _reactSubviews (s' self) = removeObject (_reactSubviews (s self)) subview).
  { rewrite Hrs, decide_True; reflexivity. }
  assert (Hyc : yogaChildren (s' self) =
                (if isYogaLeafNode (s self) then yogaChildren (s self)
                 else eraseFirst (yogaChildren (s self)) subview)).
  { destruct (isYogaLeafNode (s self)).
    - apply (Hl eq_refl self).
    - destruct (Hnl eq_refl) as (Hch & _). rewrite Hch, decide_True; reflexivity. }
  split; [exact Hrs' | split; [| split; [| split; [exact Hyc | split]]]].
  - rewrite Hrs'. intros Hin. apply removeObject_elem in Hin as [_ Hne]. congruence.
  - intros Hnin. rewrite Hrs'. apply removeObject_not_elem, Hnin.
  - intros Hnin. rewrite Hyc. destruct (isYogaLeafNode (s self)); [reflexivity|].
    apply eraseFirst_not_elem, Hnin.
  - intros El Hnd Hown Hin. rewrite El in Hyc. split.
    + rewrite Hyc. intros Hin'. apply (eraseFirst_elem _ _ _ Hnd) in Hin' as [_ Hne]. congruence.
    + destruct (Hnl El) as (_ & _ & Hgone & _). exact (Hgone Hin Hown).
Qed.

End TopologyFacts.

(** ** Measuring a view on the side *)

Module StandaloneFacts.
Import Layout Standalone.

Section Purity.
Variable Y : Yoga.
Hypothesis contract : YogaContract Y.

(** The heap at the time of the call, and what the committed tree needs
    of a later heap. *)
Variable h0 : heap Y.
Hypothesis closed : ownersLive Y h0.

Lemma untouched_live h k : untouched Y h0 h -> live Y h0 k -> live Y h k.
Proof. intros Hu Hk. unfold live. rewrite (proj1 (Hu k Hk)). exact Hk. Qed.

(** Owners of committed nodes are committed nodes, so a chain of owners
    that starts in the committed tree stays in it. *)
Lemma reaches_stays h k r : untouched Y h0 h -> reaches Y h k r -> live Y h0 k -> live Y h0 r.
Proof.
  intros Hu Hreach. induction Hreach as [k | k p r Hown _ IH]; intros Hk; [exact Hk|].
  apply IH. apply (closed k p Hk). rewrite <- (proj2 (Hu k Hk)). exact Hown.
Qed.

Lemma reaches_from_root h r k : YGNodeGetOwner Y h r = None -> reaches Y h r k -> k = r.
Proof. intros Hnone Hreach. inversion Hreach; subst; [reflexivity | congruence]. Qed.

Lemma untouched_clone x h : untouched Y h0 h -> untouched Y h0 (snd (YGNodeClone Y x h)).
Proof.
  intros Hu k Hk. destruct (clone_writes Y contract x h k) as (_ & _ & Hw).
  destruct (Hw (untouched_live h k Hu Hk)) as [Hl Ho]. rewrite Hl, Ho. exact (Hu k Hk).
Qed.

Lemma untouched_new h : untouched Y h0 h -> untouched Y h0 (snd (YGNodeNewWithConfig Y h)).
Proof.
  intros Hu k Hk. destruct (new_writes Y contract h k) as (_ & _ & Hw).
  destruct (Hw (untouched_live h k Hu Hk)) as [Hl Ho]. rewrite Hl, Ho. exact (Hu k Hk).
Qed.

Lemma untouched_insert owner child index h :
  untouched Y h0 h -> ~ live Y h0 owner -> ~ live Y h0 child -> YGNodeGetOwner Y h owner = None ->
  untouched Y h0 (YGNodeInsertChild Y owner child index h).
Proof.
  intros Hu Howner Hchild Hroot k Hk.
  assert (Hne : k <> child) by (intros ->; contradiction).
  destruct (insert_writes Y contract owner child index h k Hne) as [Ho Hl].
  rewrite Ho, Hl; [exact (Hu k Hk)|].
  intros Hreach. apply (reaches_from_root h owner k Hroot) in Hreach. subst k. contradiction.
Qed.

Lemma untouched_remove owner child h :
  untouched Y h0 h -> ~ live Y h0 owner -> ~ live Y h0 child -> YGNodeGetOwner Y h owner = None ->
  untouched Y h0 (YGNodeRemoveChild Y owner child h).
Proof.
  intros Hu Howner Hchild Hroot k Hk.
  assert (Hne : k <> child) by (intros ->; contradiction).
  destruct (remove_writes Y contract owner child h k Hne) as [Ho Hl].
  rewrite Ho, Hl; [exact (Hu k Hk)|].
  intros Hreach. apply (reaches_from_root h owner k Hroot) in Hreach. subst k. contradiction.
Qed.

Lemma untouched_style which node v h :
  untouched Y h0 h -> ~ live Y h0 node -> YGNodeGetOwner Y h node = None ->
  untouched Y h0 (YGNodeStyleSet Y which node v h) /\
  YGNodeGetOwner Y (YGNodeStyleSet Y which node v h) node = None.
Proof.
  intros Hu Hnode Hroot. split.
  - intros k Hk. destruct (style_writes Y contract which node v h k) as [Ho Hl].
    rewrite Ho, Hl; [exact (Hu k Hk)|].
    intros Hreach. apply (reaches_from_root h node k Hroot) in Hreach. subst k. contradiction.
  - rewrite (proj1 (style_writes Y contract which node v h node)). exact Hroot.
Qed.

Lemma untouched_calculate root w hh d h :
  untouched Y h0 h -> ~ live Y h0 root ->
  untouched Y h0 (YGNodeCalculateLayout Y root w hh d h).
Proof.
  intros Hu Hroot k Hk.
  destruct (calculate_writes Y contract root w hh d h k) as [_ Hw].
  destruct (Hw (untouched_live h k Hu Hk)) as [Hl Ho].
  - intros Hreach. apply Hroot. exact (reaches_stays h k root Hu Hreach Hk).
  - rewrite Hl, Ho. exact (Hu k Hk).
Qed.

End Purity.

(** C7.  Under the solver library's contract, and on a heap in which no
    live node has a dead owner, [sizeThatFitsMinimumSize:maximumSize:]
    leaves the world as it found it: the views and the metrics they store,
    the affected set, and the state (dirty flag, has-new-layout marker,
    computed frame) of every solver node that was live at the call. *)
Theorem C7_standalone_measure_is_pure (Y : Yoga)
    (RCTYogaFloatFromCoreGraphicsFloat : CGFloat -> float)
    (RCTCoreGraphicsFloatFromYogaFloat : float -> CGFloat)
    (RCTYogaLayoutDirectionFromUIKitLayoutDirection :
       UIUserInterfaceLayoutDirection -> YGDirection)
    (contract : YogaContract Y)
    (self : nat) (minimumSize maximumSize : CGSize) (w : World Y)
    (closed : ownersLive Y (solver w)) :
  let w' :=
    snd (sizeThatFitsMinimumSize Y RCTYogaFloatFromCoreGraphicsFloat
           RCTCoreGraphicsFloatFromYogaFloat RCTYogaLayoutDirectionFromUIKitLayoutDirection
           self minimumSize maximumSize w) in
  views w' = views w /\
  affectedShadowViews w' = affectedShadowViews w /\
  forall k, live Y (solver w) k -> look Y (solver w') k = look Y (solver w) k.
Proof.
  unfold sizeThatFitsMinimumSize.
  set (h0 := solver w) in *.
  pose proof (clone_writes Y contract (yogaNode (views w self)) h0) as Hclone.
  destruct (YGNodeClone Y (yogaNode (views w self)) h0) as [cloned h1] eqn:E1.
  cbn [fst snd] in Hclone.
  pose proof (new_writes Y contract h1) as Hnew.
  destruct (YGNodeNewWithConfig Y h1) as [constraint h2] eqn:E2.
  cbn [fst snd] in Hnew. cbn [snd views affectedShadowViews solver].
  split; [reflexivity | split; [reflexivity |]].
  destruct (Hclone 0%nat) as (Hcfresh & Hclive & _).
  destruct (Hnew 0%nat) as (Hrfresh & Hrroot & _).
  assert (U0 : untouched Y h0 h0) by (intros k _; split; reflexivity).
  assert (U1 : untouched Y h0 h1).
  { pose proof (untouched_clone Y contract h0 (yogaNode (views w self)) h0 U0) as H.
    rewrite E1 in H. exact H. }
  assert (U2 : untouched Y h0 h2).
  { pose proof (untouched_new Y contract h0 h1 U1) as H. rewrite E2 in H. exact H. }
  assert (Hc0 : ~ live Y h0 cloned) by (intros H; exact (H Hcfresh)).
  assert (Hr0 : ~ live Y h0 constraint).
  { intros H. apply (untouched_live Y h0 h1 constraint U1 H). exact Hrfresh. }
  assert (Hne : constraint <> cloned) by (intros ->; exact (Hclive Hrfresh)).
  set (h3 := YGNodeInsertChild Y constraint cloned 0 h2).
  assert (U3 : untouched Y h0 h3)
    by (apply untouched_insert; assumption).
  assert (R3 : YGNodeGetOwner Y h3 constraint = None).
  { unfold h3. rewrite (proj1 (insert_writes Y contract constraint cloned 0 h2 constraint Hne)).
    exact Hrroot. }
  set (h4 := YGNodeStyleSet Y MinWidth constraint _ h3).
  destruct (untouched_style Y contract h0 MinWidth constraint
              (RCTYogaFloatFromCoreGraphicsFloat (sz_width minimumSize)) h3 U3 Hr0 R3)
    as [U4 R4]. fold h4 in U4, R4.
  set (h5 := YGNodeStyleSet Y MinHeight constraint _ h4).
  destruct (untouched_style Y contract h0 MinHeight constraint
              (RCTYogaFloatFromCoreGraphicsFloat (sz_height minimumSize)) h4 U4 Hr0 R4)
    as [U5 R5]. fold h5 in U5, R5.
  set (h6 := YGNodeStyleSet Y MaxWidth constraint _ h5).
  destruct (untouched_style Y contract h0 MaxWidth constraint
              (RCTYogaFloatFromCoreGraphicsFloat (sz_width maximumSize)) h5 U5 Hr0 R5)
    as [U6 R6]. fold h6 in U6, R6.
  set (h7 := YGNodeStyleSet Y MaxHeight constraint _ h6).
  destruct (untouched_style Y contract h0 MaxHeight constraint
              (RCTYogaFloatFromCoreGraphicsFloat (sz_height maximumSize)) h6 U6 Hr0 R6)
    as [U7 R7]. fold h7 in U7, R7.
  set (h8 := YGNodeCalculateLayout Y constraint _ _ _ h7).
  assert (U8 : untouched Y h0 h8)
    by (apply untouched_calculate; assumption).
  assert (R8 : YGNodeGetOwner Y h8 constraint = None).
  { unfold h8. rewrite (proj1 (calculate_writes Y contract constraint _ _ _ h7 constraint)).
    exact R7. }
  set (h9 := YGNodeRemoveChild Y constraint cloned h8).
  assert (U9 : untouched Y h0 h9)
    by (apply untouched_remove; assumption).
  intros k Hk.
  rewrite (free_writes Y contract cloned _ k) by (intros ->; contradiction).
  rewrite (free_writes Y contract constraint _ k) by (intros ->; contradiction).
  exact (proj1 (U9 k Hk)).
Qed.

(** *** The example heap keeps the contract *)

Lemma cellAt_end h : cellAt h (length h) = None.
Proof. unfold cellAt. rewrite lookup_ge_None_2; [reflexivity | lia]. Qed.

Lemma cellAt_app_end h c : cellAt (h ++ [c]) (length h) = c.
Proof.
  unfold cellAt. rewrite lookup_app_r by lia. rewrite Nat.sub_diag. reflexivity.
Qed.

Lemma cellAt_app h c k : cellAt h k <> None -> cellAt (h ++ [c]) k = cellAt h k.
Proof.
  unfold cellAt. destruct (h !! k) as [x|] eqn:E; [| congruence].
  intros _. rewrite (lookup_app_l_Some _ _ _ _ E). reflexivity.
Qed.

Lemma cellAt_write f i h k :
  cellAt (writeCell f i h) k = if decide (k = i) then f <$> cellAt h k else cellAt h k.
Proof.
  unfold cellAt, writeCell. case_decide as Hk.
  - subst k. rewrite list_lookup_alter_eq. destruct (h !! i) as [[c|]|]; reflexivity.
  - rewrite list_lookup_alter_ne by congruence. reflexivity.
Qed.

Lemma cellAt_free i h k : k <> i -> cellAt (<[i := None]> h) k = cellAt h k.
Proof. intros Hk. unfold cellAt. rewrite list_lookup_insert_ne by congruence. reflexivity. Qed.

Lemma live_cells h k : live cells h k -> cellAt h k <> None.
Proof. unfold live. cbn. destruct (cellAt h k); [discriminate | intros H; contradiction]. Qed.

Lemma cells_contract : YogaContract cells.
Proof.
  split.
  - intros x h k. cbn [fst snd look YGNodeGetOwner YGNodeClone cells].
    split; [rewrite cellAt_end; reflexivity | split].
    + unfold live. cbn. rewrite cellAt_app_end. discriminate.
    + intros Hk. rewrite (cellAt_app _ _ _ (live_cells _ _ Hk)). split; reflexivity.
  - intros h k. cbn [fst snd look YGNodeGetOwner YGNodeNewWithConfig cells].
    split; [rewrite cellAt_end; reflexivity | split].
    + rewrite cellAt_app_end. reflexivity.
    + intros Hk. rewrite (cellAt_app _ _ _ (live_cells _ _ Hk)). split; reflexivity.
  - intros owner child index h k Hne. cbn [look YGNodeGetOwner YGNodeInsertChild cells].
    rewrite !cellAt_write. rewrite decide_False by exact Hne. split.
    + case_decide; [destruct (cellAt h k); reflexivity | reflexivity].
    + intros Hreach. rewrite decide_False; [reflexivity|].
      intros ->. apply Hreach. constructor.
  - intros owner child h k Hne. cbn [look YGNodeGetOwner YGNodeRemoveChild cells].
    rewrite !cellAt_write. rewrite decide_False by exact Hne. split.
    + case_decide; [destruct (cellAt h k); reflexivity | reflexivity].
    + intros Hreach. rewrite decide_False; [reflexivity|].
      intros ->. apply Hreach. constructor.
  - intros which node v h k. cbn [look YGNodeGetOwner YGNodeStyleSet cells].
    rewrite !cellAt_write. split.
    + case_decide; [destruct (cellAt h k); reflexivity | reflexivity].
    + intros Hreach. rewrite decide_False; [reflexivity|].
      intros ->. apply Hreach. constructor.
  - intros root w hh d h k. cbn [look YGNodeGetOwner YGNodeCalculateLayout cells].
    rewrite !cellAt_write. split.
    + rewrite decide_True by reflexivity. destruct (cellAt h root); reflexivity.
    + intros _ Hreach. rewrite decide_False; [split; reflexivity|].
      intros ->. apply Hreach. constructor.
  - intros node h k Hne. cbn [look YGNodeFree cells].
    rewrite (cellAt_free _ _ _ Hne). reflexivity.
Qed.

Lemma committed_ownersLive : ownersLive cells (solver committed).
Proof.
  intros k p Hk Hown. destruct k as [|[|k]].
  - discriminate Hown.
  - injection Hown as <-. discriminate.
  - exfalso. apply Hk. reflexivity.
Qed.

Lemma C7_standalone_measure_witness :
  let minimumSize := {| sz_width := 0; sz_height := 0 |} in
  let maximumSize := {| sz_width := 320; sz_height := 480 |} in
  let result :=
    sizeThatFitsMinimumSize cells floatOfCG cgOfFloat yogaDirection 0%nat
      minimumSize maximumSize committed in
  solver (snd result) = solver committed ++ [None; None] /\
  views (snd result) = views committed /\
  affectedShadowViews (snd result) = affectedShadowViews committed /\
  forall k, live cells (solver committed) k ->
            look cells (solver (snd result)) k = look cells (solver committed) k.
Proof.
  intros minimumSize maximumSize result. split; [reflexivity|].
  exact (C7_standalone_measure_is_pure cells floatOfCG cgOfFloat yogaDirection
           cells_contract 0%nat minimumSize maximumSize committed committed_ownersLive).
Defined.

End StandaloneFacts.

(** ** More about the traversal *)

Module TraversalFacts.
Import MetaProps Layout LayoutFacts Traversal.

Lemma descendantTags_eq v :
  descendantTags v = reactTag v :: flat_map descendantTags (reactSubviews v).
Proof. destruct v; reflexivity. Qed.

(** X1.  The hit test answers with the tag of the view it is asked or of
    a view below it, whatever the frames and the point are. *)
Theorem hit_test_stays_in_the_tree (CGRectContainsPoint : CGRect -> CGPoint -> bool)
    (self : RCTShadowView) :
  forall point : CGPoint,
    reactTagAtPoint CGRectContainsPoint self point ∈ descendantTags self.
Proof.
  induction self as [tag m node subviews IH] using RCTShadowView_ind.
  intros point. cbn [reactTagAtPoint descendantTags].
  induction IH as [|c cs Hc _ IHcs]; cbn [flat_map].
  - apply elem_of_cons. left. reflexivity.
  - destruct (CGRectContainsPoint (frame (layoutMetrics c)) point).
    + apply elem_of_cons. right. apply elem_of_app. left. apply Hc.
    + apply elem_of_cons in IHcs as [Heq|Hin].
      * rewrite Heq. apply elem_of_cons. left. reflexivity.
      * apply elem_of_cons. right. apply elem_of_app. right. exact Hin.
Qed.

(** X2.  [layoutSubviewsWithContext:] writes has-new-layout markers and
    stored metrics below the view and nothing else: the view itself (tag,
    stored metrics, solver node) comes back as it was, and so do, in the
    whole tree, the tags, the shape, the dirty flags, the geometry the
    solver computed and the minimum-size style. *)
Theorem traversal_writes_markers_and_metrics_only (self self' : RCTShadowView)
    (layoutContext : RCTLayoutContext) (st st' : PassState)
    (Hrun : layoutSubviewsWithContext self layoutContext st = Done (self', st')) :
  reactTag self' = reactTag self /\
  layoutMetrics self' = layoutMetrics self /\
  yogaNode self' = yogaNode self /\
  solverState self' = solverState self.
Proof.
  pose proof (layoutSubviewsWithContext_solverState _ _ _ _ _ Hrun) as Hss.
  apply layoutSubviewsWithContext_settles in Hrun as (Hy & Hm & Ht & _).
  auto.
Qed.

Lemma traversal_writes_witness :
  exists self' st',
    layoutSubviewsWithContext rootSiblingFirst atOrigin emptyPass = Done (self', st') /\
    yogaNode self' = yogaNode rootSiblingFirst /\
    solverState self' = solverState rootSiblingFirst.
Proof.
  eexists _, _. split; [reflexivity|].
  destruct (traversal_writes_markers_and_metrics_only rootSiblingFirst _ atOrigin emptyPass _
              eq_refl) as (_ & _ & Hy & Hs).
  split; [exact Hy | exact Hs].
Defined.

(** X3.  A traversal that came back has nothing left to do: run again on
    its result, from any context and pass state, it returns the same tree
    and the same pass state (no message sent, no view registered). *)
Theorem traversal_is_idempotent (self self' : RCTShadowView)
    (layoutContext : RCTLayoutContext) (st st' : PassState)
    (Hrun : layoutSubviewsWithContext self layoutContext st = Done (self', st')) :
  forall (layoutContext2 : RCTLayoutContext) (st2 : PassState),
    layoutSubviewsWithContext self' layoutContext2 st2 = Done (self', st2).
Proof. apply layoutSubviewsWithContext_settles in Hrun as (_ & _ & _ & H). exact H. Qed.

Lemma traversal_is_idempotent_witness :
  exists self' st',
    layoutSubviewsWithContext rootSiblingFirst atOrigin emptyPass = Done (self', st') /\
    affectedShadowViews st' = [2; 3; 4] /\
    layoutSubviewsWithContext self' atOrigin emptyPass = Done (self', emptyPass).
Proof.
  eexists _, _. split; [reflexivity | split; [reflexivity|]].
  apply (traversal_is_idempotent rootSiblingFirst _ atOrigin emptyPass _ eq_refl).
Defined.

(** X4.  A dirty solver node directly under a visible view aborts the
    traversal of that view, wherever the subview stands in the list and
    whether or not it carries new layout. *)
Theorem dirty_subview_aborts (self c : RCTShadowView)
    (layoutContext : RCTLayoutContext) (st : PassState)
    (Hvisible : displayType (layoutMetrics self) <> RCTDisplayTypeNone)
    (Hin : c ∈ reactSubviews self)
    (Hdirty : isDirty (yogaNode c) = true) :
  layoutSubviewsWithContext self layoutContext st = DirtyYogaNode.
Proof.
  unfold layoutSubviewsWithContext.
  assert (Hloop : forall ctx s,
             forEachSubview layoutSubview (reactSubviews self) ctx s = DirtyYogaNode).
  { induction (reactSubviews self) as [|c0 cs IH]; [apply elem_of_nil in Hin; contradiction|].
    intros ctx s. cbn [forEachSubview].
    apply elem_of_cons in Hin as [<-|Hin].
    - rewrite layoutSubview_eq. unfold loopBody, YGNodeIsDirty. rewrite Hdirty. reflexivity.
    - destruct (layoutSubview c0 ctx s) as [[[c1 ctx1] s1]|]; [|reflexivity].
      rewrite (IH Hin). reflexivity. }
  rewrite Hloop. destruct (displayType (layoutMetrics self)); [contradiction | reflexivity..].
Qed.

Lemma dirty_subview_aborts_witness :
  let dirty :=
    ShadowView 9 (flexMetrics (rect 0 0 0 0))
      {| isDirty := true; hasNewLayout := false; layout := flexMetrics (rect 0 0 0 0);
         minWidth := YGValueUndefined; minHeight := YGValueUndefined |} [] in
  layoutSubviewsWithContext (laidOutRoot 1 (rect 0 0 320 480) [viewS; dirty]) atOrigin emptyPass
    = DirtyYogaNode.
Proof.
  intros dirty.
  apply (dirty_subview_aborts (laidOutRoot 1 (rect 0 0 320 480) [viewS; dirty]) dirty).
  - discriminate.
  - apply elem_of_cons. right. apply elem_of_cons. left. reflexivity.
  - reflexivity.
Defined.

(** *** What the loop does to each subview *)

Lemma layoutSubviewsWithContext_journal v ctx st v' st' :
  layoutSubviewsWithContext v ctx st = Done (v', st') ->
  exists l, journal st' = journal st ++ l.
Proof.
  unfold layoutSubviewsWithContext. intros Hrun.
  assert (Hall : Forall (fun c => forall ctx st c' ctx' st',
              layoutSubview c ctx st = Done (c', ctx', st') ->
              exists l, journal st' = journal st ++ l) (reactSubviews v)).
  { apply Forall_forall. intros c _. apply layoutSubview_journal. }
  destruct (displayType (layoutMetrics v));
    try (injection Hrun as <- <-; exists []; symmetry; apply app_nil_r);
    destruct (forEachSubview layoutSubview (reactSubviews v) ctx st) as [[cs1 st2]|] eqn:E;
    try discriminate; injection Hrun as <- <-;
    exact (forEachSubview_journal _ Hall _ _ _ _ E).
Qed.

Lemma layoutSubview_step c ctx st c' ctx' st' :
  layoutSubview c ctx st = Done (c', ctx', st') ->
  ctx' = carried ctx [c] /\
  consumed c c' /\
  (YGNodeGetHasNewLayout (yogaNode c) = true ->
   exists j,
     journal st' =
       journal st ++
       {| receiver := reactTag c;
          metrics := RCTLayoutMetricsFromYogaNode (yogaNode c);
          contextPosition := absolutePosition (carried ctx [c]) |} :: j).
Proof.
  rewrite layoutSubview_eq. unfold loopBody, consumed, carried. cbn [fold_left].
  destruct (YGNodeIsDirty (yogaNode c)); [discriminate|].
  destruct (YGNodeGetHasNewLayout (yogaNode c)) eqn:Ef; cbn [negb].
  2:{ intros H. injection H as <- <- <-. split; [reflexivity | split; [reflexivity | discriminate]]. }
  destruct (layoutWithMetrics _ _ _ st) as [child st1] eqn:Elw.
  apply layoutWithMetrics_spec in Elw as (Ht & Hy & _ & Hm & Hj & _).
  cbn [withYogaNode reactTag yogaNode] in Ht, Hy, Hm, Hj.
  destruct (layoutSubviewsWithContext child _ st1) as [[c2 st2]|] eqn:Esub; [|discriminate].
  intros H. injection H as <- <- <-.
  pose proof (layoutSubviewsWithContext_journal _ _ _ _ _ Esub) as [j Hj2].
  apply layoutSubviewsWithContext_settles in Esub as (Hy2 & Hm2 & Ht2 & _).
  split; [reflexivity | split; [| intros _]].
  - rewrite Ht2, Hm2, Hy2, Ht, Hy, Hm. auto.
  - exists j. rewrite Hj2, Hj, <- app_assoc. reflexivity.
Qed.

Lemma carried_app ctx l1 l2 : carried ctx (l1 ++ l2) = carried (carried ctx l1) l2.
Proof. unfold carried. apply fold_left_app. Qed.

(** The loop over a list in two parts. *)
Lemma forEachSubview_app l1 : forall l2 ctx st l st',
  forEachSubview layoutSubview (l1 ++ l2) ctx st = Done (l, st') ->
  exists l1' l2' st1,
    forEachSubview layoutSubview l1 ctx st = Done (l1', st1) /\
    forEachSubview layoutSubview l2 (carried ctx l1) st1 = Done (l2', st') /\
    l = l1' ++ l2'.
Proof.
  induction l1 as [|c cs IH]; intros l2 ctx st l st' Hrun.
  - exists [], l, st. auto.
  - cbn [app forEachSubview] in Hrun |- *.
    destruct (layoutSubview c ctx st) as [[[c1 ctx1] st1]|] eqn:E1; [|discriminate].
    destruct (forEachSubview layoutSubview (cs ++ l2) ctx1 st1) as [[r st2]|] eqn:E2;
      [|discriminate].
    injection Hrun as <- <-.
    destruct (IH _ _ _ _ _ E2) as (l1' & l2' & st3 & H1 & H2 & ->).
    pose proof (layoutSubview_step _ _ _ _ _ _ E1) as (Hctx & _).
    rewrite H1. exists (c1 :: l1'), l2', st3.
    split; [reflexivity | split; [| reflexivity]].
    change (c :: cs) with ([c] ++ cs). rewrite carried_app, <- Hctx. exact H2.
Qed.

(** X5.  In a visible view every subview that carries new layout comes
    back with the solver's metrics stored and its marker taken down; every
    subview that carries none comes back untouched, with all that is
    below it, markers included. *)
Theorem subviews_consumed_or_skipped (self self' : RCTShadowView)
    (layoutContext : RCTLayoutContext) (st st' : PassState)
    (Hvisible : displayType (layoutMetrics self) <> RCTDisplayTypeNone)
    (Hrun : layoutSubviewsWithContext self layoutContext st = Done (self', st')) :
  Forall2 consumed (reactSubviews self) (reactSubviews self').
Proof.
  unfold layoutSubviewsWithContext in Hrun.
  assert (Hloop : forall subviews ctx s subviews' s',
             forEachSubview layoutSubview subviews ctx s = Done (subviews', s') ->
             Forall2 consumed subviews subviews').
  { induction subviews as [|c cs IH]; intros ctx s subviews' s' H; cbn in H.
    - injection H as <- <-. constructor.
    - destruct (layoutSubview c ctx s) as [[[c1 ctx1] s1]|] eqn:E1; [|discriminate].
      destruct (forEachSubview layoutSubview cs ctx1 s1) as [[r s2]|] eqn:E2; [|discriminate].
      injection H as <- <-. constructor.
      + apply (layoutSubview_step _ _ _ _ _ _ E1).
      + exact (IH _ _ _ _ E2). }
  destruct (displayType (layoutMetrics self)); [contradiction | |];
    (destruct (forEachSubview layoutSubview (reactSubviews self) layoutContext st)
       as [[cs1 st2]|] eqn:E; [|discriminate]);
    injection Hrun as <- <-; exact (Hloop _ _ _ _ _ E).
Qed.

Lemma subviews_consumed_or_skipped_witness :
  exists self' st',
    layoutSubviewsWithContext rootSiblingFirst atOrigin emptyPass = Done (self', st') /\
    Forall2 consumed (reactSubviews rootSiblingFirst) (reactSubviews self').
Proof.
  eexists _, _. split; [reflexivity|].
  eapply (subviews_consumed_or_skipped rootSiblingFirst _ atOrigin emptyPass).
  - discriminate.
  - reflexivity.
Defined.

(** X6.  The absolute position handed to a subview is the position the
    view was given plus the origins of all the subviews with new layout
    that stand before it in the list, plus its own: the loop carries its
    context from one subview to the next. *)
Theorem position_told_accumulates (self self' : RCTShadowView)
    (before after : list RCTShadowView) (c : RCTShadowView)
    (layoutContext : RCTLayoutContext) (st st' : PassState)
    (Hvisible : displayType (layoutMetrics self) <> RCTDisplayTypeNone)
    (Hlist : reactSubviews self = before ++ c :: after)
    (Hnew : YGNodeGetHasNewLayout (yogaNode c) = true)
    (Hrun : layoutSubviewsWithContext self layoutContext st = Done (self', st')) :
  exists j1 j2,
    journal st' =
      journal st ++ j1 ++
      {| receiver := reactTag c;
         metrics := RCTLayoutMetricsFromYogaNode (yogaNode c);
         contextPosition := absolutePosition (carried layoutContext (before ++ [c])) |} :: j2.
Proof.
  unfold layoutSubviewsWithContext in Hrun. rewrite Hlist in Hrun.
  assert (Hall : forall l, Forall (fun c => forall ctx st c' ctx' st',
              layoutSubview c ctx st = Done (c', ctx', st') ->
              exists l, journal st' = journal st ++ l) l).
  { intros l. apply Forall_forall. intros x _. apply layoutSubview_journal. }
  assert (Hloop : forall l st2,
             forEachSubview layoutSubview (before ++ c :: after) layoutContext st = Done (l, st2) ->
             exists j1 j2,
               journal st2 =
                 journal st ++ j1 ++
                 {| receiver := reactTag c;
                    metrics := RCTLayoutMetricsFromYogaNode (yogaNode c);
                    contextPosition :=
                      absolutePosition (carried layoutContext (before ++ [c])) |} :: j2).
  { intros l st2 H.
    apply forEachSubview_app in H as (l1' & l2' & stB & H1 & H2 & _).
    cbn [forEachSubview] in H2.
    destruct (layoutSubview c (carried layoutContext before) stB) as [[[c1 ctx1] stC]|] eqn:E1;
      [|discriminate].
    destruct (forEachSubview layoutSubview after ctx1 stC) as [[r stD]|] eqn:E2; [|discriminate].
    injection H2 as _ <-.
    destruct (forEachSubview_journal _ (Hall before) _ _ _ _ H1) as [j1 Hj1].
    destruct (layoutSubview_step _ _ _ _ _ _ E1) as (_ & _ & Hmsg).
    destruct (Hmsg Hnew) as [j Hj].
    destruct (forEachSubview_journal _ (Hall after) _ _ _ _ E2) as [j3 Hj3].
    exists j1, (j ++ j3). rewrite Hj3, Hj, Hj1, carried_app.
    rewrite <- !app_assoc. reflexivity. }
  destruct (displayType (layoutMetrics self)); [contradiction | |];
    (destruct (forEachSubview layoutSubview (before ++ c :: after) layoutContext st)
       as [[cs1 st2]|] eqn:E; [|discriminate]);
    injection Hrun as <- <-; exact (Hloop _ _ eq_refl).
Qed.

Lemma position_told_accumulates_witness :
  exists self' st' j1 j2,
    layoutSubviewsWithContext rootSiblingFirst atOrigin emptyPass = Done (self', st') /\
    journal st' =
      journal emptyPass ++ j1 ++
      {| receiver := 3; metrics := flexMetrics (rect 10 10 50 50);
         contextPosition := {| pt_x := 17; pt_y := 13 |} |} :: j2.
Proof.
  pose proof (fun self' st' =>
                position_told_accumulates rootSiblingFirst self' [viewS] [] viewA
                  atOrigin emptyPass st' ltac:(discriminate) eq_refl eq_refl) as P.
  specialize (P _ _ eq_refl). destruct P as (j1 & j2 & H).
  eexists _, _, j1, j2. split; [reflexivity | exact H].
Defined.

(** *** The affected set *)

Lemma addObject_elem table object t : t ∈ addObject table object <-> t ∈ table \/ t = object.
Proof.
  unfold addObject. destruct (bool_decide_reflect (object ∈ table)) as [Hin|Hnin].
  - split; [auto | intros [H | ->]; assumption].
  - rewrite elem_of_app, elem_of_cons. split.
    + intros [H|[H|H]]; [auto | auto | apply elem_of_nil in H; contradiction].
    + intros [H|H]; auto.
Qed.

Lemma forEachSubview_affected subviews :
  Forall (fun c => forall ctx st c' ctx' st',
              layoutSubview c ctx st = Done (c', ctx', st') ->
              growsWithin (descendantTags c) st st') subviews ->
  forall ctx st subviews' st',
    forEachSubview layoutSubview subviews ctx st = Done (subviews', st') ->
    growsWithin (flat_map descendantTags subviews) st st'.
Proof.
  induction 1 as [|c cs Hc _ IH]; intros ctx st subviews' st' Hrun; cbn in Hrun.
  - injection Hrun as <- <-. split; auto.
  - destruct (layoutSubview c ctx st) as [[[c1 ctx1] st1]|] eqn:E1; [|discriminate].
    destruct (forEachSubview layoutSubview cs ctx1 st1) as [[cs1 st2]|] eqn:E2;
      [|discriminate].
    injection Hrun as <- <-.
    destruct (Hc _ _ _ _ _ E1) as [H1 H2]. destruct (IH _ _ _ _ E2) as [H3 H4].
    split.
    + intros t Ht. auto.
    + intros t Ht. cbn [flat_map]. rewrite elem_of_app.
      destruct (H4 t Ht) as [H|H]; [| auto].
      destruct (H2 t H) as [H'|H']; auto.
Qed.

Lemma layoutSubview_affected c :
  forall ctx st c' ctx' st',
    layoutSubview c ctx st = Done (c', ctx', st') -> growsWithin (descendantTags c) st st'.
Proof.
  induction c as [tag m node subviews IH] using RCTShadowView_ind.
  intros ctx st c' ctx' st' Hrun. rewrite layoutSubview_eq in Hrun.
  unfold loopBody in Hrun. cbn [yogaNode] in Hrun.
  destruct (YGNodeIsDirty node); [discriminate|].
  destruct (negb (YGNodeGetHasNewLayout node)).
  { injection Hrun as <- <- <-. split; auto. }
  destruct (layoutWithMetrics _ _ _ st) as [child st1] eqn:Elw.
  apply layoutWithMetrics_spec in Elw as (_ & _ & Hsub & _ & _ & Haff & _).
  cbn [withYogaNode reactTag layoutMetrics reactSubviews] in Hsub, Haff.
  assert (H1 : growsWithin [tag] st st1).
  { split; intros t Ht; rewrite Haff in *; destruct (bool_decide _); auto.
    - apply addObject_elem. auto.
    - apply addObject_elem in Ht as [Ht| ->]; [auto | right; apply elem_of_cons; auto]. }
  unfold layoutSubviewsWithContext in Hrun. rewrite Hsub in Hrun.
  cbn [descendantTags].
  assert (Hdone : forall st2, growsWithin (flat_map descendantTags subviews) st1 st2 ->
                               growsWithin (tag :: flat_map descendantTags subviews) st st2).
  { intros st2 [H3 H4]. destruct H1 as [H1 H2]. split.
    - auto.
    - intros t Ht. rewrite elem_of_cons.
      destruct (H4 t Ht) as [H|H]; [| auto].
      destruct (H2 t H) as [H'|H']; [auto|].
      apply elem_of_cons in H' as [->|H']; [auto | apply elem_of_nil in H'; contradiction]. }
  destruct (displayType (layoutMetrics child));
    try (injection Hrun as <- <- <-; apply Hdone; split; auto);
    (destruct (forEachSubview layoutSubview subviews _ st1) as [[cs1 st2]|] eqn:E2;
       [|discriminate]);
    injection Hrun as <- <- <-;
    apply Hdone; exact (forEachSubview_affected _ IH _ _ _ _ E2).
Qed.

(** X7.  A traversal only adds to the affected set, and what it adds are
    tags of views below the view it was sent to: no registered view is
    ever dropped, and neither the view itself nor a view outside its tree
    is registered. *)
Theorem affected_set_grows_within_the_tree (self self' : RCTShadowView)
    (layoutContext : RCTLayoutContext) (st st' : PassState)
    (Hrun : layoutSubviewsWithContext self layoutContext st = Done (self', st')) :
  (forall t, t ∈ affectedShadowViews st -> t ∈ affectedShadowViews st') /\
  (forall t, t ∈ affectedShadowViews st' ->
             t ∈ affectedShadowViews st \/ t ∈ flat_map descendantTags (reactSubviews self)).
Proof.
  unfold layoutSubviewsWithContext in Hrun.
  assert (Hall : Forall (fun c => forall ctx st c' ctx' st',
              layoutSubview c ctx st = Done (c', ctx', st') ->
              growsWithin (descendantTags c) st st') (reactSubviews self)).
  { apply Forall_forall. intros c _. apply layoutSubview_affected. }
  destruct (displayType (layoutMetrics self));
    try (injection Hrun as <- <-; split; auto);
    (destruct (forEachSubview layoutSubview (reactSubviews self) layoutContext st)
       as [[cs1 st2]|] eqn:E; [|discriminate]);
    injection Hrun as <- <-; exact (forEachSubview_affected _ Hall _ _ _ _ E).
Qed.

Lemma affected_set_grows_witness :
  let before := {| affectedShadowViews := [7]; journal := [] |} in
  exists self' st',
    layoutSubviewsWithContext rootSiblingFirst atOrigin before = Done (self', st') /\
    affectedShadowViews st' = [7; 2; 3; 4] /\
    (forall t, t ∈ affectedShadowViews before -> t ∈ affectedShadowViews st').
Proof.
  intros before. eexists _, _. split; [reflexivity | split; [reflexivity|]].
  apply (affected_set_grows_within_the_tree rootSiblingFirst _ atOrigin before _ eq_refl).
Defined.

(** *** Metrics that are current already *)

Lemma forEachSubview_current subviews :
  Forall (fun c => forall ctx st c' ctx' st',
              metricsCurrent c = true ->
              layoutSubview c ctx st = Done (c', ctx', st') ->
              affectedShadowViews st' = affectedShadowViews st /\
              clearMarkers c' = clearMarkers c) subviews ->
  forall ctx st subviews' st',
    forallb metricsCurrent subviews = true ->
    forEachSubview layoutSubview subviews ctx st = Done (subviews', st') ->
    affectedShadowViews st' = affectedShadowViews st /\
    map clearMarkers subviews' = map clearMarkers subviews.
Proof.
  induction 1 as [|c cs Hc _ IH]; intros ctx st subviews' st' Hcur Hrun; cbn in Hrun.
  - injection Hrun as <- <-. auto.
  - cbn [forallb] in Hcur. apply andb_true_iff in Hcur as [Hc1 Hcs].
    destruct (layoutSubview c ctx st) as [[[c1 ctx1] st1]|] eqn:E1; [|discriminate].
    destruct (forEachSubview layoutSubview cs ctx1 st1) as [[cs1 st2]|] eqn:E2;
      [|discriminate].
    injection Hrun as <- <-.
    destruct (Hc _ _ _ _ _ Hc1 E1) as [H1 H2]. destruct (IH _ _ _ _ Hcs E2) as [H3 H4].
    split; [congruence|]. cbn [map]. rewrite H2, H4. reflexivity.
Qed.

Lemma clearMarkers_eq v :
  clearMarkers v =
    ShadowView (reactTag v) (layoutMetrics v) (YGNodeSetHasNewLayout (yogaNode v) false)
      (map clearMarkers (reactSubviews v)).
Proof. destruct v; reflexivity. Qed.

Lemma layoutSubview_current c :
  forall ctx st c' ctx' st',
    metricsCurrent c = true ->
    layoutSubview c ctx st = Done (c', ctx', st') ->
    affectedShadowViews st' = affectedShadowViews st /\ clearMarkers c' = clearMarkers c.
Proof.
  induction c as [tag m node subviews IH] using RCTShadowView_ind.
  intros ctx st c' ctx' st' Hcur Hrun. cbn [metricsCurrent] in Hcur.
  apply andb_true_iff in Hcur as [Hm Hsubs]. apply bool_decide_eq_true in Hm.
  rewrite layoutSubview_eq in Hrun. unfold loopBody in Hrun. cbn [yogaNode] in Hrun.
  destruct (YGNodeIsDirty node); [discriminate|].
  destruct (negb (YGNodeGetHasNewLayout node)).
  { injection Hrun as <- <- <-. auto. }
  destruct (layoutWithMetrics _ _ _ st) as [child st1] eqn:Elw.
  apply layoutWithMetrics_spec in Elw as (_ & _ & _ & _ & _ & Haff & Hsame).
  cbn [withYogaNode reactTag layoutMetrics yogaNode reactSubviews] in Haff, Hsame.
  rewrite bool_decide_eq_true_2 in Haff by exact Hm.
  rewrite (Hsame Hm) in Hrun. clear Hsame child.
  unfold layoutSubviewsWithContext in Hrun.
  cbn [layoutMetrics reactSubviews withReactSubviews withYogaNode reactTag yogaNode] in Hrun.
  destruct (displayType m);
    try (injection Hrun as <- <- <-; split; [exact Haff | reflexivity]);
    (destruct (forEachSubview layoutSubview subviews _ st1) as [[cs1 st2]|] eqn:E2;
       [|discriminate]);
    injection Hrun as <- <- <-;
    destruct (forEachSubview_current _ IH _ _ _ _ Hsubs E2) as [H1 H2];
    (split; [congruence|]); rewrite !clearMarkers_eq;
    cbn [reactTag layoutMetrics yogaNode reactSubviews withReactSubviews withYogaNode];
    rewrite H2; reflexivity.
Qed.

(** X8.  Change detection: when every view below the one traversed
    already stores the metrics the solver holds, the traversal registers
    no view and stores nothing; it only takes markers down. *)
Theorem current_metrics_register_nothing (self self' : RCTShadowView)
    (layoutContext : RCTLayoutContext) (st st' : PassState)
    (Hcurrent : forallb metricsCurrent (reactSubviews self) = true)
    (Hrun : layoutSubviewsWithContext self layoutContext st = Done (self', st')) :
  affectedShadowViews st' = affectedShadowViews st /\
  clearMarkers self' = clearMarkers self.
Proof.
  unfold layoutSubviewsWithContext in Hrun.
  assert (Hall : Forall (fun c => forall ctx st c' ctx' st',
              metricsCurrent c = true ->
              layoutSubview c ctx st = Done (c', ctx', st') ->
              affectedShadowViews st' = affectedShadowViews st /\
              clearMarkers c' = clearMarkers c) (reactSubviews self)).
  { apply Forall_forall. intros c _. apply layoutSubview_current. }
  destruct (displayType (layoutMetrics self));
    try (injection Hrun as <- <-; auto);
    (destruct (forEachSubview layoutSubview (reactSubviews self) layoutContext st)
       as [[cs1 st2]|] eqn:E; [|discriminate]);
    injection Hrun as <- <-;
    destruct (forEachSubview_current _ Hall _ _ _ _ Hcurrent E) as [H1 H2];
    (split; [exact H1|]);
    rewrite (clearMarkers_eq (withReactSubviews self cs1)), (clearMarkers_eq self);
    cbn [withReactSubviews reactTag layoutMetrics yogaNode reactSubviews];
    rewrite H2; reflexivity.
Qed.

Lemma current_metrics_witness :
  exists self' st',
    layoutSubviewsWithContext remarkedTree atOrigin emptyPass = Done (self', st') /\
    length (journal st') = 3%nat /\
    affectedShadowViews st' = [] /\
    clearMarkers self' = clearMarkers remarkedTree.
Proof.
  eexists _, _. split; [reflexivity | split; [reflexivity|]].
  apply (current_metrics_register_nothing remarkedTree _ atOrigin emptyPass _ eq_refl eq_refl).
Defined.

End TraversalFacts.

(** ** Style properties and their commit *)

Module PropsFacts.
Import MetaProps MetaPropsFacts Props.

Lemma process_slots g g' rtl arr n e :
  slots g' (process g rtl arr n) e =
    if decide (g' = g) then orKeep (written g rtl arr e) (slots g n e) else slots g' n e.
Proof.
  destruct g, g'; cbn [slots process]; case_decide; try congruence;
    try (first [ rewrite (proj1 (padding_leaves_others rtl arr n))
               | rewrite (proj2 (padding_leaves_others rtl arr n))
               | rewrite (proj1 (margin_leaves_others rtl arr n))
               | rewrite (proj2 (margin_leaves_others rtl arr n))
               | rewrite (proj1 (border_leaves_others rtl arr n))
               | rewrite (proj2 (border_leaves_others rtl arr n)) ]; reflexivity).
  - unfold RCTProcessMetaPropsPadding. destruct rtl; cbn [negb]; cbv zeta;
      rewrite !padding_setPadding; destruct e; reflexivity.
  - unfold RCTProcessMetaPropsMargin. destruct rtl; cbn [negb]; cbv zeta;
      rewrite !margin_setMargin; destruct e; reflexivity.
  - destruct rtl, e; reflexivity.
Qed.

Lemma written_none g rtl arr e :
  written g rtl arr e = None <-> rtl = true /\ physical e = true.
Proof.
  destruct g, rtl, e; cbn; split; try discriminate; try tauto;
    intros [? ?]; discriminate.
Qed.

Lemma written_ext g rtl arr arr' e :
  (forall p, arr p = arr' p) -> written g rtl arr e = written g rtl arr' e.
Proof.
  intros H. destruct g, rtl, e; cbn; unfold byUnit, byValue, logicalOrPhysical;
    rewrite ?H; reflexivity.
Qed.

Lemma didSetProps_spec rtl s :
  (forall g, recompute g (didSetProps rtl s) = false) /\
  (forall g, metaProps g (didSetProps rtl s) = metaProps g s) /\
  (forall g e,
      slots g (style (_yogaNode (didSetProps rtl s))) e =
        if recompute g s
        then orKeep (written g rtl (metaProps g s) e) (slots g (style (_yogaNode s)) e)
        else slots g (style (_yogaNode s)) e) /\
  position (_yogaNode (didSetProps rtl s)) = position (_yogaNode s).
Proof.
  split; [intros []; reflexivity |].
  split; [intros []; reflexivity |].
  split.
  - intros g e. destruct s as [f1 f2 f3 a1 a2 a3 n]. unfold didSetProps.
    destruct g, f1, f2, f3;
      cbn [_yogaNode recompute metaProps _recomputePadding _recomputeMargin _recomputeBorder
           _paddingMetaProps _marginMetaProps _borderMetaProps onStyle style];
      change RCTProcessMetaPropsPadding with (process Padding);
      change RCTProcessMetaPropsMargin with (process Margin);
      change RCTProcessMetaPropsBorder with (process Border);
      rewrite ?process_slots; repeat case_decide; try congruence; reflexivity.
  - unfold didSetProps. cbn [_yogaNode].
    destruct (_recomputePadding s), (_recomputeMargin s), (_recomputeBorder s); reflexivity.
Qed.

Lemma sameState_refl s : sameState s s.
Proof. repeat split. Qed.

Lemma sameState_sym s t : sameState s t -> sameState t s.
Proof. intros (H1 & H2 & H3 & H4). repeat split; intros; symmetry; auto. Qed.

Lemma sameState_trans s t u : sameState s t -> sameState t u -> sameState s u.
Proof.
  intros (H1 & H2 & H3 & H4) (K1 & K2 & K3 & K4).
  repeat split; intros; etransitivity; eauto.
Qed.

(** What a message other than [didSetProps:] does. *)
Lemma write_spec rtl m s :
  isDidSetProps m = false ->
  (forall g, recompute g (send rtl s m) = recompute g s || touches m g) /\
  style (_yogaNode (send rtl s m)) = style (_yogaNode s) /\
  (forall g, touches m g = false -> metaProps g (send rtl s m) = metaProps g s).
Proof.
  intros Hm. destruct m as [mp v | mp v | prop v | prop v |]; try discriminate Hm;
    cbn [send];
    (split; [intros []; cbn; rewrite ?orb_true_r, ?orb_false_r; reflexivity |]);
    (split; [| intros [] Ht; try discriminate Ht; reflexivity]);
    try reflexivity.
  unfold setPosition, RCT_SET_YGVALUE. destruct (unit v); reflexivity.
Qed.

Lemma position_setPosition rtl prop v s e :
  position (_yogaNode (setPosition rtl prop v s)) e =
    if decide (e = positionEdge rtl prop) then Some (paddingSetting v)
    else position (_yogaNode s) e.
Proof.
  unfold setPosition, RCT_SET_YGVALUE, paddingSetting. destruct (unit v); reflexivity.
Qed.

Lemma send_proper rtl m s t : sameState s t -> sameState (send rtl s m) (send rtl t m).
Proof.
  intros (H1 & H2 & H3 & H4).
  destruct m as [mp v | mp v | prop v | prop v |].
  - split; [intros []; cbn; auto; apply (H1 Padding) || apply (H1 Border) |].
    split; [intros [] p; cbn; unfold assign; rewrite ?(H2 Margin);
            try apply (H2 Padding); try apply (H2 Border); reflexivity |].
    split; [intros g e; apply H3 | exact H4].
  - split; [intros []; cbn; auto; apply (H1 Margin) || apply (H1 Border) |].
    split; [intros [] p; cbn; unfold assign; rewrite ?(H2 Padding);
            try apply (H2 Margin); try apply (H2 Border); reflexivity |].
    split; [intros g e; apply H3 | exact H4].
  - split; [intros []; cbn; auto; apply (H1 Padding) || apply (H1 Margin) |].
    split; [intros [] p; cbn; unfold setBorderWidth; rewrite ?(H2 Border);
            try apply (H2 Padding); try apply (H2 Margin); reflexivity |].
    split; [intros g e; apply H3 | exact H4].
  - destruct (write_spec rtl (SetPosition prop v) s eq_refl) as (_ & Hs & _).
    destruct (write_spec rtl (SetPosition prop v) t eq_refl) as (_ & Ht & _).
    cbn [send] in *.
    split; [intros []; cbn; auto; first [apply (H1 Padding) | apply (H1 Margin)
                                        | apply (H1 Border)] |].
    split; [intros [] p; cbn; first [apply (H2 Padding) | apply (H2 Margin)
                                    | apply (H2 Border)] |].
    split; [intros g e; rewrite Hs, Ht; apply H3 |].
    intros e. rewrite !position_setPosition. case_decide; [reflexivity | apply H4].
  - cbn [send].
    destruct (didSetProps_spec rtl s) as (S1 & S2 & S3 & S4).
    destruct (didSetProps_spec rtl t) as (T1 & T2 & T3 & T4).
    split; [intros g; rewrite S1, T1; reflexivity |].
    split; [intros g p; rewrite S2, T2; apply H2 |].
    split; [| intros e; rewrite S4, T4; apply H4].
    intros g e. rewrite S3, T3, (H1 g), (H3 g e).
    rewrite (written_ext g rtl _ _ e (H2 g)). reflexivity.
Qed.

Lemma sendAll_proper rtl ms : forall s t,
  sameState s t -> sameState (sendAll rtl ms s) (sendAll rtl ms t).
Proof.
  induction ms as [|m ms IH]; intros s t H; [exact H |].
  cbn. apply IH, send_proper, H.
Qed.

(** A commit before a message is absorbed by the commit after it. *)
Lemma didSetProps_absorbs rtl m s :
  sameState (didSetProps rtl (send rtl (didSetProps rtl s) m))
            (didSetProps rtl (send rtl s m)).
Proof.
  destruct (didSetProps_spec rtl s) as (S1 & S2 & S3 & S4).
  destruct (isDidSetProps m) eqn:Em.
  - destruct m; try discriminate Em. cbn [send].
    destruct (didSetProps_spec rtl (didSetProps rtl s)) as (D1 & D2 & D3 & D4).
    destruct (didSetProps_spec rtl (didSetProps rtl (didSetProps rtl s)))
      as (E1 & E2 & E3 & E4).
    split; [intros g; rewrite E1, D1; reflexivity |].
    split; [intros g p; rewrite E2; reflexivity |].
    split; [| intros e; rewrite E4; reflexivity].
    intros g e. rewrite E3, D1. reflexivity.
  - destruct (didSetProps_spec rtl (send rtl (didSetProps rtl s) m)) as (A1 & A2 & A3 & A4).
    destruct (didSetProps_spec rtl (send rtl s m)) as (B1 & B2 & B3 & B4).
    destruct (write_spec rtl m (didSetProps rtl s) Em) as (W1 & W2 & W3).
    destruct (write_spec rtl m s Em) as (V1 & V2 & V3).
    assert (Harr : forall g p, metaProps g (send rtl (didSetProps rtl s) m) p =
                               metaProps g (send rtl s m) p).
    { intros g p. destruct m; try discriminate Em; destruct g; reflexivity. }
    assert (Hpos : forall e, position (_yogaNode (send rtl (didSetProps rtl s) m)) e =
                             position (_yogaNode (send rtl s m)) e).
    { intros e. destruct m; try discriminate Em; cbn [send];
        try (unfold RCT_MARGIN_PROPERTY, RCT_PADDING_PROPERTY, RCT_BORDER_PROPERTY;
             cbn [_yogaNode]; rewrite S4; reflexivity).
      rewrite !position_setPosition, S4. reflexivity. }
    split; [intros g; rewrite A1, B1; reflexivity |].
    split; [intros g p; rewrite A2, B2; apply Harr |].
    split; [| intros e; rewrite A4, B4; apply Hpos].
    intros g e. rewrite A3, B3, W1, V1, W2, V2, S1, S3.
    rewrite (written_ext g rtl _ _ e (Harr g)).
    destruct (touches m g) eqn:Et.
    + rewrite !orb_true_r. cbn [orb].
      destruct (written g rtl (metaProps g (send rtl s m)) e) eqn:Ew; [reflexivity |].
      cbn [orKeep]. apply written_none in Ew.
      destruct (recompute g s); [| reflexivity].
      rewrite (proj2 (written_none g rtl (metaProps g s) e) Ew). reflexivity.
    + rewrite !orb_false_r. cbn [orb]. rewrite (V3 g Et).
      destruct (recompute g s); reflexivity.
Qed.

Lemma didSetProps_first rtl ms : forall s,
  sameState (didSetProps rtl (sendAll rtl ms (didSetProps rtl s)))
            (didSetProps rtl (sendAll rtl ms s)).
Proof.
  induction ms as [|m ms IH]; intros s.
  - cbn. apply (didSetProps_absorbs rtl DidSetProps s).
  - cbn [sendAll fold_left]. fold (sendAll rtl ms).
    eapply sameState_trans; [apply sameState_sym, IH |].
    eapply sameState_trans; [| apply IH].
    apply (send_proper rtl DidSetProps), sendAll_proper, didSetProps_absorbs.
Qed.

(** X9.  [didSetProps:] commits whatever is pending, so the commits in
    the middle of an update do not matter: after the closing
    [didSetProps:], every flag, every entry and every solver slot is what
    the writes alone, committed once, produce. *)
Theorem commits_in_between_do_not_matter (doLeftAndRightSwapInRTL : bool)
    (ms : list Message) (self : RCTShadowView) :
  sameState
    (didSetProps doLeftAndRightSwapInRTL (sendAll doLeftAndRightSwapInRTL ms self))
    (didSetProps doLeftAndRightSwapInRTL
       (sendAll doLeftAndRightSwapInRTL (writesOnly ms) self)).
Proof.
  revert self. induction ms as [|m ms IH]; intros self.
  - apply sameState_refl.
  - destruct m; cbn [writesOnly List.filter isDidSetProps negb sendAll fold_left send];
      fold (sendAll doLeftAndRightSwapInRTL); fold (writesOnly ms);
      try apply IH.
    eapply sameState_trans; [apply didSetProps_first | apply IH].
Qed.

Lemma send_keeps_physical_edges m s e :
  physical e = true ->
  (forall g, slots g (style (_yogaNode (send true s m))) e = slots g (style (_yogaNode s)) e) /\
  position (_yogaNode (send true s m)) e = position (_yogaNode s) e.
Proof.
  intros He. destruct (isDidSetProps m) eqn:Em.
  - destruct m; try discriminate Em. cbn [send].
    destruct (didSetProps_spec true s) as (_ & _ & S3 & S4).
    split; [| rewrite S4; reflexivity].
    intros g. rewrite S3.
    rewrite (proj2 (written_none g true (metaProps g s) e) (conj eq_refl He)).
    destruct (recompute g s); reflexivity.
  - destruct (write_spec true m s Em) as (_ & W2 & _).
    split; [intros g; rewrite W2; reflexivity |].
    destruct m as [mp v | mp v | prop v | prop v |]; try discriminate Em; try reflexivity.
    cbn [send]. rewrite position_setPosition.
    case_decide as Hd; [| reflexivity].
    subst e. destruct prop; discriminate He.
Qed.

(** X10.  With left and right swapped for right-to-left layouts, no
    sequence of property writes and commits hands the solver a value for a
    physical edge: the left and right slots of padding, margin, border and
    position stay as they were. *)
Theorem mirroring_leaves_physical_edges (ms : list Message) (self : RCTShadowView) :
  let self' := sendAll true ms self in
  (forall g : Group,
      slots g (style (_yogaNode self')) YGEdgeLeft = slots g (style (_yogaNode self)) YGEdgeLeft /\
      slots g (style (_yogaNode self')) YGEdgeRight
        = slots g (style (_yogaNode self)) YGEdgeRight) /\
  position (_yogaNode self') YGEdgeLeft = position (_yogaNode self) YGEdgeLeft /\
  position (_yogaNode self') YGEdgeRight = position (_yogaNode self) YGEdgeRight.
Proof.
  cbv zeta. unfold sendAll. revert self. induction ms as [|m ms IH]; intros self.
  - repeat split.
  - cbn [fold_left].
    destruct (IH (send true self m)) as (I1 & I2 & I3).
    destruct (send_keeps_physical_edges m self YGEdgeLeft eq_refl) as [L1 L2].
    destruct (send_keeps_physical_edges m self YGEdgeRight eq_refl) as [R1 R2].
    split; [| split; congruence].
    intros g. destruct (I1 g) as [J1 J2]. rewrite J1, J2, L1, R1. split; reflexivity.
Qed.

(** *** Reachable states *)

Lemma reachable_ind (rtl : bool) (P : RCTShadowView -> Prop) :
  P init ->
  (forall s m, P s -> P (send rtl s m)) ->
  forall ms, P (sendAll rtl ms init).
Proof.
  intros H0 Hstep ms. unfold sendAll. generalize init H0.
  induction ms as [|m ms IH]; intros s Hs; [exact Hs |].
  cbn. apply IH, Hstep, Hs.
Qed.

Lemma reachable_in_sync rtl ms g :
  let s := sendAll rtl ms init in
  (forall e, written g rtl (metaProps g s) e = None -> slots g (style (_yogaNode s)) e = None) /\
  (recompute g s = false -> neverSet g s \/ inSync rtl g s).
Proof.
  cbv zeta. revert g.
  apply (reachable_ind rtl (fun s => forall g,
    (forall e, written g rtl (metaProps g s) e = None ->
               slots g (style (_yogaNode s)) e = None) /\
    (recompute g s = false -> neverSet g s \/ inSync rtl g s))).
  - intros g. split; [intros e _; destruct g; reflexivity |].
    intros _. left. split; intros; destruct g; reflexivity.
  - intros s m IH g. destruct (IH g) as [I1 I2].
    destruct (isDidSetProps m) eqn:Em.
    + destruct m; try discriminate Em. cbn [send].
      destruct (didSetProps_spec rtl s) as (_ & S2 & S3 & _).
      assert (Hkeep : forall e, written g rtl (metaProps g s) e = None ->
                slots g (style (_yogaNode (didSetProps rtl s))) e = None).
      { intros e Hw. rewrite S3, Hw. cbn [orKeep].
        destruct (recompute g s); apply I1, Hw. }
      split; [rewrite S2; exact Hkeep |].
      intros _. destruct (recompute g s) eqn:Ef.
      * right. intros e. rewrite S2, process_slots, S3, Ef.
        rewrite decide_True by reflexivity.
        destruct (written g rtl (metaProps g s) e) eqn:Ew; cbn [orKeep].
        -- reflexivity.
        -- rewrite (I1 e Ew). destruct g; reflexivity.
      * destruct (I2 eq_refl) as [[N1 N2] | Hs].
        -- left. split; [intros e; rewrite S3, Ef; apply N1 | intros p; rewrite S2; apply N2].
        -- right. intros e. rewrite S2, S3, Ef. apply Hs.
    + destruct (write_spec rtl m s Em) as (W1 & W2 & W3).
      split.
      * intros e Hw. rewrite W2. apply I1.
        apply written_none. apply written_none in Hw. exact Hw.
      * rewrite W1. intros Hf. apply orb_false_iff in Hf as [Hf Ht].
        destruct (I2 Hf) as [[N1 N2] | Hs].
        -- left. split; [intros e; rewrite W2; apply N1 |].
           intros p. rewrite (W3 g Ht). apply N2.
        -- right. intros e. rewrite W2, (W3 g Ht). apply Hs.
Qed.

(** X11.  Starting from a new view, whenever a group has no recompute
    pending, the solver holds for that group exactly what the current
    entries resolve to on a new node, unless the group was never written:
    then no slot is set and every entry is undefined. *)
Theorem settled_group_is_in_sync (doLeftAndRightSwapInRTL : bool) (ms : list Message)
    (g : Group)
    (Hsettled : recompute g (sendAll doLeftAndRightSwapInRTL ms init) = false) :
  neverSet g (sendAll doLeftAndRightSwapInRTL ms init) \/
  inSync doLeftAndRightSwapInRTL g (sendAll doLeftAndRightSwapInRTL ms init).
Proof. exact (proj2 (reachable_in_sync doLeftAndRightSwapInRTL ms g) Hsettled). Qed.

Lemma settled_group_witness :
  recompute Margin (sendAll true update init) = false /\
  recompute Padding (sendAll true update init) = true /\
  margin (style (_yogaNode (sendAll true update init))) YGEdgeStart = Some Auto /\
  (neverSet Margin (sendAll true update init) \/ inSync true Margin (sendAll true update init)).
Proof.
  split; [reflexivity | split; [reflexivity | split; [reflexivity |]]].
  apply (settled_group_is_in_sync true update Margin). reflexivity.
Defined.

(** X12.  Border entries keep the undefined unit they are initialised
    with, whatever is written: the setters assign the value member only.
    There is no setter for the horizontal and vertical border entries, so
    these stay undefined and the solver's horizontal and vertical border
    slots only ever receive the undefined value. *)
Theorem border_entries_keep_their_unit (doLeftAndRightSwapInRTL : bool) (ms : list Message) :
  let self := sendAll doLeftAndRightSwapInRTL ms init in
  (forall p : meta_prop_t, unit (_borderMetaProps self p) = YGUnitUndefined) /\
  _borderMetaProps self META_PROP_HORIZONTAL = YGValueUndefined /\
  _borderMetaProps self META_PROP_VERTICAL = YGValueUndefined /\
  (forall e : YGEdge, e = YGEdgeHorizontal \/ e = YGEdgeVertical ->
     border (style (_yogaNode self)) e = None \/
     border (style (_yogaNode self)) e = Some (Points YGUndefined)).
Proof.
  cbv zeta.
  apply (reachable_ind doLeftAndRightSwapInRTL (fun self =>
    (forall p : meta_prop_t, unit (_borderMetaProps self p) = YGUnitUndefined) /\
    _borderMetaProps self META_PROP_HORIZONTAL = YGValueUndefined /\
    _borderMetaProps self META_PROP_VERTICAL = YGValueUndefined /\
    (forall e : YGEdge, e = YGEdgeHorizontal \/ e = YGEdgeVertical ->
       border (style (_yogaNode self)) e = None \/
       border (style (_yogaNode self)) e = Some (Points YGUndefined)))).
  - repeat split; intros; left; reflexivity.
  - intros s m (I1 & I2 & I3 & I4).
    destruct (isDidSetProps m) eqn:Em.
    + destruct m; try discriminate Em. cbn [send].
      destruct (didSetProps_spec doLeftAndRightSwapInRTL s) as (_ & S2 & S3 & _).
      pose proof (S2 Border) as S2b. cbn [metaProps] in S2b. rewrite S2b.
      split; [exact I1 | split; [exact I2 | split; [exact I3 |]]].
      intros e He. pose proof (S3 Border e) as S3b. cbn [slots metaProps recompute] in S3b.
      rewrite S3b. destruct (_recomputeBorder s); [| apply I4, He].
      right. destruct He as [-> | ->]; cbn; rewrite ?I2, ?I3; reflexivity.
    + destruct (write_spec doLeftAndRightSwapInRTL m s Em) as (_ & W2 & W3).
      rewrite W2.
      destruct m as [mp v | mp v | prop v | prop v |]; try discriminate Em;
        try (pose proof (W3 Border eq_refl) as W3b; cbn [metaProps] in W3b; rewrite W3b;
             repeat split; assumption).
      cbn [send RCT_BORDER_PROPERTY _borderMetaProps]. unfold setBorderWidth.
      split; [intros p; case_bool_decide; [cbn [unit] |]; apply I1 |].
      split; [destruct prop; cbn; exact I2 |].
      split; [destruct prop; cbn; exact I3 | exact I4].
Qed.

Lemma paddingSetting_not_auto v : paddingSetting v <> Auto.
Proof. unfold paddingSetting. destruct (unit v); discriminate. Qed.

Lemma written_padding_not_auto rtl arr e : written Padding rtl arr e <> Some Auto.
Proof.
  unfold written. destruct (resolved _ _ rtl arr e) as [v|]; cbn; [| discriminate].
  intros H. injection H as H. exact (paddingSetting_not_auto _ H).
Qed.

Lemma written_border_points rtl arr e :
  written Border rtl arr e = None \/ exists v, written Border rtl arr e = Some (Points v).
Proof.
  unfold written. destruct (resolved _ _ rtl arr e) as [v|]; cbn; [right; eauto | left; reflexivity].
Qed.

(** X13.  Of the edge properties, only margins reach the solver as
    auto.  Starting from a new view, no padding, border or position slot
    is ever set to auto, and border slots only ever hold point values; an
    auto padding is handed over as an undefined value, an auto margin as
    auto. *)
Theorem auto_reaches_margins_only (doLeftAndRightSwapInRTL : bool) (ms : list Message) :
  let self := sendAll doLeftAndRightSwapInRTL ms init in
  (forall e : YGEdge,
      padding (style (_yogaNode self)) e <> Some Auto /\
      position (_yogaNode self) e <> Some Auto /\
      (border (style (_yogaNode self)) e = None \/
       exists v, border (style (_yogaNode self)) e = Some (Points v))) /\
  (forall p : meta_prop_t,
      let self' :=
        sendAll doLeftAndRightSwapInRTL
          [SetPadding p YGValueAuto; SetMargin p YGValueAuto; DidSetProps] self in
      forall e : YGEdge, entryFor e = p -> physical e = false ->
        padding (style (_yogaNode self')) e = Some (Points YGUndefined) /\
        margin (style (_yogaNode self')) e = Some Auto).
Proof.
  cbv zeta. split.
  - apply (reachable_ind doLeftAndRightSwapInRTL (fun self => forall e : YGEdge,
      padding (style (_yogaNode self)) e <> Some Auto /\
      position (_yogaNode self) e <> Some Auto /\
      (border (style (_yogaNode self)) e = None \/
       exists v, border (style (_yogaNode self)) e = Some (Points v)))).
    + intros e. split; [discriminate | split; [discriminate | left; reflexivity]].
    + intros s m IH e. destruct (IH e) as (I1 & I2 & I3).
      destruct (isDidSetProps m) eqn:Em.
      * destruct m; try discriminate Em. cbn [send].
        destruct (didSetProps_spec doLeftAndRightSwapInRTL s) as (_ & _ & S3 & S4).
        pose proof (S3 Padding e) as Sp. pose proof (S3 Border e) as Sb.
        cbn [slots recompute metaProps] in Sp, Sb. rewrite Sp, Sb, S4.
        split; [| split; [exact I2 |]].
        -- destruct (_recomputePadding s); [| exact I1].
           pose proof (written_padding_not_auto doLeftAndRightSwapInRTL
                         (_paddingMetaProps s) e) as Hw.
           destruct (written Padding _ _ e); cbn [orKeep]; assumption.
        -- destruct (_recomputeBorder s); [| exact I3].
           destruct (written_border_points doLeftAndRightSwapInRTL (_borderMetaProps s) e)
             as [Hw | [v Hw]]; rewrite Hw; cbn [orKeep]; [exact I3 | right; eauto].
      * destruct (write_spec doLeftAndRightSwapInRTL m s Em) as (_ & W2 & _).
        rewrite W2. split; [exact I1 | split; [| exact I3]].
        destruct m as [mp v | mp v | prop v | prop v |]; try discriminate Em; try exact I2.
        cbn [send]. rewrite position_setPosition.
        case_decide as Hd; [| exact I2].
        intros Hs. injection Hs as Hs. exact (paddingSetting_not_auto _ Hs).
  - intros p e <- He.
    set (self := sendAll doLeftAndRightSwapInRTL ms init).
    cbn [sendAll fold_left send].
    destruct (didSetProps_spec doLeftAndRightSwapInRTL
                (RCT_MARGIN_PROPERTY (entryFor e) YGValueAuto
                   (RCT_PADDING_PROPERTY (entryFor e) YGValueAuto self)))
      as (_ & _ & S3 & _).
    pose proof (S3 Padding e) as Sp. pose proof (S3 Margin e) as Sm.
    cbn [slots recompute metaProps RCT_MARGIN_PROPERTY RCT_PADDING_PROPERTY
         _recomputePadding _recomputeMargin _paddingMetaProps _marginMetaProps] in Sp, Sm.
    rewrite Sp, Sm.
    destruct doLeftAndRightSwapInRTL, e; try discriminate He; split; reflexivity.
Qed.

End PropsFacts.

(** ** The intrinsic content size *)

Module IntrinsicFacts.
Import SpecFloat Measure Intrinsic.

Lemma measureFunc_app calls b :
  measureFunc ((calls ++ [YGNodeSetMeasureFunc b]) ++ [YGNodeMarkDirty]) = b.
Proof. unfold measureFunc. rewrite !fold_left_app. reflexivity. Qed.

Lemma setIntrinsicContentSize_spec size self :
  let self' := setIntrinsicContentSize size self in
  (if CGSizeEqualToSize (_intrinsicContentSize self) size
   then self' = self
   else _intrinsicContentSize self' = size /\
        yogaCalls self' =
          yogaCalls self ++ change (negb (CGSizeEqualToSize size noIntrinsicSize))).
Proof.
  cbv zeta. unfold setIntrinsicContentSize.
  destruct (CGSizeEqualToSize (_intrinsicContentSize self) size); [reflexivity |].
  destruct (CGSizeEqualToSize size noIntrinsicSize);
    cbn [_intrinsicContentSize yogaCalls negb change];
    rewrite <- app_assoc; split; reflexivity.
Qed.

Lemma last_cons {A : Type} (l : list A) : forall x d, List.last (x :: l) d = List.last l x.
Proof.
  induction l as [|y l IH]; intros x d; [reflexivity |].
  change (List.last (x :: y :: l) d) with (List.last (y :: l) d).
  rewrite !IH. reflexivity.
Qed.

Lemma setAll_spec sizes : forall self,
  (measureFunc (yogaCalls self) =
     negb (CGSizeEqualToSize (_intrinsicContentSize self) noIntrinsicSize) ->
   measureFunc (yogaCalls (setAll sizes self)) =
     negb (CGSizeEqualToSize (_intrinsicContentSize (setAll sizes self)) noIntrinsicSize)) /\
  _intrinsicContentSize (setAll sizes self)
    = List.last (taken (_intrinsicContentSize self) sizes) (_intrinsicContentSize self) /\
  yogaCalls (setAll sizes self) =
    yogaCalls self ++
      flat_map (fun size => change (negb (CGSizeEqualToSize size noIntrinsicSize)))
        (taken (_intrinsicContentSize self) sizes).
Proof.
  induction sizes as [|size sizes IH]; intros self.
  - cbn. rewrite app_nil_r. auto.
  - change (setAll (size :: sizes) self)
      with (setAll sizes (setIntrinsicContentSize size self)).
    destruct (IH (setIntrinsicContentSize size self)) as (I1 & I2 & I3).
    pose proof (setIntrinsicContentSize_spec size self) as S. cbv zeta in S.
    cbn [taken].
    destruct (CGSizeEqualToSize (_intrinsicContentSize self) size) eqn:Hsame.
    + rewrite S in *. auto.
    + destruct S as [S1 S2]. rewrite S1 in I2, I3. rewrite S1 in I1.
      split; [| split].
      * intros _. apply I1. rewrite S2. unfold change.
        change [YGNodeSetMeasureFunc ?b; YGNodeMarkDirty]
          with ([YGNodeSetMeasureFunc b] ++ [YGNodeMarkDirty]).
        rewrite app_assoc. apply measureFunc_app.
      * rewrite I2, last_cons. reflexivity.
      * rewrite I3, S2. cbn [flat_map]. rewrite <- app_assoc. reflexivity.
Qed.

(** X14.  Whatever sizes a new view is given one after the other, its
    node has the measure callback exactly when the size the view holds
    does not compare equal to the no-size sentinel; and the solver is
    called only for the sizes that do not compare equal to the size held
    when they arrive, each time with the measure function first, set or
    cleared by that size, and the dirty mark right after it. *)
Theorem measure_function_follows_the_size (sizes : list CGSize) :
  let self := setAll sizes init in
  measureFunc (yogaCalls self) =
    negb (CGSizeEqualToSize (_intrinsicContentSize self) noIntrinsicSize) /\
  _intrinsicContentSize self = List.last (taken noIntrinsicSize sizes) noIntrinsicSize /\
  yogaCalls self =
    flat_map (fun size => change (negb (CGSizeEqualToSize size noIntrinsicSize)))
      (taken noIntrinsicSize sizes).
Proof.
  cbv zeta. destruct (setAll_spec sizes init) as (H1 & H2 & H3).
  split; [apply H1; reflexivity | split; [exact H2 | exact H3]].
Qed.

End IntrinsicFacts.

(** ** Ancestors *)

Module AncestryFacts.
Import Topology TopologyFacts Ancestry.

Section Chain.
Variable superviewOf : ref -> option ref.
Variable frameOf : ref -> CGRect.

Local Abbreviation climb := (climb superviewOf).
Local Abbreviation up := (up superviewOf).
Local Abbreviation climbWithOffset := (climbWithOffset superviewOf frameOf).

Lemma up_None n : up n None = None.
Proof. destruct n; reflexivity. Qed.

Lemma up_add n : forall m sv, up (n + m) sv = up m (up n sv).
Proof.
  induction n as [|n IH]; intros m sv; [reflexivity |].
  destruct sv as [v|]; cbn [Nat.add Ancestry.up]; [apply IH | rewrite up_None; reflexivity].
Qed.

(** More fuel does not change an answer. *)
Lemma climb_stable n : forall sv a r m,
  climb n sv a = Some r -> (n <= m)%nat -> climb m sv a = Some r.
Proof.
  induction n as [|n IH]; intros [v|] a r m H Hle;
    destruct m as [|m]; cbn in *; try lia; try exact H;
    destruct (bool_decide (Some v = a)); try discriminate; try exact H.
  apply IH; [exact H | lia].
Qed.

Lemma climb_ends n : forall sv a, up n sv = None -> exists r, climb n sv a = Some r.
Proof.
  induction n as [|n IH]; intros [v|] a H; cbn in *; try discriminate; eauto.
  destruct (bool_decide (Some v = a)); eauto.
Qed.

(** The loop stops at [nil] or at the ancestor, on the chain. *)
Lemma climb_stops n : forall sv a r,
  climb n sv a = Some r -> (r = None \/ r = a) /\ exists k, up k sv = r.
Proof.
  induction n as [|n IH]; intros [v|] a r H; cbn in H.
  - case_bool_decide as Hd; [| discriminate]. injection H as <-.
    split; [right; exact Hd | exists 0%nat; reflexivity].
  - injection H as <-. split; [left; reflexivity | exists 0%nat; reflexivity].
  - case_bool_decide as Hd.
    + injection H as <-. split; [right; exact Hd | exists 0%nat; reflexivity].
    + destruct (IH _ _ _ H) as [H1 [k Hk]]. split; [exact H1 | exists (S k); exact Hk].
  - injection H as <-. split; [left; reflexivity | exists 0%nat; reflexivity].
Qed.

(** It does not pass the ancestor. *)
Lemma climb_meets n : forall sv a r k,
  climb n sv a = Some r -> up k sv = a -> r = a.
Proof.
  induction n as [|n IH]; intros [v|] a r k H Hk; cbn in H.
  - case_bool_decide as Hd; [| discriminate]. injection H as <-. exact Hd.
  - injection H as <-. rewrite up_None in Hk. exact Hk.
  - case_bool_decide as Hd; [injection H as <-; exact Hd |].
    destruct k as [|k]; [cbn in Hk; contradiction |].
    exact (IH _ _ _ k H Hk).
  - injection H as <-. rewrite up_None in Hk. exact Hk.
Qed.

Lemma climb_loops n : forall sv a,
  (forall k, up k sv <> None /\ up k sv <> a) -> climb n sv a = None.
Proof.
  induction n as [|n IH]; intros [v|] a H; cbn.
  - rewrite bool_decide_eq_false_2 by exact (proj2 (H 0%nat)). reflexivity.
  - destruct (proj1 (H 0%nat)). reflexivity.
  - rewrite bool_decide_eq_false_2 by exact (proj2 (H 0%nat)).
    apply IH. intros k. exact (H (S k)).
  - destruct (proj1 (H 0%nat)). reflexivity.
Qed.

Lemma climb_trans n : forall sv b c m,
  climb n sv (Some b) = Some (Some b) -> climb m (Some b) c = Some c ->
  climb (n + m) sv c = Some c.
Proof.
  induction n as [|n IH]; intros [v|] b c m H1 H2; cbn in H1; try discriminate.
  - case_bool_decide as Hd; [| discriminate]. injection Hd as ->. exact H2.
  - case_bool_decide as Hd.
    + injection Hd as ->. apply (climb_stable m); [exact H2 | lia].
    + cbn [Nat.add Ancestry.climb]. case_bool_decide as Hc.
      * rewrite Hc. reflexivity.
      * exact (IH _ _ _ _ H1 H2).
Qed.

Lemma climbWithOffset_fst n : forall sv a offset,
  option_map fst (climbWithOffset n sv a offset) = climb n sv a.
Proof.
  induction n as [|n IH]; intros [v|] a offset; cbn; try reflexivity;
    destruct (bool_decide (Some v = a)); try reflexivity.
  apply IH.
Qed.

Local Abbreviation viewIsDescendantOf := (viewIsDescendantOf superviewOf).
Local Abbreviation measureLayoutRelativeToAncestor :=
  (measureLayoutRelativeToAncestor superviewOf frameOf).

Lemma descendant_inv fuel self ancestor :
  viewIsDescendantOf fuel self ancestor = Some true ->
  climb fuel (Some self) ancestor = Some ancestor.
Proof.
  unfold Ancestry.viewIsDescendantOf.
  destruct (climb fuel (Some self) ancestor) as [r|]; [| discriminate].
  intros H. injection H as H. apply bool_decide_eq_true in H. rewrite H. reflexivity.
Qed.

(** X15.  On a superview chain that reaches the top within [n] links,
    [viewIsDescendantOf:] answers, and with more than enough iterations it
    answers the same; the answer is YES exactly when the ancestor is on
    the chain that starts at the view itself and ends with [nil]. *)
Theorem descendant_iff_on_the_chain (n : nat) (self : ref) (ancestor : option ref)
    (Hends : up n (Some self) = None) :
  exists b : bool,
    (forall fuel, (n <= fuel)%nat -> viewIsDescendantOf fuel self ancestor = Some b) /\
    (b = true <-> exists k, up k (Some self) = ancestor).
Proof.
  destruct (climb_ends n (Some self) ancestor Hends) as [r Hr].
  exists (bool_decide (ancestor = r)). split.
  - intros fuel Hle. unfold Ancestry.viewIsDescendantOf.
    rewrite (climb_stable n _ _ _ fuel Hr Hle). reflexivity.
  - rewrite bool_decide_eq_true. split.
    + intros ->. destruct (climb_stops n _ _ _ Hr) as [_ Hk]. exact Hk.
    + intros [k Hk]. symmetry. exact (climb_meets n _ _ _ k Hr Hk).
Qed.

Lemma absentFrom_spec n sv a k :
  absentFrom superviewOf n sv a = true -> (k < n)%nat -> up k sv <> a.
Proof.
  unfold absentFrom. rewrite forallb_forall. intros H Hk.
  specialize (H k). rewrite in_seq in H. specialize (H ltac:(lia)).
  apply negb_true_iff, bool_decide_eq_false in H. exact H.
Qed.

Lemma up_cycle P sv : up P sv = sv -> forall q k, up (q * P + k) sv = up k sv.
Proof.
  intros Hc q. induction q as [|q IH]; intros k; [reflexivity |].
  replace (S q * P + k)%nat with (P + (q * P + k))%nat by lia.
  rewrite up_add, Hc. apply IH.
Qed.

(** X16.  The loops of [viewIsDescendantOf:] and
    [measureLayoutRelativeToAncestor:] end only at [nil] or at the
    ancestor.  Where the superview links lead from a view back to itself
    without passing the ancestor, no number of iterations gives an
    answer. *)
Theorem superview_cycle_never_ends (p : nat) (self : ref) (ancestor : option ref)
    (Hcycle : up (S p) (Some self) = Some self)
    (Habsent : absentFrom superviewOf (S p) (Some self) ancestor = true) :
  forall fuel : nat,
    viewIsDescendantOf fuel self ancestor = None /\
    measureLayoutRelativeToAncestor fuel self ancestor = None.
Proof.
  assert (Hall : forall k, up k (Some self) <> None /\ up k (Some self) <> ancestor).
  { intros k.
    assert (Hk : up k (Some self) = up (k mod S p) (Some self)).
    { rewrite (Nat.div_mod_eq k (S p)) at 1.
      rewrite (Nat.mul_comm (S p)). apply up_cycle, Hcycle. }
    assert (Hlt : (k mod S p < S p)%nat) by (apply Nat.mod_upper_bound; lia).
    rewrite Hk. split; [| exact (absentFrom_spec _ _ _ _ Habsent Hlt)].
    intros Hn.
    assert (Hup : up (S p) (Some self) = None).
    { replace (S p) with (k mod S p + (S p - k mod S p))%nat by lia.
      rewrite up_add, Hn. apply up_None. }
    rewrite Hcycle in Hup. discriminate Hup. }
  intros fuel. pose proof (climb_loops fuel (Some self) ancestor Hall) as Hl.
  unfold Ancestry.viewIsDescendantOf, Ancestry.measureLayoutRelativeToAncestor.
  rewrite Hl. split; [reflexivity |].
  pose proof (climbWithOffset_fst fuel (Some self) ancestor CGPointZero) as Hf.
  rewrite Hl in Hf.
  destruct (climbWithOffset fuel (Some self) ancestor CGPointZero) as [[r o]|];
    [discriminate Hf | reflexivity].
Qed.

(** X17.  Being a descendant is transitive, on any superview links: if
    the loop finds [b] above [a] and [c] above [b], it finds [c] above
    [a] within the iterations of the two together. *)
Theorem descendant_is_transitive (n m : nat) (a b : ref) (c : option ref)
    (Hab : viewIsDescendantOf n a (Some b) = Some true)
    (Hbc : viewIsDescendantOf m b c = Some true) :
  viewIsDescendantOf (n + m) a c = Some true.
Proof.
  apply descendant_inv in Hab. apply descendant_inv in Hbc.
  unfold Ancestry.viewIsDescendantOf.
  rewrite (climb_trans n _ _ _ _ Hab Hbc).
  rewrite bool_decide_eq_true_2 by reflexivity. reflexivity.
Qed.

(** X18.  [measureLayoutRelativeToAncestor:] gives up exactly where
    [viewIsDescendantOf:] says NO, and otherwise answers a rectangle of
    the view's own size; a view is a descendant of itself and lies at the
    zero offset relative to itself, without a single iteration. *)
Theorem measure_agrees_with_descendant (fuel : nat) (self : ref) (ancestor : option ref) :
  viewIsDescendantOf fuel self (Some self) = Some true /\
  measureLayoutRelativeToAncestor fuel self (Some self)
    = Some (Some {| rect_origin := CGPointZero; rect_size := rect_size (frameOf self) |}) /\
  match viewIsDescendantOf fuel self ancestor,
        measureLayoutRelativeToAncestor fuel self ancestor with
  | None, None => True
  | Some false, Some None => True
  | Some true, Some (Some r) => rect_size r = rect_size (frameOf self)
  | _, _ => False
  end.
Proof.
  split; [| split].
  - unfold Ancestry.viewIsDescendantOf. destruct fuel; cbn;
      rewrite !bool_decide_eq_true_2 by reflexivity; reflexivity.
  - unfold Ancestry.measureLayoutRelativeToAncestor. destruct fuel; cbn;
      rewrite !bool_decide_eq_true_2 by reflexivity; reflexivity.
  - unfold Ancestry.viewIsDescendantOf, Ancestry.measureLayoutRelativeToAncestor.
    pose proof (climbWithOffset_fst fuel (Some self) ancestor CGPointZero) as Hf.
    destruct (climbWithOffset fuel (Some self) ancestor CGPointZero) as [[r o]|];
      cbn in Hf; rewrite <- Hf; [| exact I].
    cbn [fst]. destruct (bool_decide (ancestor = r)); cbn; [reflexivity | exact I].
Qed.

End Chain.

Lemma descendant_iff_witness :
  up nested 3 (Some 3%nat) = None /\
  exists b : bool,
    (forall fuel, (3 <= fuel)%nat ->
                  viewIsDescendantOf nested fuel 3%nat (Some 1%nat) = Some b) /\
    (b = true <-> exists k, up nested k (Some 3%nat) = Some 1%nat).
Proof.
  split; [reflexivity |].
  apply (descendant_iff_on_the_chain nested 3 3%nat (Some 1%nat)). reflexivity.
Defined.

Lemma superview_cycle_witness :
  exists s',
    run [Insert 0%nat 1%nat 0; Insert 1%nat 0%nat 0] freshBase = Ok s' /\
    forall fuel : nat,
      viewIsDescendantOf (superviews s') fuel 0%nat (Some 2%nat) = None /\
      measureLayoutRelativeToAncestor (superviews s') frames fuel 0%nat (Some 2%nat) = None.
Proof.
  eexists. split; [reflexivity |].
  apply (superview_cycle_never_ends _ frames 1 0%nat (Some 2%nat)); reflexivity.
Defined.

Lemma descendant_is_transitive_witness :
  viewIsDescendantOf nested 1 3%nat (Some 2%nat) = Some true /\
  viewIsDescendantOf nested 1 2%nat (Some 1%nat) = Some true /\
  viewIsDescendantOf nested (1 + 1) 3%nat (Some 1%nat) = Some true.
Proof.
  split; [reflexivity | split; [reflexivity |]].
  apply (descendant_is_transitive nested 1 1 3%nat 2%nat (Some 1%nat)); reflexivity.
Defined.

(** X19.  Insertion and removal as [viewIsDescendantOf:] sees them: a
    subview just inserted is a descendant of the view it went into, and
    once removed again it is a descendant of itself only. *)
Theorem inserted_subview_is_a_descendant (self subview : ref) (atIndex : Z) (s s' : Store)
    (Hinsert : insertReactSubview self subview atIndex s = Ok s') :
  (forall fuel : nat,
      viewIsDescendantOf (superviews s') (S fuel) subview (Some self) = Some true) /\
  exists s'',
    removeReactSubview self subview s' = Ok s'' /\
    forall (fuel : nat) (other : ref),
      viewIsDescendantOf (superviews s'') (S fuel) subview (Some other)
        = Some (bool_decide (other = subview)).
Proof.
  destruct (insertReactSubview_spec _ _ _ _ _ Hinsert) as (_ & _ & _ & _ & Hsup & _).
  split.
  - intros fuel. unfold viewIsDescendantOf. cbn [climb].
    case_bool_decide as Hd; [| unfold superviews; cbv beta].
    + rewrite bool_decide_eq_true_2 by (symmetry; exact Hd). reflexivity.
    + rewrite Hsup. destruct fuel; cbn [climb];
        rewrite !bool_decide_eq_true_2 by reflexivity; reflexivity.
  - destruct (removeReactSubview_spec self subview s') as (s'' & Hrm & _ & _ & Hnone & _).
    exists s''. split; [exact Hrm |].
    intros fuel other. unfold viewIsDescendantOf. cbn [climb].
    case_bool_decide as Hd; [| unfold superviews; cbv beta].
    + injection Hd as ->. rewrite !bool_decide_eq_true_2 by reflexivity. reflexivity.
    + rewrite Hnone. destruct fuel; cbn [climb];
        rewrite bool_decide_eq_false_2 by discriminate;
        rewrite bool_decide_eq_false_2 by congruence; reflexivity.
Qed.

Lemma inserted_subview_witness :
  exists s',
    insertReactSubview 0%nat 1%nat 0 freshBase = Ok s' /\
    viewIsDescendantOf (superviews s') 1 1%nat (Some 0%nat) = Some true.
Proof.
  eexists. split; [reflexivity |].
  exact (proj1 (inserted_subview_is_a_descendant 0%nat 1%nat 0 freshBase _ eq_refl) 0%nat).
Defined.

End AncestryFacts.

(** ** Superview links and subview lists *)

Module TreeFacts.
Import Topology TopologyFacts.

Lemma insertReactSubview_superview self subview atIndex s s' :
  insertReactSubview self subview atIndex s = Ok s' ->
  forall n, _superview (s' n) = if decide (n = subview) then Some self else _superview (s n).
Proof.
  unfold insertReactSubview.
  destruct (negb (canHaveSubviews (s self))); [discriminate |].
  destruct (insertObject (_reactSubviews (s self)) subview atIndex) as [l|]; [| discriminate].
  set (s1 := update s self (set_reactSubviews l)).
  assert (H1 : forall n, _superview (s1 n) = _superview (s n)).
  { intros n. subst s1. store_simpl; reflexivity. }
  destruct (negb (isYogaLeafNode (s1 self))).
  - destruct (YGNodeInsertChild s1 self subview (uint32_of atIndex)) as [t|f] eqn:E;
      [| discriminate].
    intros H. injection H as <-. intros n.
    destruct (YGNodeInsertChild_spec _ _ _ _ _ E) as (_ & _ & Hf & _).
    unfold update at 1. case_decide; [reflexivity |].
    rewrite (proj1 (proj2 (Hf n))). apply H1.
  - intros H. injection H as <-. intros n.
    unfold update at 1. case_decide; [reflexivity | apply H1].
Qed.

Lemma removeReactSubview_superview self subview s s' :
  removeReactSubview self subview s = Ok s' ->
  forall n, _superview (s' n) = if decide (n = subview) then None else _superview (s n).
Proof.
  unfold removeReactSubview.
  set (s1 := update (update s subview (set_superview None)) self _).
  assert (H1 : forall n, _superview (s1 n) =
                         if decide (n = subview) then None else _superview (s n)).
  { intros n. subst s1. store_simpl; try reflexivity; congruence. }
  destruct (negb (isYogaLeafNode (s1 self))); intros H; injection H as <-; intros n.
  - destruct (YGNodeRemoveChild_spec s1 self subview) as (Hf & _).
    rewrite (proj1 (proj2 (Hf n))). apply H1.
  - apply H1.
Qed.

Lemma removeObject_insertAt l i x : x ∉ l -> removeObject (insertAt l i x) x = l.
Proof.
  intros Hx. unfold removeObject, insertAt. rewrite List.filter_app. cbn [List.filter].
  rewrite bool_decide_eq_true_2 by reflexivity. cbn [negb].
  fold (removeObject (take i l) x). fold (removeObject (drop i l) x).
  rewrite !removeObject_not_elem, take_drop; [reflexivity | |].
  - intros H. apply Hx. rewrite <- (take_drop i l). apply elem_of_app. right. exact H.
  - intros H. apply Hx. rewrite <- (take_drop i l). apply elem_of_app. left. exact H.
Qed.

Lemma eraseFirst_app l1 l2 x : x ∉ l1 -> eraseFirst (l1 ++ x :: l2) x = l1 ++ l2.
Proof.
  induction l1 as [|y l1 IH]; intros Hx; cbn.
  - rewrite decide_True by reflexivity. reflexivity.
  - rewrite decide_False.
    + rewrite IH; [reflexivity |]. intros H. apply Hx. apply elem_of_cons. right. exact H.
    + intros ->. apply Hx. apply elem_of_cons. left. reflexivity.
Qed.

Lemma eraseFirst_insertAt l i x : x ∉ l -> eraseFirst (insertAt l i x) x = l.
Proof.
  intros Hx. unfold insertAt. rewrite eraseFirst_app, take_drop; [reflexivity |].
  intros H. apply Hx. rewrite <- (take_drop i l). apply elem_of_app. left. exact H.
Qed.

Lemma apply_keeps_links m s s' :
  apply m s = Ok s' ->
  (forall x p, _superview (s x) = Some p -> x ∈ _reactSubviews (s p)) ->
  forall x p, _superview (s' x) = Some p -> x ∈ _reactSubviews (s' p).
Proof.
  intros Happ Hinv x p Hx. destruct m as [self subview atIndex | self subview]; cbn in Happ.
  - pose proof (insertReactSubview_superview _ _ _ _ _ Happ) as Hsup.
    destruct (insertReactSubview_spec _ _ _ _ _ Happ) as (_ & _ & _ & Hsub & _).
    rewrite Hsup in Hx. rewrite Hsub. case_decide as Hxs.
    + injection Hx as <-. rewrite decide_True by reflexivity.
      apply insertAt_elem. left. exact Hxs.
    + apply Hinv in Hx. case_decide as Hp; [| exact Hx].
      subst p. apply insertAt_elem. right. exact Hx.
  - pose proof (removeReactSubview_superview _ _ _ _ Happ) as Hsup.
    destruct (removeReactSubview_spec self subview s) as (s2 & Hrm & _ & Hsub & _).
    rewrite Happ in Hrm. injection Hrm as <-.
    rewrite Hsup in Hx. rewrite Hsub. case_decide as Hxs; [discriminate |].
    apply Hinv in Hx. case_decide as Hp; [| exact Hx].
    subst p. apply removeObject_elem. split; assumption.
Qed.

(** X20.  Whatever insertions and removals a store of new views has
    gone through, a view that names a superview is in that superview's
    list of subviews. *)
Theorem superview_lists_its_subview (yogaLeaf : ref -> bool) (ms : list Mutation)
    (s' : Store) (Hrun : run ms (fresh yogaLeaf) = Ok s') :
  forall x p : ref, _superview (s' x) = Some p -> x ∈ _reactSubviews (s' p).
Proof.
  assert (G : forall ms s s',
             run ms s = Ok s' ->
             (forall x p, _superview (s x) = Some p -> x ∈ _reactSubviews (s p)) ->
             forall x p, _superview (s' x) = Some p -> x ∈ _reactSubviews (s' p)).
  { clear. intros ms. induction ms as [|m ms IH]; intros s s' Hrun Hinv; cbn in Hrun.
    - injection Hrun as <-. exact Hinv.
    - destruct (apply m s) as [s1|] eqn:E; [| discriminate].
      exact (IH _ _ Hrun (apply_keeps_links _ _ _ E Hinv)). }
  apply (G ms _ _ Hrun). intros x p H. discriminate H.
Qed.

Lemma superview_lists_witness :
  exists s',
    run [Insert 0%nat 1%nat 0; Insert 1%nat 2%nat 0] freshBase = Ok s' /\
    forall x p : ref, _superview (s' x) = Some p -> x ∈ _reactSubviews (s' p).
Proof.
  destruct (run [Insert 0%nat 1%nat 0; Insert 1%nat 2%nat 0] freshBase) as [s'|f] eqn:E.
  - exists s'. split; [reflexivity |].
    exact (superview_lists_its_subview (fun _ => false) _ s' E).
  - discriminate E.
Defined.

(** X21.  Insertion undone by removal: when a view that is not yet
    among the subviews is inserted and then removed, every list of
    subviews is as before, the solver's child lists are as before if the
    solver did not have it as a child either, the removed view has no
    superview and no other superview link has changed. *)
Theorem insert_then_remove_restores (self subview : ref) (atIndex : Z) (s s1 : Store)
    (Hinsert : insertReactSubview self subview atIndex s = Ok s1)
    (Hnew : subview ∉ _reactSubviews (s self)) :
  exists s2,
    removeReactSubview self subview s1 = Ok s2 /\
    (forall n, _reactSubviews (s2 n) = _reactSubviews (s n)) /\
    (subview ∉ yogaChildren (s self) -> forall n, yogaChildren (s2 n) = yogaChildren (s n)) /\
    _superview (s2 subview) = None /\
    (forall n, n <> subview -> _superview (s2 n) = _superview (s n)).
Proof.
  destruct (insertReactSubview_spec _ _ _ _ _ Hinsert)
    as (_ & _ & Hleaf1 & Hsub1 & _ & Hl1 & Hn1).
  pose proof (insertReactSubview_superview _ _ _ _ _ Hinsert) as Hsup1.
  destruct (removeReactSubview_spec self subview s1)
    as (s2 & Hrm & _ & Hsub2 & Hnone & Hl2 & Hn2).
  pose proof (removeReactSubview_superview _ _ _ _ Hrm) as Hsup2.
  exists s2. split; [exact Hrm |]. split; [| split; [| split; [exact Hnone |]]].
  - intros n. rewrite Hsub2. case_decide as Hd.
    + subst n. rewrite Hsub1, decide_True by reflexivity.
      apply removeObject_insertAt, Hnew.
    + rewrite Hsub1, decide_False by exact Hd. reflexivity.
  - intros Hy n. destruct (isYogaLeafNode (s self)) eqn:El.
    + rewrite (proj1 (Hl2 ltac:(rewrite Hleaf1; exact El) n)).
      exact (proj1 (Hl1 eq_refl n)).
    + destruct (Hn1 eq_refl) as (_ & Hc1 & _).
      destruct (Hn2 ltac:(rewrite Hleaf1; exact El)) as (Hc2 & _).
      rewrite Hc2. case_decide as Hd.
      * subst n. rewrite Hc1, decide_True by reflexivity.
        apply eraseFirst_insertAt, Hy.
      * rewrite Hc1, decide_False by exact Hd. reflexivity.
  - intros n Hd. rewrite Hsup2, decide_False by exact Hd.
    rewrite Hsup1, decide_False by exact Hd. reflexivity.
Qed.

Lemma insert_then_remove_witness :
  exists s1 s2,
    insertReactSubview 0%nat 1%nat 0 freshBase = Ok s1 /\
    _reactSubviews (s1 0%nat) = [1%nat] /\
    removeReactSubview 0%nat 1%nat s1 = Ok s2 /\
    forall n, _reactSubviews (s2 n) = _reactSubviews (freshBase n).
Proof.
  eexists. 
  destruct (insert_then_remove_restores 0%nat 1%nat 0 freshBase _ eq_refl)
    as (s2 & H1 & H2 & _).
  { intros H. apply elem_of_nil in H. exact H. }
  exists s2. split; [reflexivity | split; [reflexivity | split; [exact H1 | exact H2]]].
Defined.

End TreeFacts.
